(** * Top-contributor extension: blame parser, metrics, cache and pipeline

    A shallow embedding of the TypeScript sources
      - [src/blameParser.ts]  (class [BlameParser]),
      - [src/metrics.ts]      (class [MetricsCalculator]),
      - [src/cache.ts]        (class [ContributorCache]),
      - [src/extension.ts]    ([updateContributors], [showContributors],
                               activation and the debounce timer),
      - [src/gitRunner.ts]    (class [GitRunner] over [execFile]; for the
                               pipeline, the git queries are oracles of an
                               environment),
    followed by the properties established about them.

    Conventions of the embedding.
      - A JavaScript string is a sequence of UTF-16 code units.  The model
        uses [string], one [ascii] per code unit, and therefore covers the
        code units below 256 (Latin-1).  On that range the built-ins
        [trim], [toLowerCase], [split], [startsWith], ... are as defined in
        module [JS].
      - Counters ([lines], [characters], line numbers, sizes, timestamps) are
        integer-valued JavaScript numbers; they are modelled by [Z], which is
        exact below 2^53.  [NaN] is modelled by [None] where it can arise
        ([parseInt]).
      - The percentage is computed by the source in binary64 arithmetic;
        the model uses the kernel's primitive floats for it. *)

From Stdlib Require Import ZArith List Bool Ascii String Lia Floats.
From Stdlib Require Import Permutation Sorted DecimalString DecimalPos.
Import ListNotations.

Local Open Scope string_scope.
Local Open Scope Z_scope.

(* ===================================================================== *)
(** ** JavaScript built-ins used by the sources *)
(* ===================================================================== *)

Module JS.

(** Code units that [String.prototype.trim] and [parseInt] treat as white
    space (WhiteSpace and LineTerminator), restricted to Latin-1:
    TAB, LF, VT, FF, CR, SP and NBSP. *)
Definition isWhitespace (c : ascii) : bool :=
  let n := nat_of_ascii c in
  ((9 <=? n) && (n <=? 13) || (n =? 32) || (n =? 160))%nat.

Fixpoint trimStart (s : string) : string :=
  match s with
  | EmptyString => EmptyString
  | String c r => if isWhitespace c then trimStart r else s
  end.

Fixpoint trimEnd (s : string) : string :=
  match s with
  | EmptyString => EmptyString
  | String c r =>
      match trimEnd r with
      | EmptyString => if isWhitespace c then EmptyString else String c EmptyString
      | r' => String c r'
      end
  end.

(** [s.trim()] *)
Definition trim (s : string) : string := trimEnd (trimStart s).

(** Truthiness of a string: every string but the empty one. *)
Definition truthy (s : string) : bool :=
  match s with EmptyString => false | _ => true end.

(** [s.split(sep)] for a one-character separator. *)
Fixpoint split (sep : ascii) (s : string) : list string :=
  match s with
  | EmptyString => [EmptyString]
  | String c r =>
      if Ascii.eqb c sep then EmptyString :: split sep r
      else match split sep r with
           | h :: t => String c h :: t
           | [] => [String c EmptyString]
           end
  end.

(** [s.startsWith(p)] *)
Fixpoint startsWith (s p : string) {struct p} : bool :=
  match p with
  | EmptyString => true
  | String b p' =>
      match s with
      | EmptyString => false
      | String a s' => Ascii.eqb a b && startsWith s' p'
      end
  end.

(** [s.substring(n)]: the suffix from index [n]. *)
Fixpoint substringFrom (n : nat) (s : string) : string :=
  match n with
  | O => s
  | S k => match s with
           | EmptyString => EmptyString
           | String _ r => substringFrom k r
           end
  end.

(** [s.substring(0, n)]: the prefix of length at most [n]. *)
Fixpoint substringTo (n : nat) (s : string) : string :=
  match n with
  | O => EmptyString
  | S k => match s with
           | EmptyString => EmptyString
           | String c r => String c (substringTo k r)
           end
  end.

(** [s.includes(needle)] *)
Fixpoint includes (s needle : string) : bool :=
  startsWith s needle ||
  match s with
  | EmptyString => false
  | String _ r => includes r needle
  end.

(** [s.toLowerCase()] on Latin-1: A-Z and the accented capitals
    U+00C0..U+00DE (the multiplication sign U+00D7 apart). *)
Definition lowerChar (c : ascii) : ascii :=
  let n := nat_of_ascii c in
  if ((65 <=? n) && (n <=? 90) ||
      (192 <=? n) && (n <=? 222) && negb (n =? 215))%nat
  then ascii_of_nat (n + 32) else c.

Fixpoint toLowerCase (s : string) : string :=
  match s with
  | EmptyString => EmptyString
  | String c r => String (lowerChar c) (toLowerCase r)
  end.

Definition isDigit (c : ascii) : bool :=
  let n := nat_of_ascii c in ((48 <=? n) && (n <=? 57))%nat.

Definition digitValue (c : ascii) : Z := Z.of_nat (nat_of_ascii c) - 48.

(** Value of the longest prefix of decimal digits, continuing [acc]. *)
Fixpoint digitsValue (acc : Z) (s : string) : Z :=
  match s with
  | String c r => if isDigit c then digitsValue (10 * acc + digitValue c) r else acc
  | EmptyString => acc
  end.

Definition parseDigits (s : string) : option Z :=
  match s with
  | String c _ => if isDigit c then Some (digitsValue 0 s) else None
  | EmptyString => None
  end.

(** [parseInt(s, 10)]: leading white space is skipped, then an optional
    sign, then the longest run of digits; [None] is [NaN].  The result is
    the exact integer: the source only compares it with an array length
    and keeps it when it is at most that length, and rounding to the
    nearest double is monotone and exact on that range. *)
Definition parseInt (s : string) : option Z :=
  match trimStart s with
  | String "-" r => option_map Z.opp (parseDigits r)
  | String "+" r => parseDigits r
  | t => parseDigits t
  end.

(** [parseInt(parts[i], 10)]: a missing element is [undefined], whose
    string form has no digit. *)
Definition parseIntAt (parts : list string) (i : nat) : option Z :=
  match nth_error parts i with
  | Some s => parseInt s
  | None => None
  end.

(** [String(n)] for an integer-valued number (below 10^21 in magnitude). *)
Definition numberToString (n : Z) : string :=
  NilEmpty.string_of_int (Z.to_int n).

(** [/^[0-9a-f]{40}/.test(s)] is [hexPrefix 40 s]. *)
Definition isLowerHex (c : ascii) : bool :=
  let n := nat_of_ascii c in
  ((48 <=? n) && (n <=? 57) || (97 <=? n) && (n <=? 102))%nat.

Fixpoint hexPrefix (n : nat) (s : string) : bool :=
  match n with
  | O => true
  | S k => match s with
           | EmptyString => false
           | String c r => isLowerHex c && hexPrefix k r
           end
  end.

(** Removes one trailing [>]: the alternative [>$] of the pattern below. *)
Fixpoint dropFinalGt (s : string) : string :=
  match s with
  | EmptyString => EmptyString
  | String c EmptyString => if Ascii.eqb c ">" then EmptyString else s
  | String c r => String c (dropFinalGt r)
  end.

(** [s.replace(/^<|>$/g, '')] *)
Definition stripAngles (s : string) : string :=
  match s with
  | String "<" r => dropFinalGt r
  | _ => dropFinalGt s
  end.

(** [arr.join(sep)] *)
Fixpoint join (sep : string) (l : list string) : string :=
  match l with
  | [] => EmptyString
  | [x] => x
  | x :: r => x ++ sep ++ join sep r
  end.

(** [arr.slice(0, end)] for an integer [end]; a negative [end] counts
    from the end of the array. *)
Definition sliceTo {A : Type} (end_ : Z) (l : list A) : list A :=
  if end_ <? 0 then firstn (Z.to_nat (Z.of_nat (List.length l) + end_)) l
  else firstn (Z.to_nat end_) l.

End JS.

(* ===================================================================== *)
(** ** [Map]: a map that iterates in insertion order *)
(* ===================================================================== *)

Module JSMap.
Section WithValue.
Context {V : Type}.

(** Entries in insertion order, oldest first. *)
Definition t := list (string * V).

Definition empty : t := [].

Fixpoint get (k : string) (m : t) : option V :=
  match m with
  | [] => None
  | (k', v) :: r => if String.eqb k' k then Some v else get k r
  end.

(** [m.set(k, v)]: an existing key keeps its place, a new one goes last. *)
Fixpoint set (k : string) (v : V) (m : t) : t :=
  match m with
  | [] => [(k, v)]
  | (k', v') :: r =>
      if String.eqb k' k then (k, v) :: r else (k', v') :: set k v r
  end.

Fixpoint delete (k : string) (m : t) : t :=
  match m with
  | [] => []
  | (k', v) :: r =>
      if String.eqb k' k then delete k r else (k', v) :: delete k r
  end.

Definition size (m : t) : Z := Z.of_nat (List.length m).

Definition keys (m : t) : list string := List.map fst m.
Definition values (m : t) : list V := List.map snd m.

(** [m.keys().next().value]: the oldest key, [undefined] when empty. *)
Definition firstKey (m : t) : option string :=
  match m with
  | [] => None
  | (k, _) :: _ => Some k
  end.
End WithValue.
Arguments t : clear implicits.
End JSMap.

(* ===================================================================== *)
(** ** [BlameParser] (src/blameParser.ts) *)
(* ===================================================================== *)

Module BlameParser.
Import JS.

Record BlameLineData := mkBlameLineData {
  author : string;
  lineNumber : Z;
  content : string
}.

(** The label given to lines that are not committed yet (spelled as in the
    source). *)
Definition uncommittedLabel : string := "not commited yet".

Definition normalizeAuthor (a : string) : string :=
  let normalized := trim a in
  if negb (truthy normalized) then "Unknown"
  else
    let lower := toLowerCase normalized in
    if includes lower "not committed yet" || includes lower "external file"
    then uncommittedLabel
    else normalized.

(** The loop variables of [parseBlameOutput]; [result] is kept in push
    order. *)
Record ParseState := mkParseState {
  currentCommit : string;
  currentAuthor : string;
  currentLineNumber : option Z;     (* [None] is [NaN] *)
  lineIndex : Z;
  result : list BlameLineData
}.

Definition initialState : ParseState :=
  mkParseState "" "" (Some 0) 0 [].

Definition tab : ascii := ascii_of_nat 9.
Definition newline : ascii := ascii_of_nat 10.

(** The metadata keys the loop skips. *)
Definition skippedKeys : list string :=
  [ "author-time "; "author-tz "; "committer "; "committer-mail ";
    "committer-time "; "committer-tz "; "summary "; "boundary";
    "filename "; "previous " ].

(** [currentAuthor && currentLineNumber > 0], then
    [currentLineNumber <= fileLines.length]. *)
Definition accepts (st : ParseState) (nFileLines : Z) : bool :=
  truthy (currentAuthor st) &&
  match currentLineNumber st with
  | Some n => (0 <? n) && (n <=? nFileLines)
  | None => false
  end.

(** One iteration of the [for] loop over the lines of the blame output. *)
Definition step (nFileLines : Z) (st : ParseState) (line : string)
  : ParseState :=
  if negb (truthy (trim line)) then st
  else if hexPrefix 40 line then
    let parts := split " " line in
    mkParseState (nth 0 parts "") (currentAuthor st) (parseIntAt parts 2)
                 (lineIndex st) (result st)
  else if startsWith line "author " then
    mkParseState (currentCommit st) (substringFrom 7 line)
                 (currentLineNumber st) (lineIndex st) (result st)
  else if startsWith line "author-mail " then
    if negb (truthy (currentAuthor st)) then
      mkParseState (currentCommit st) (stripAngles (substringFrom 12 line))
                   (currentLineNumber st) (lineIndex st) (result st)
    else st
  else if existsb (startsWith line) skippedKeys then st
  else if startsWith line (String tab "") then
    let content := substringFrom 1 line in
    let result' :=
      if accepts st nFileLines then
        match currentLineNumber st with
        | Some n =>
            (result st ++ [mkBlameLineData (normalizeAuthor (currentAuthor st))
                                           n content])%list
        | None => result st
        end
      else result st in
    mkParseState (currentCommit st) "" (Some 0) (lineIndex st + 1) result'
  else st.

(** The records pushed by the main loop. *)
Definition parseLoop (blameOutput fileContent : string) : list BlameLineData :=
  let lines := split newline blameOutput in
  let fileLines := split newline fileContent in
  result (fold_left (step (Z.of_nat (List.length fileLines))) lines initialState).

(** The fallback loop: one record per line of the file, numbered from
    [i + 1]. *)
Fixpoint uncommittedFrom (i : Z) (fileLines : list string)
  : list BlameLineData :=
  match fileLines with
  | [] => []
  | l :: r => mkBlameLineData uncommittedLabel (i + 1) l
              :: uncommittedFrom (i + 1) r
  end.

Definition parseBlameOutput (blameOutput fileContent : string)
  : list BlameLineData :=
  let result := parseLoop blameOutput fileContent in
  if (Nat.eqb (List.length result) 0) && truthy (trim fileContent)
  then (result ++ uncommittedFrom 0 (split newline fileContent))%list
  else result.

End BlameParser.

(* ===================================================================== *)
(** ** [MetricsCalculator] (src/metrics.ts) *)
(* ===================================================================== *)

Module Metrics.
Import JS BlameParser.

Record ContributorMetrics := mkContributorMetrics {
  author : string;
  lines : Z;
  characters : Z;
  percentage : Z
}.

(** The values of the [authorStats] map. *)
Record Stats := mkStats { s_lines : Z; s_characters : Z }.

(** The two settings read from the [gitFlex] configuration. *)
Record Config := mkConfig { countMode : string; ignoreBlankLines : bool }.

Definition defaultConfig : Config := mkConfig "lines" false.

Definition isBlankLine (content : string) : bool :=
  Nat.eqb (String.length (trim content)) 0.

(** The integer [z] as a JavaScript number (the nearest double). *)
Definition toNumber (z : Z) : float :=
  SF2Prim (binary_normalize prec emax z 0 false).

(** [Math.round]: the nearest integer, a tie going up.  The argument is
    [m * 2^e] exactly, so the result is computed on integers.  (Applied, in
    this program, to the product of a quotient of two positive integers and
    100, which is neither [NaN] nor infinite.) *)
Definition Math_round (x : float) : Z :=
  match Prim2SF x with
  | S754_finite s m e =>
      let v := if s then Z.neg m else Z.pos m in
      if 0 <=? e then v * 2 ^ e
      else (2 * v + 2 ^ (- e)) / (2 * 2 ^ (- e))
  | _ => 0
  end.

(** The body of the grouping loop. *)
Definition addLine (cfg : Config) (authorStats : JSMap.t Stats)
  (lineData : BlameLineData) : JSMap.t Stats :=
  if ignoreBlankLines cfg && isBlankLine (BlameParser.content lineData)
  then authorStats
  else
    let existing :=
      match JSMap.get (BlameParser.author lineData) authorStats with
      | Some e => e
      | None => mkStats 0 0
      end in
    JSMap.set (BlameParser.author lineData)
      (mkStats (s_lines existing + 1)
               (s_characters existing
                + Z.of_nat (String.length (BlameParser.content lineData))))
      authorStats.

Definition groupByAuthor (cfg : Config) (blameData : list BlameLineData)
  : JSMap.t Stats :=
  fold_left (addLine cfg) blameData JSMap.empty.

Definition totalOf (f : Stats -> Z) (authorStats : JSMap.t Stats) : Z :=
  fold_left (fun acc st => acc + f st) (JSMap.values authorStats) 0.

Definition isCharacters (cfg : Config) : bool :=
  String.eqb (countMode cfg) "characters".

(** [totalValue > 0 ? Math.round((countValue / totalValue) * 100) : 0] *)
Definition percentageOf (countValue totalValue : Z) : Z :=
  if 0 <? totalValue
  then Math_round (PrimFloat.mul
                     (PrimFloat.div (toNumber countValue) (toNumber totalValue))
                     (toNumber 100))
  else 0.

Definition toMetric (cfg : Config) (totalLines totalCharacters : Z)
  (e : string * Stats) : ContributorMetrics :=
  let stats := snd e in
  let countValue := if isCharacters cfg then s_characters stats else s_lines stats in
  let totalValue := if isCharacters cfg then totalCharacters else totalLines in
  mkContributorMetrics (fst e) (s_lines stats) (s_characters stats)
                       (percentageOf countValue totalValue).

(** The comparison function handed to [sort]. *)
Definition compareFn (cfg : Config) (a b : ContributorMetrics) : Z :=
  if isCharacters cfg then characters b - characters a
  else lines b - lines a.

(** [Array.prototype.sort] is a stable sort; with a comparison function
    that orders by an integer key its result is the one of any stable
    sort.  Here: insertion, from the right, before the first element that
    does not compare strictly smaller. *)
Section Sort.
Context {A : Type} (cmp : A -> A -> Z).

Fixpoint insert (x : A) (l : list A) : list A :=
  match l with
  | [] => [x]
  | y :: r => if cmp y x <? 0 then y :: insert x r else x :: l
  end.

Definition sort (l : list A) : list A := fold_right insert [] l.
End Sort.

Definition calculateContributions (cfg : Config)
  (blameData : list BlameLineData) : list ContributorMetrics :=
  if Nat.eqb (List.length blameData) 0 then []
  else
    let authorStats := groupByAuthor cfg blameData in
    let totalLines := totalOf s_lines authorStats in
    let totalCharacters := totalOf s_characters authorStats in
    let metrics := List.map (toMetric cfg totalLines totalCharacters) authorStats in
    sort (compareFn cfg) metrics.

Definition getTopContributor (metrics : list ContributorMetrics)
  : option ContributorMetrics :=
  match metrics with
  | [] => None
  | m :: _ => Some m
  end.

Definition summaryLine (cfg : Config) (contributor : ContributorMetrics)
  : string :=
  let countValue :=
    if isCharacters cfg then characters contributor else lines contributor in
  let unit := if isCharacters cfg then "chars" else "lines" in
  author contributor ++ ": " ++ numberToString (percentage contributor)
  ++ "% (" ++ numberToString countValue ++ " " ++ unit ++ ")".

(** [formatContributorSummary(metrics, maxCount)]; [maxCount] is 3 when
    the argument is left out. *)
Definition formatContributorSummary (cfg : Config)
  (metrics : list ContributorMetrics) (maxCount : Z) : string :=
  let top := sliceTo maxCount metrics in
  let lines_ := List.map (summaryLine cfg) top in
  let totalLines := fold_left (fun sum c => sum + lines c) metrics 0 in
  let totalChars := fold_left (fun sum c => sum + characters c) metrics 0 in
  let totalValue := if isCharacters cfg then totalChars else totalLines in
  let unit := if isCharacters cfg then "characters" else "lines" in
  join (String newline "")
       (List.app lines_
                 ["Total: " ++ numberToString totalValue ++ " " ++ unit]).

End Metrics.

(* ===================================================================== *)
(** ** [crypto.createHash('md5')] and UTF-8 (Node.js built-ins) *)
(* ===================================================================== *)

Module Crypto.

(** The UTF-8 encoding of a string of Latin-1 code units: one byte below
    128, two bytes from 128 on. *)
Fixpoint utf8 (s : string) : list Z :=
  match s with
  | EmptyString => []
  | String c r =>
      let n := Z.of_nat (nat_of_ascii c) in
      if n <? 128 then n :: utf8 r
      else (192 + n / 64) :: (128 + n mod 64) :: utf8 r
  end.

(** [Buffer.byteLength(s, 'utf8')] *)
Definition byteLength (s : string) : Z := Z.of_nat (List.length (utf8 s)).

Definition mask32 (x : Z) : Z := x mod 2 ^ 32.

Definition rotl32 (x : Z) (n : Z) : Z :=
  mask32 (Z.lor (Z.shiftl x n) (Z.shiftr x (32 - n))).

Definition not32 (x : Z) : Z := Z.lxor x 0xffffffff.

(** The sine table and the per-round shifts of RFC 1321. *)
Definition K : list Z :=
  [ 0xd76aa478; 0xe8c7b756; 0x242070db; 0xc1bdceee;
    0xf57c0faf; 0x4787c62a; 0xa8304613; 0xfd469501;
    0x698098d8; 0x8b44f7af; 0xffff5bb1; 0x895cd7be;
    0x6b901122; 0xfd987193; 0xa679438e; 0x49b40821;
    0xf61e2562; 0xc040b340; 0x265e5a51; 0xe9b6c7aa;
    0xd62f105d; 0x02441453; 0xd8a1e681; 0xe7d3fbc8;
    0x21e1cde6; 0xc33707d6; 0xf4d50d87; 0x455a14ed;
    0xa9e3e905; 0xfcefa3f8; 0x676f02d9; 0x8d2a4c8a;
    0xfffa3942; 0x8771f681; 0x6d9d6122; 0xfde5380c;
    0xa4beea44; 0x4bdecfa9; 0xf6bb4b60; 0xbebfbc70;
    0x289b7ec6; 0xeaa127fa; 0xd4ef3085; 0x04881d05;
    0xd9d4d039; 0xe6db99e5; 0x1fa27cf8; 0xc4ac5665;
    0xf4292244; 0x432aff97; 0xab9423a7; 0xfc93a039;
    0x655b59c3; 0x8f0ccc92; 0xffeff47d; 0x85845dd1;
    0x6fa87e4f; 0xfe2ce6e0; 0xa3014314; 0x4e0811a1;
    0xf7537e82; 0xbd3af235; 0x2ad7d2bb; 0xeb86d391 ].

Definition shifts : list Z :=
  [ 7; 12; 17; 22; 7; 12; 17; 22; 7; 12; 17; 22; 7; 12; 17; 22;
    5; 9; 14; 20; 5; 9; 14; 20; 5; 9; 14; 20; 5; 9; 14; 20;
    4; 11; 16; 23; 4; 11; 16; 23; 4; 11; 16; 23; 4; 11; 16; 23;
    6; 10; 15; 21; 6; 10; 15; 21; 6; 10; 15; 21; 6; 10; 15; 21 ].

(** Message padding: the byte 128, zeros up to 56 modulo 64, and the bit
    length as eight little-endian bytes. *)
Definition leBytes (count : nat) (x : Z) : list Z :=
  List.map (fun i => (x / 2 ^ (8 * Z.of_nat i)) mod 256) (seq 0 count).

Definition pad (msg : list Z) : list Z :=
  let len := Z.of_nat (List.length msg) in
  let zeros := Z.to_nat ((55 - len) mod 64) in
  (msg ++ [128] ++ repeat 0 zeros ++ leBytes 8 (8 * len))%list.

Fixpoint leWord (bytes : list Z) : Z :=
  match bytes with
  | [] => 0
  | b :: r => b + 256 * leWord r
  end.

(** The sixteen little-endian words of a 64-byte block. *)
Definition wordsOf (block : list Z) : list Z :=
  List.map (fun i => leWord (firstn 4 (skipn (4 * i) block))) (seq 0 16).

Record Digest := mkDigest { dA : Z; dB : Z; dC : Z; dD : Z }.

Definition round (M : list Z) (st : Digest) (i : nat) : Digest :=
  let zi := Z.of_nat i in
  let '(mkDigest a b c d) := st in
  let '(f, g) :=
    if zi <? 16 then (Z.lor (Z.land b c) (Z.land (not32 b) d), zi)
    else if zi <? 32 then
      (Z.lor (Z.land d b) (Z.land (not32 d) c), (5 * zi + 1) mod 16)
    else if zi <? 48 then (Z.lxor b (Z.lxor c d), (3 * zi + 5) mod 16)
    else (Z.lxor c (Z.lor b (not32 d)), (7 * zi) mod 16) in
  let f' := mask32 (f + a + nth i K 0 + nth (Z.to_nat g) M 0) in
  mkDigest d (mask32 (b + rotl32 f' (nth i shifts 0))) b c.

Definition processBlock (st : Digest) (block : list Z) : Digest :=
  let r := fold_left (round (wordsOf block)) (seq 0 64) st in
  mkDigest (mask32 (dA st + dA r)) (mask32 (dB st + dB r))
           (mask32 (dC st + dC r)) (mask32 (dD st + dD r)).

Fixpoint blocks (count : nat) (bytes : list Z) : list (list Z) :=
  match count with
  | O => []
  | S k => firstn 64 bytes :: blocks k (skipn 64 bytes)
  end.

Definition md5 (msg : list Z) : list Z :=
  let padded := pad msg in
  let st := fold_left processBlock
              (blocks (List.length padded / 64) padded)
              (mkDigest 0x67452301 0xefcdab89 0x98badcfe 0x10325476) in
  (leBytes 4 (dA st) ++ leBytes 4 (dB st)
   ++ leBytes 4 (dC st) ++ leBytes 4 (dD st))%list.

Definition hexDigit (n : Z) : ascii :=
  ascii_of_nat (Z.to_nat (if n <? 10 then 48 + n else 87 + n)).

Fixpoint hex (bytes : list Z) : string :=
  match bytes with
  | [] => EmptyString
  | b :: r => String (hexDigit (b / 16)) (String (hexDigit (b mod 16)) (hex r))
  end.

(** [crypto.createHash('md5').update(s).digest('hex')] *)
Definition md5hex (s : string) : string := hex (md5 (utf8 s)).

End Crypto.

(* ===================================================================== *)
(** ** [ContributorCache] (src/cache.ts) *)
(* ===================================================================== *)

(** What [fs.statSync] returns, as far as it is read: [mtime.getTime()]
    and [size]. *)
Module Fs.
Record Stats := mkStats { mtime : Z; size : Z }.
End Fs.

Module Cache.
Import JS Metrics Crypto.

Record CacheEntry := mkCacheEntry {
  data : list ContributorMetrics;
  timestamp : Z;
  ttl : Z
}.

Definition ContributorCache := JSMap.t CacheEntry.

Definition defaultTTL : Z := 30000.
Definition maxCacheSize : Z := 100.

(** [statSync] is the file system: [None] when the call throws. *)
Definition getCacheKey (statSync : string -> option Fs.Stats)
  (filePath fileContent : string) : string :=
  match statSync filePath with
  | Some stats =>
      filePath ++ ":" ++ numberToString (Fs.mtime stats) ++ ":"
      ++ numberToString (Fs.size stats) ++ ":"
      ++ substringTo 8 (md5hex fileContent)
  | None => filePath ++ ":content:" ++ md5hex fileContent
  end.

(** [get(key)], with [now] the reading of [Date.now()]: the result ([None]
    is [null]) and the cache afterwards. *)
Definition get (now : Z) (key : string) (cache : ContributorCache)
  : option (list ContributorMetrics) * ContributorCache :=
  match JSMap.get key cache with
  | None => (None, cache)
  | Some entry =>
      if ttl entry <? now - timestamp entry
      then (None, JSMap.delete key cache)
      else (Some (data entry), cache)
  end.

(** [set(key, data, ttl)], with [now] the reading of [Date.now()]. *)
Definition set (now : Z) (key : string) (d : list ContributorMetrics)
  (ttl : Z) (cache : ContributorCache) : ContributorCache :=
  let cache1 :=
    if maxCacheSize <=? JSMap.size cache then
      match JSMap.firstKey cache with
      | Some oldestKey =>
          if truthy oldestKey then JSMap.delete oldestKey cache else cache
      | None => cache
      end
    else cache in
  JSMap.set key (mkCacheEntry d now ttl) cache1.

Definition invalidate (filePath : string) (cache : ContributorCache)
  : ContributorCache :=
  let keysToDelete :=
    List.filter (fun key => startsWith key (filePath ++ ":")) (JSMap.keys cache) in
  fold_left (fun c key => JSMap.delete key c) keysToDelete cache.

Definition clear (cache : ContributorCache) : ContributorCache := JSMap.empty.

Definition size (cache : ContributorCache) : Z := JSMap.size cache.

Definition cleanup (now : Z) (cache : ContributorCache) : ContributorCache :=
  let keysToDelete :=
    List.map fst
      (List.filter (fun e => ttl (snd e) <? now - timestamp (snd e)) cache) in
  fold_left (fun c key => JSMap.delete key c) keysToDelete cache.

End Cache.

(* ===================================================================== *)
(** ** [GitRunner] (src/gitRunner.ts) *)
(* ===================================================================== *)

Module GitRunner.
Import JS.

(** The options handed to [execFile]. *)
Record ExecOptions := mkExecOptions {
  cwd : string;
  timeout : Z;
  maxBuffer : option Z
}.

(** [error.code]: the exit status of the process, or the name of the
    system error that kept it from running. *)
Inductive ErrorCode :=
| ExitStatus (status : Z)
| SystemError (name : string)
| NoCode.

(** The error [execFile] rejects with, as far as it is read. *)
Record ExecError := mkExecError {
  code : ErrorCode;
  signal : option string;
  message : string
}.

(** [error.code === name] and [error.signal === name]. *)
Definition codeIs (error : ExecError) (name : string) : bool :=
  match code error with
  | SystemError n => String.eqb n name
  | _ => false
  end.

Definition signalIs (error : ExecError) (name : string) : bool :=
  match signal error with
  | Some n => String.eqb n name
  | None => false
  end.

Definition timeoutMs : Z := 5000.

Section Runner.
(** [execFile(file, args, options)]: the standard output, or the error. *)
Variable execFile : string -> list string -> ExecOptions -> ExecError + string.
(** [path.dirname] and [path.basename]. *)
Variables dirname basename : string -> string.

Definition isInGitRepository (filePath : string) : bool :=
  let workingDir := dirname filePath in
  match execFile "git" ["rev-parse"; "--show-toplevel"]
                 (mkExecOptions workingDir timeoutMs None) with
  | inr stdout => (0 <? String.length (trim stdout))%nat
  | inl _ => false
  end.

Definition isFileTracked (filePath : string) : bool :=
  let workingDir := dirname filePath in
  let relativePath := basename filePath in
  match execFile "git" ["ls-files"; "--error-unmatch"; "--"; relativePath]
                 (mkExecOptions workingDir timeoutMs None) with
  | inr _ => true
  | inl _ => false
  end.

Definition isFileModified (filePath : string) : bool :=
  let workingDir := dirname filePath in
  let relativePath := basename filePath in
  match execFile "git" ["status"; "--porcelain"; "-z"; "--"; relativePath]
                 (mkExecOptions workingDir timeoutMs None) with
  | inr stdout => (0 <? String.length (trim stdout))%nat
  | inl _ => false
  end.

(** The arguments of the blame; [tempFilePath] is [None] when the
    argument is left out. *)
Definition blameArgs (filePath : string) (tempFilePath : option string)
  : list string :=
  let relativePath := basename filePath in
  let args := ["blame"; "--line-porcelain"; "--encoding=UTF-8"] in
  let args :=
    match tempFilePath with
    | Some t => if truthy t then List.app args ["--contents"; t] else args
    | None => args
    end in
  List.app args ["--"; relativePath].

(** [getBlame]: the standard output, or ([inl]) the message of the error
    thrown. *)
Definition getBlame (filePath : string) (tempFilePath : option string)
  : string + string :=
  let workingDir := dirname filePath in
  match execFile "git" (blameArgs filePath tempFilePath)
                 (mkExecOptions workingDir timeoutMs
                                (Some (10 * 1024 * 1024))) with
  | inr stdout => inr stdout
  | inl error =>
      if codeIs error "ENOENT" then inl "Git not found in PATH"
      else if signalIs error "SIGTERM" then inl "Git blame timeout"
      else inl ("Git blame failed: " ++ message error)
  end.

Definition getRepositoryRoot (filePath : string) : string + string :=
  let workingDir := dirname filePath in
  match execFile "git" ["rev-parse"; "--show-toplevel"]
                 (mkExecOptions workingDir timeoutMs None) with
  | inr stdout => inr (trim stdout)
  | inl error => inl ("Failed to get repository root: " ++ message error)
  end.

Definition getCurrentCommitHash (filePath : string) : string + string :=
  let workingDir := dirname filePath in
  match execFile "git" ["rev-parse"; "HEAD"]
                 (mkExecOptions workingDir timeoutMs None) with
  | inr stdout => inr (trim stdout)
  | inl error => inl ("Failed to get current commit: " ++ message error)
  end.

End Runner.
End GitRunner.

(* ===================================================================== *)
(** ** The pipeline (src/extension.ts, src/blameParser.ts, src/gitRunner.ts) *)
(* ===================================================================== *)

Module Extension.
Import JS BlameParser Metrics Crypto Cache.

(** [editor.document.uri.fsPath] and [editor.document.getText()]. *)
Record Editor := mkEditor { fsPath : string; getText : string }.

(** A [vscode.TextDocument] handed to a listener, as far as it is read:
    its path, and the editors whose document it is (the comparison of
    objects [editor.document === document]). *)
Record TextDocument := mkTextDocument {
  documentPath : string;            (* document.uri.fsPath *)
  isDocumentOf : Editor -> bool     (* editor.document === document *)
}.

(** What a request does to the outside, in order. *)
Inductive Event :=
| GitRevParse (filePath : string)                 (* isInGitRepository *)
| GitLsFiles (filePath : string)                  (* isFileTracked *)
| GitStatus (filePath : string)                   (* isFileModified *)
| GitBlame (filePath : string) (contents : option string)   (* getBlame *)
| WriteTempFile (content : string)
| UnlinkTempFile
| ConsoleError (message : string)
| ShowInformationMessage (message : string)
| ShowErrorMessage (message : string)
| ShowQuickPick (items : list (string * string))
| RevealLine (line : Z).

(** The runs of [git blame]. *)
Definition isBlameCall (e : Event) : bool :=
  match e with GitBlame _ _ => true | _ => false end.

(** What a request reads from the outside: the settings, the file system,
    git, the clock and the user. *)
Record Env := mkEnv {
  maxFileSizeKB : Z;                       (* topContributor.maxFileSizeKB *)
  metricsConfig : Metrics.Config;          (* gitFlex.* *)
  statSync : string -> option Fs.Stats;
  writeFileSync : string -> option string; (* [Some msg]: throws *)
  isInGitRepository : string -> bool;
  isFileTracked : string -> bool;
  isFileModified : string -> bool;
  getBlame : string -> option string -> string + string;
                                           (* [inl msg]: throws; the
                                              second argument is the
                                              content given by --contents *)
  nowAtGet : Z;                            (* Date.now() in cache.get *)
  nowAtSet : Z;                            (* Date.now() in cache.set *)
  activeTextEditor : option Editor;
  showQuickPick : list (string * string) -> option string
                                           (* the label picked, if any *)
}.

Record StatusBarItem := mkStatusBarItem { text : string; tooltip : string }.

(** The module-level variables of the extension and the trace. *)
Record World := mkWorld {
  cache : ContributorCache;
  statusBarItem : StatusBarItem;
  log : list Event
}.

(** Statements that read and write the [World] and may throw a message. *)
Definition M (A : Type) : Type := World -> (string + A) * World.

Definition ret {A} (a : A) : M A := fun w => (inr a, w).

Definition bind {A B} (m : M A) (k : A -> M B) : M B :=
  fun w => match m w with
           | (inl err, w') => (inl err, w')
           | (inr a, w') => k a w'
           end.

Definition throw {A} (msg : string) : M A := fun w => (inl msg, w).

Definition tryCatch {A} (m : M A) (handler : string -> M A) : M A :=
  fun w => match m w with
           | (inl err, w') => handler err w'
           | r => r
           end.

Definition emit (e : Event) : M unit :=
  fun w => (inr tt, mkWorld (cache w) (statusBarItem w) (log w ++ [e])%list).

Definition setStatusBar (t tip : string) : M unit :=
  fun w => (inr tt, mkWorld (cache w) (mkStatusBarItem t tip) (log w)).

Definition withCache {A} (f : ContributorCache -> A * ContributorCache) : M A :=
  fun w => let (a, c) := f (cache w) in
           (inr a, mkWorld c (statusBarItem w) (log w)).

Notation "x <- m ;; k" := (bind m (fun x => k))
  (at level 61, m at next level, right associativity).
Notation "m ;;; k" := (bind m (fun _ => k))
  (at level 61, right associativity).

Section Request.
Variable env : Env.

(** *** GitRunner *)
Definition gitIsInGitRepository (filePath : string) : M bool :=
  emit (GitRevParse filePath) ;;; ret (isInGitRepository env filePath).

Definition gitIsFileTracked (filePath : string) : M bool :=
  emit (GitLsFiles filePath) ;;; ret (isFileTracked env filePath).

Definition gitIsFileModified (filePath : string) : M bool :=
  emit (GitStatus filePath) ;;; ret (isFileModified env filePath).

Definition gitGetBlame (filePath : string) (contents : option string)
  : M string :=
  emit (GitBlame filePath contents) ;;;
  match getBlame env filePath contents with
  | inr stdout => ret stdout
  | inl msg => throw msg
  end.

(** *** BlameParser.getBlameData *)
Definition createTempFile (content : string) : M unit :=
  emit (WriteTempFile content) ;;;
  match writeFileSync env content with
  | None => ret tt
  | Some msg => throw msg
  end.

(** The [try] block and its [finally]: the temporary file, once
    written, is unlinked on both exits. *)
Definition getBlameData (filePath fileContent : string)
  : M (list BlameLineData) :=
  isTracked <- gitIsFileTracked filePath ;;
  isModified <- gitIsFileModified filePath ;;
  if negb isTracked || isModified then
    createTempFile fileContent ;;;
    tryCatch
      (blameOutput <- gitGetBlame filePath (Some fileContent) ;;
       emit UnlinkTempFile ;;;
       ret (parseBlameOutput blameOutput fileContent))
      (fun err => emit UnlinkTempFile ;;; throw err)
  else
    blameOutput <- gitGetBlame filePath None ;;
    ret (parseBlameOutput blameOutput fileContent).

(** *** updateStatusBar *)
Definition tooltipLine (c : ContributorMetrics) : string :=
  author c ++ ": " ++ numberToString (percentage c) ++ "% ("
  ++ numberToString (lines c) ++ " lines)".

Definition updateStatusBar (contributors : list ContributorMetrics)
  : M unit :=
  match contributors with
  | [] => setStatusBar "Top: No data" "No contribution data available"
  | topContributor :: _ =>
      let totalLines := fold_left (fun sum c => sum + lines c) contributors 0 in
      setStatusBar
        ("Top: " ++ author topContributor ++ " ("
         ++ numberToString (percentage topContributor) ++ "%)")
        (join (String newline "")
           (List.app (List.map tooltipLine (firstn 3 contributors))
                     ["Total: " ++ numberToString totalLines ++ " lines"]))
  end.

(** *** updateContributors
    [fileSizeKB > maxSizeKB] compares [byteLength / 1024] with the
    limit; the division by 1024 is exact, so for an integer limit the
    test is [1024 * maxSizeKB < byteLength], and
    [Math.round(fileSizeKB)] is [(byteLength + 512) / 1024]. *)
Definition updateContributors (editor : Editor) : M unit :=
  tryCatch
    (let filePath := fsPath editor in
     let fileContent := getText editor in
     let maxSizeKB := maxFileSizeKB env in
     let bytes := byteLength fileContent in
     if 1024 * maxSizeKB <? bytes then
       setStatusBar "Top: File too large"
         ("File size (" ++ numberToString ((bytes + 512) / 1024)
          ++ "KB) exceeds limit (" ++ numberToString maxSizeKB ++ "KB)")
     else
       isInRepo <- gitIsInGitRepository filePath ;;
       if negb isInRepo then
         setStatusBar "Top: No Git" "File is not in a Git repository"
       else
         let cacheKey := getCacheKey (statSync env) filePath fileContent in
         cachedResult <- withCache (Cache.get (nowAtGet env) cacheKey) ;;
         match cachedResult with
         | Some cached => updateStatusBar cached
         | None =>
             blameData <- getBlameData filePath fileContent ;;
             let contributors :=
               calculateContributions (metricsConfig env) blameData in
             withCache (fun c =>
               (tt, Cache.set (nowAtSet env) cacheKey contributors defaultTTL c)) ;;;
             updateStatusBar contributors
         end)
    (fun err =>
       emit (ConsoleError "Error updating contributors:") ;;;
       setStatusBar "Top: Error" ("Error: " ++ err)).

(** *** handleDocumentSave
    Nothing is done unless there is an active editor and the document
    saved is its document. *)
Definition handleDocumentSave (document : TextDocument) : M unit :=
  match activeTextEditor env with
  | Some activeEditor =>
      if isDocumentOf document activeEditor then
        withCache (fun c =>
          (tt, Cache.invalidate (documentPath document) c)) ;;;
        updateContributors activeEditor
      else ret tt
  | None => ret tt
  end.

(** *** showContributors *)
Definition quickPickItem (c : ContributorMetrics) : string * string :=
  (author c,
   numberToString (percentage c) ++ "% (" ++ numberToString (lines c)
   ++ " lines)").

Definition navigateTo (filePath fileContent label : string) : M unit :=
  tryCatch
    (blameData <- getBlameData filePath fileContent ;;
     match List.find (fun b => String.eqb (BlameParser.author b) label)
                     blameData with
     | Some m => emit (RevealLine (Z.max 0 (lineNumber m - 1)))
     | None => emit (ShowInformationMessage ("No lines found for " ++ label))
     end)
    (fun err =>
       emit (ShowErrorMessage
               ("Failed to navigate to contributor lines: " ++ err))).

Definition showContributors : M unit :=
  tryCatch
    (match activeTextEditor env with
     | None => emit (ShowInformationMessage "No active file")
     | Some activeEditor =>
         let filePath := fsPath activeEditor in
         let fileContent := getText activeEditor in
         isInRepo <- gitIsInGitRepository filePath ;;
         if negb isInRepo then
           emit (ShowInformationMessage "File is not in a Git repository")
         else
           let cacheKey := getCacheKey (statSync env) filePath fileContent in
           cached <- withCache (Cache.get (nowAtGet env) cacheKey) ;;
           contributors <-
             match cached with
             | Some c => ret c
             | None =>
                 blameData <- getBlameData filePath fileContent ;;
                 let cs := calculateContributions (metricsConfig env) blameData in
                 withCache (fun c =>
                   (tt, Cache.set (nowAtSet env) cacheKey cs defaultTTL c)) ;;;
                 ret cs
             end ;;
           match contributors with
           | [] => emit (ShowInformationMessage "No contribution data available")
           | _ =>
               let items := List.map quickPickItem contributors in
               emit (ShowQuickPick items) ;;;
               match showQuickPick env items with
               | Some label => navigateTo filePath fileContent label
               | None => ret tt
               end
           end
     end)
    (fun err =>
       emit (ConsoleError "Error showing contributors:") ;;;
       emit (ShowErrorMessage ("Error: " ++ err))).
End Request.

(** The state at activation: an empty cache, a status bar item just
    created and nothing done yet. *)
Definition initialWorld : World :=
  mkWorld JSMap.empty (mkStatusBarItem "" "") [].

End Extension.

(* ===================================================================== *)
(** ** Activation and the debounce timer (src/extension.ts) *)
(* ===================================================================== *)

Module Session.
Import JS Cache Extension.

(** The dash of the idle status bar text, U+2014.  It is the one code
    unit of the sources outside Latin-1; it stands here as the three
    bytes of its UTF-8 form. *)
Definition emDash : string :=
  String (ascii_of_nat 226) (String (ascii_of_nat 128)
    (String (ascii_of_nat 148) "")).

(** A timer set by [setTimeout] and neither run nor cleared yet: its
    handle, the time from which it may run, and the editor its callback
    holds. *)
Record Timer := mkTimer {
  handle : Z;
  due : Z;
  editorOf : option Editor
}.

(** The module-level variables, the timers of the event loop and the
    next handle [setTimeout] returns. *)
Record State := mkState {
  world : World;
  debounceTimer : option Z;
  timers : list Timer;
  nextHandle : Z
}.

Definition clearTimeout (h : Z) (ts : list Timer) : list Timer :=
  List.filter (fun t => negb (handle t =? h)) ts.

(** [handleEditorChange(editor)], called at the time [now]. *)
Definition handleEditorChange (now : Z) (editor : option Editor) (s : State)
  : State :=
  let pending :=
    match debounceTimer s with
    | Some h => clearTimeout h (timers s)
    | None => timers s
    end in
  mkState (world s) (Some (nextHandle s))
          (List.app pending [mkTimer (nextHandle s) (now + 300) editor])
          (nextHandle s + 1).

(** The callback handed to [setTimeout]. *)
Definition debounced (env : Env) (editor : option Editor) : M unit :=
  match editor with
  | Some e => updateContributors env e
  | None => setStatusBar ("Top: " ++ emDash) "No active file"
  end.

(** The event loop, at the time [now]: the first timer that is due, if
    any, is taken off and its callback is run. *)
Definition runTimer (env : Env) (now : Z) (s : State) : State :=
  match List.find (fun t => due t <=? now) (timers s) with
  | Some t =>
      mkState (snd (debounced env (editorOf t) (world s)))
              (debounceTimer s)
              (clearTimeout (handle t) (timers s))
              (nextHandle s)
  | None => s
  end.

(** The listener of [onDidSaveTextDocument]:
    [handleDocumentSave(document)]. *)
Definition saved (env : Env) (document : TextDocument) (s : State) : State :=
  mkState (snd (Extension.handleDocumentSave env document (world s)))
          (debounceTimer s) (timers s) (nextHandle s).

(** The command [topContributor.showContributors]. *)
Definition commanded (env : Env) (s : State) : State :=
  mkState (snd (showContributors env (world s)))
          (debounceTimer s) (timers s) (nextHandle s).

Definition deactivate (s : State) : State :=
  match debounceTimer s with
  | Some h =>
      mkState (world s) (debounceTimer s) (clearTimeout h (timers s))
              (nextHandle s)
  | None => s
  end.

(** [activate(context)], at the time [now], with
    [vscode.window.activeTextEditor] as given. *)
Definition activate (now : Z) (activeTextEditor : option Editor) : State :=
  let s :=
    mkState (mkWorld JSMap.empty
               (mkStatusBarItem ("Top: " ++ emDash)
                                "Click to see all contributors")
               [])
            None [] 0 in
  match activeTextEditor with
  | Some editor => handleEditorChange now (Some editor) s
  | None => s
  end.

End Session.

(* ===================================================================== *)
(** * Properties *)
(* ===================================================================== *)

(** ** Strings *)

Module JSFacts.
Import JS.

Lemma truthy_true_iff (s : string) : truthy s = true <-> s <> "".
Proof. destruct s; simpl; split; congruence. Qed.

(** [trimStart] leaves nothing or a string that starts with a character
    that is not white space. *)
Lemma trimStart_head (s : string) :
  trimStart s = "" \/
  exists c r, trimStart s = String c r /\ isWhitespace c = false.
Proof.
  induction s as [|c r IH]; simpl; [now left|].
  destruct (isWhitespace c) eqn:E; [exact IH|].
  right. now exists c, r.
Qed.

Lemma trimEnd_idempotent (s : string) : trimEnd (trimEnd s) = trimEnd s.
Proof.
  induction s as [|c r IH]; simpl; [reflexivity|].
  destruct (trimEnd r) as [|c' r'] eqn:E.
  - destruct (isWhitespace c) eqn:W; simpl; [reflexivity|].
    now rewrite W.
  - simpl in IH |- *. now rewrite IH.
Qed.

Lemma trimEnd_head (c : ascii) (r : string) :
  isWhitespace c = false -> exists r', trimEnd (String c r) = String c r'.
Proof.
  intros W. simpl. destruct (trimEnd r) as [|c' r'].
  - rewrite W. now exists "".
  - now exists (String c' r').
Qed.

Lemma trim_idempotent (s : string) : trim (trim s) = trim s.
Proof.
  unfold trim.
  destruct (trimStart_head s) as [E | (c & r & E & W)]; rewrite E.
  - reflexivity.
  - destruct (trimEnd_head c r W) as [r' E'].
    rewrite E'. simpl trimStart. rewrite W, <- E'.
    apply trimEnd_idempotent.
Qed.

Lemma startsWith_append (p s : string) : startsWith (p ++ s) p = true.
Proof.
  induction p as [|c p IH]; simpl; [reflexivity|].
  now rewrite Ascii.eqb_refl.
Qed.


Lemma append_not_empty (a b : string) : b <> "" -> a ++ b <> "".
Proof. destruct a; simpl; [auto | discriminate]. Qed.

End JSFacts.

(** ** The parser *)

Module ParserFacts.
Import JS JSFacts BlameParser.

(** The number of lines of the file content, [fileLines.length]. *)
Definition fileLineCount (fileContent : string) : Z :=
  Z.of_nat (List.length (split newline fileContent)).

(** What every record of the parser satisfies. *)
Definition wellFormed (nFileLines : Z) (r : BlameLineData) : Prop :=
  author r <> "" /\ trim (author r) = author r /\
  1 <= lineNumber r <= nFileLines.

Lemma normalizeAuthor_nonempty (a : string) : normalizeAuthor a <> "".
Proof.
  unfold normalizeAuthor.
  destruct (truthy (trim a)) eqn:T; simpl; [|discriminate].
  destruct (_ || _); [discriminate|].
  now apply truthy_true_iff.
Qed.

Lemma normalizeAuthor_trimmed (a : string) :
  trim (normalizeAuthor a) = normalizeAuthor a.
Proof.
  unfold normalizeAuthor.
  destruct (truthy (trim a)); simpl; [|reflexivity].
  destruct (_ || _); [reflexivity|].
  apply trim_idempotent.
Qed.

(** The record a content line pushes when it is accepted. *)
Definition pushed (st : ParseState) (line : string) : BlameLineData :=
  mkBlameLineData (normalizeAuthor (currentAuthor st))
                  (match currentLineNumber st with Some n => n | None => 0 end)
                  (substringFrom 1 line).

Lemma accepts_spec (st : ParseState) (n : Z) :
  accepts st n = true <->
  currentAuthor st <> "" /\
  exists k, currentLineNumber st = Some k /\ 0 < k <= n.
Proof.
  unfold accepts. rewrite andb_true_iff, truthy_true_iff.
  destruct (currentLineNumber st) as [k|].
  - rewrite andb_true_iff, Z.ltb_lt, Z.leb_le. split.
    + intros [A B]. split; [exact A|]. now exists k.
    + intros [A (k' & E & B)]. injection E as <-. now split.
  - split; [intros [_ F]; discriminate | intros [_ (k & E & _)]; discriminate].
Qed.

(** One iteration either leaves [result] alone or pushes [pushed], and
    pushes only when the guard [accepts] holds. *)
Lemma step_result (n : Z) (st : ParseState) (line : string) :
  result (step n st line) = result st \/
  (accepts st n = true /\
   result (step n st line) = (result st ++ [pushed st line])%list).
Proof.
  unfold step.
  destruct (negb (truthy (trim line))); [now left|].
  destruct (hexPrefix 40 line); [now left|].
  destruct (startsWith line "author "); [now left|].
  destruct (startsWith line "author-mail ").
  { destruct (negb (truthy (currentAuthor st))); now left. }
  destruct (existsb (startsWith line) skippedKeys); [now left|].
  destruct (startsWith line (String tab "")); [|now left].
  cbn [result].
  destruct (accepts st n) eqn:A; [|now left].
  right. split; [reflexivity|].
  unfold pushed. apply accepts_spec in A.
  destruct A as [_ (k & -> & _)]. reflexivity.
Qed.

Lemma pushed_wellFormed (n : Z) (st : ParseState) (line : string) :
  accepts st n = true -> wellFormed n (pushed st line).
Proof.
  intros A. apply accepts_spec in A. destruct A as [_ (k & E & B)].
  unfold wellFormed, pushed. cbn [author lineNumber]. rewrite E.
  split; [apply normalizeAuthor_nonempty|].
  split; [apply normalizeAuthor_trimmed | lia].
Qed.

Lemma loop_wellFormed (n : Z) (lines : list string) (st : ParseState) :
  Forall (wellFormed n) (result st) ->
  Forall (wellFormed n) (result (fold_left (step n) lines st)).
Proof.
  revert st. induction lines as [|line lines IH]; intros st H; [exact H|].
  cbn [fold_left]. apply IH.
  destruct (step_result n st line) as [-> | [A ->]]; [exact H|].
  apply Forall_app. split; [exact H|].
  constructor; [now apply pushed_wellFormed | constructor].
Qed.

Lemma parseLoop_wellFormed (blameOutput fileContent : string) :
  Forall (wellFormed (fileLineCount fileContent))
         (parseLoop blameOutput fileContent).
Proof. unfold parseLoop. apply loop_wellFormed. constructor. Qed.

(** The fallback loop, by position. *)
Lemma uncommittedFrom_map (i : nat) (fileLines : list string) :
  uncommittedFrom (Z.of_nat i) fileLines =
  List.map (fun p => mkBlameLineData uncommittedLabel (Z.of_nat (fst p) + 1) (snd p))
           (combine (seq i (List.length fileLines)) fileLines).
Proof.
  revert i. induction fileLines as [|l r IH]; intros i; [reflexivity|].
  cbn [uncommittedFrom List.length seq combine List.map fst snd].
  f_equal. replace (Z.of_nat i + 1) with (Z.of_nat (S i)) by lia.
  apply IH.
Qed.

Lemma uncommittedFrom_length (i : Z) (fileLines : list string) :
  List.length (uncommittedFrom i fileLines) = List.length fileLines.
Proof.
  revert i. induction fileLines as [|l r IH]; intros i; simpl; [reflexivity|].
  now rewrite IH.
Qed.

Lemma uncommittedFrom_wellFormed (i n : Z) (fileLines : list string) :
  0 <= i -> i + Z.of_nat (List.length fileLines) <= n ->
  Forall (wellFormed n) (uncommittedFrom i fileLines).
Proof.
  revert i. induction fileLines as [|l r IH]; intros i Hi Hn; simpl.
  - constructor.
  - constructor.
    + unfold wellFormed. cbn [author lineNumber].
      split; [discriminate|]. split; [reflexivity|].
      cbn [List.length] in Hn. lia.
    + apply IH; [lia|]. cbn [List.length] in Hn. lia.
Qed.

(** *** C10 *)

(** C10. Every record the parser returns, from a blame block or from the
    fallback for a file without history, has a non-empty author without
    surrounding white space and a line number between 1 and the number
    of lines of the file content. *)
Theorem parseBlameOutput_wellFormed (blameOutput fileContent : string) :
  Forall (wellFormed (fileLineCount fileContent))
         (parseBlameOutput blameOutput fileContent).
Proof.
  unfold parseBlameOutput.
  destruct (_ && _).
  - apply Forall_app. split; [apply parseLoop_wellFormed|].
    apply uncommittedFrom_wellFormed; [lia|]. unfold fileLineCount. lia.
  - apply parseLoop_wellFormed.
Qed.

(** *** C4 *)

(** C4. When the loop over the blame output pushes no record and the file
    content is not white space only, the parser returns one record per
    line of the content, in order: record [i] (from 0) holds line [i],
    the number [i + 1] and the label for uncommitted lines; there are as
    many records as lines. *)
Theorem parseBlameOutput_fallback (blameOutput fileContent : string) :
  parseLoop blameOutput fileContent = [] ->
  trim fileContent <> "" ->
  let fileLines := split newline fileContent in
  parseBlameOutput blameOutput fileContent =
    List.map (fun p => mkBlameLineData uncommittedLabel
                                       (Z.of_nat (fst p) + 1) (snd p))
             (combine (seq 0 (List.length fileLines)) fileLines)
  /\ List.length (parseBlameOutput blameOutput fileContent)
     = List.length fileLines.
Proof.
  intros L T fileLines. unfold parseBlameOutput. rewrite L.
  apply truthy_true_iff in T. rewrite T. cbn [List.length Nat.eqb andb app].
  split.
  - apply (uncommittedFrom_map 0).
  - apply uncommittedFrom_length.
Qed.

End ParserFacts.

(** ** Sample inputs *)

Module Samples.
Import JS BlameParser.

Definition nl : string := String newline "".

(** A 40-character revision identifier. *)
Definition revision (c : ascii) : string :=
  string_of_list_ascii (repeat c 40).

(** The header and metadata lines of one block of
    [git blame --line-porcelain]. *)
Definition blockHead (rev : ascii) (lineNo : Z) (name : string) : string :=
  revision rev ++ " " ++ numberToString lineNo ++ " "
  ++ numberToString lineNo ++ " 1" ++ nl
  ++ "author " ++ name ++ nl
  ++ "author-mail <" ++ name ++ "@example.com>" ++ nl
  ++ "author-time 1700000000" ++ nl
  ++ "author-tz +0000" ++ nl
  ++ "committer " ++ name ++ nl
  ++ "committer-mail <" ++ name ++ "@example.com>" ++ nl
  ++ "committer-time 1700000000" ++ nl
  ++ "committer-tz +0000" ++ nl
  ++ "summary change" ++ nl
  ++ "filename a.txt" ++ nl.

(** The content line of a block: a tab, then the line. *)
Definition contentLine (content : string) : string :=
  String tab content.

Definition block (rev : ascii) (lineNo : Z) (name content : string) : string :=
  blockHead rev lineNo name ++ contentLine content ++ nl.

(** A file of three lines, the second one empty, and its blame output. *)
Definition threeLines : string := "a" ++ nl ++ nl ++ "b".

Definition threeLinesBlame : string :=
  block "1" 1 "Alice" "a" ++ block "2" 2 "Alice" "" ++ block "3" 3 "Bob" "b".

End Samples.

Module ParserRuns.
Import JS JSFacts BlameParser ParserFacts Samples.

Lemma parseBlameOutput_fallback_witness :
  parseBlameOutput "" threeLines =
    [ mkBlameLineData uncommittedLabel 1 "a";
      mkBlameLineData uncommittedLabel 2 "";
      mkBlameLineData uncommittedLabel 3 "b" ]
  /\ List.length (parseBlameOutput "" threeLines) = 3%nat.
Proof.
  exact (parseBlameOutput_fallback "" threeLines eq_refl
           ltac:(vm_compute; discriminate)).
Defined.

(** A content line that is not blank reaches the guard: it is pushed
    when the guard holds and dropped otherwise, and in both cases the
    author and the line number are reset. *)
Lemma step_content_line (n : Z) (st : ParseState) (line : string) :
  truthy (trim line) = true ->
  startsWith line (String tab "") = true ->
  step n st line =
    mkParseState (currentCommit st) "" (Some 0) (lineIndex st + 1)
      (if accepts st n then (result st ++ [pushed st line])%list
       else result st).
Proof.
  intros T S.
  destruct line as [|c r]; [discriminate|].
  cbn [startsWith] in S. apply andb_true_iff in S. destruct S as [S _].
  apply Ascii.eqb_eq in S. subst c.
  unfold step. rewrite T. cbn [negb].
  change (hexPrefix 40 (String tab r)) with false.
  change (startsWith (String tab r) "author ") with false.
  change (startsWith (String tab r) "author-mail ") with false.
  change (existsb (startsWith (String tab r)) skippedKeys) with false.
  change (startsWith (String tab r) (String tab "")) with true.
  cbv iota. f_equal.
  destruct (accepts st n) eqn:A; [|reflexivity].
  apply accepts_spec in A. destruct A as [_ (k & E & _)].
  unfold pushed. rewrite E. reflexivity.
Qed.

(** A non-blank content line is pushed exactly when the tracked author is
    not empty and the tracked line number is a positive integer that does
    not exceed the number of lines of the file content; otherwise nothing
    is pushed.  Either way the tracked author and line number are reset,
    to the empty string and to 0. *)
Lemma content_line_accepted_iff (n : Z) (st : ParseState) (line : string) :
  truthy (trim line) = true ->
  startsWith line (String tab "") = true ->
  (result (step n st line) = (result st ++ [pushed st line])%list <->
   currentAuthor st <> "" /\
   exists k, currentLineNumber st = Some k /\ 0 < k <= n)
  /\ (result (step n st line) = (result st ++ [pushed st line])%list \/
      result (step n st line) = result st)
  /\ currentAuthor (step n st line) = ""
  /\ currentLineNumber (step n st line) = Some 0.
Proof.
  intros T S. rewrite (step_content_line n st line T S).
  cbn [result currentAuthor currentLineNumber].
  split; [|split; [|split; reflexivity]].
  - rewrite <- accepts_spec.
    destruct (accepts st n); split; try reflexivity; try discriminate.
    intros H. assert (L := f_equal (@List.length _) H).
    rewrite length_app in L. cbn [List.length] in L. lia.
  - destruct (accepts st n); [now left | now right].
Qed.

Lemma content_line_accepted_iff_witness :
  let st := mkParseState (revision "1") "Alice" (Some 1) 0 [] in
  (result (step 1 st (contentLine "hello world"))
     = (result st ++ [pushed st (contentLine "hello world")])%list <->
   currentAuthor st <> "" /\
   exists k, currentLineNumber st = Some k /\ 0 < k <= 1)
  /\ (result (step 1 st (contentLine "hello world"))
        = (result st ++ [pushed st (contentLine "hello world")])%list \/
      result (step 1 st (contentLine "hello world")) = result st)
  /\ currentAuthor (step 1 st (contentLine "hello world")) = ""
  /\ currentLineNumber (step 1 st (contentLine "hello world")) = Some 0.
Proof.
  exact (content_line_accepted_iff 1
           (mkParseState (revision "1") "Alice" (Some 1) 0 [])
           (contentLine "hello world") eq_refl eq_refl).
Defined.

(** The state of the loop when it reaches the content line of the second
    block of [threeLinesBlame]. *)
Definition beforeBlankLine : ParseState :=
  fold_left (step 3)
    (split newline (block "1" 1 "Alice" "a" ++ blockHead "2" 2 "Alice"))
    initialState.

(** C1. On a file of three lines whose second line is empty, the content
    line of the second block is a tab alone.  The loop reaches it with
    author "Alice" and line number 2 of 3, so the guard holds; but the
    line is skipped as blank before the guard is read: the state is left
    as it was, and the parser returns lines 1 and 3 only. *)
Theorem blank_content_line_dropped :
  currentAuthor beforeBlankLine = "Alice"
  /\ currentLineNumber beforeBlankLine = Some 2
  /\ accepts beforeBlankLine (fileLineCount threeLines) = true
  /\ step 3 beforeBlankLine (contentLine "") = beforeBlankLine
  /\ parseBlameOutput threeLinesBlame threeLines =
       [ mkBlameLineData "Alice" 1 "a"; mkBlameLineData "Bob" 3 "b" ].
Proof. vm_compute. repeat split; reflexivity. Qed.

End ParserRuns.

(** ** The aggregator *)

Module MetricsFacts.
Import JS BlameParser Metrics.

(** The sum of a list of integers. *)
Definition sumZ (l : list Z) : Z := fold_right Z.add 0 l.

(** The count the ranking goes by: [characters] in the mode
    ["characters"], [lines] in every other. *)
Definition countValue (cfg : Config) (c : ContributorMetrics) : Z :=
  if isCharacters cfg then characters c else lines c.

(** The nearest integer to [100 * countValue / totalValue], a tie going
    up: what [Math.round] gives on the exact quotient. *)
Definition exactPercentage (countValue totalValue : Z) : Z :=
  (200 * countValue + totalValue) / (2 * totalValue).

(** The lines of the input with a blank content. *)
Definition blankLines (blameData : list BlameLineData) : list BlameLineData :=
  List.filter (fun l => isBlankLine (content l)) blameData.

(** The lines the grouping loop does not skip. *)
Definition counted (cfg : Config) (blameData : list BlameLineData)
  : list BlameLineData :=
  List.filter (fun l => negb (ignoreBlankLines cfg && isBlankLine (content l)))
              blameData.

Lemma sumZ_app (a b : list Z) : sumZ (a ++ b) = sumZ a + sumZ b.
Proof. induction a as [|x a IH]; simpl; [reflexivity | rewrite IH; lia]. Qed.

Lemma sumZ_perm (a b : list Z) : Permutation a b -> sumZ a = sumZ b.
Proof. induction 1; simpl; lia. Qed.

Lemma fold_left_add (f : Stats -> Z) (l : list Stats) (acc : Z) :
  fold_left (fun a st => a + f st) l acc = acc + sumZ (List.map f l).
Proof.
  revert acc. induction l as [|x l IH]; intros acc; simpl; [lia|].
  rewrite IH. lia.
Qed.

Lemma totalOf_sum (f : Stats -> Z) (m : JSMap.t Stats) :
  totalOf f m = sumZ (List.map f (JSMap.values m)).
Proof. unfold totalOf. rewrite fold_left_add. lia. Qed.

(** Writing a key changes the sum by the difference between the new value
    and the one read under that key. *)
Lemma sum_set (f : Stats -> Z) (k : string) (v : Stats) (m : JSMap.t Stats) :
  sumZ (List.map f (JSMap.values (JSMap.set k v m))) =
  sumZ (List.map f (JSMap.values m)) + f v
  - match JSMap.get k m with Some e => f e | None => 0 end.
Proof.
  unfold JSMap.values.
  induction m as [|[k' v'] m IH]; cbn [JSMap.set JSMap.get]; [simpl; lia|].
  destruct (String.eqb k' k); cbn [List.map snd sumZ fold_right]; [lia|].
  fold (sumZ (List.map f (List.map snd (JSMap.set k v m)))).
  fold (sumZ (List.map f (List.map snd m))).
  rewrite IH. lia.
Qed.

Lemma addLine_lines (cfg : Config) (m : JSMap.t Stats) (l : BlameLineData) :
  sumZ (List.map s_lines (JSMap.values (addLine cfg m l))) =
  sumZ (List.map s_lines (JSMap.values m))
  + Z.of_nat (List.length (counted cfg [l])).
Proof.
  unfold addLine, counted. cbn [List.filter].
  destruct (ignoreBlankLines cfg && isBlankLine (content l)); cbn [negb List.length].
  - lia.
  - rewrite sum_set. cbn [s_lines].
    destruct (JSMap.get (BlameParser.author l) m); cbn [s_lines]; lia.
Qed.

Lemma group_lines (cfg : Config) (d : list BlameLineData) (m : JSMap.t Stats) :
  sumZ (List.map s_lines (JSMap.values (fold_left (addLine cfg) d m))) =
  sumZ (List.map s_lines (JSMap.values m))
  + Z.of_nat (List.length (counted cfg d)).
Proof.
  revert m. induction d as [|l d IH]; intros m; [simpl; lia|].
  cbn [fold_left]. rewrite IH, addLine_lines.
  change (l :: d) with ([l] ++ d)%list.
  unfold counted. rewrite filter_app, length_app. lia.
Qed.

(** *** The stable sort *)

Section SortFacts.
Context {A : Type} (key : A -> Z).

(** Descending order of [key]. *)
Definition descending (a b : A) : Prop := key b <= key a.

Let cmp (a b : A) : Z := key b - key a.

Lemma insert_perm (x : A) (l : list A) : Permutation (insert cmp x l) (x :: l).
Proof.
  induction l as [|y r IH]; simpl; [reflexivity|].
  destruct (cmp y x <? 0); [|reflexivity].
  rewrite IH. apply perm_swap.
Qed.

Lemma sort_perm (l : list A) : Permutation (sort cmp l) l.
Proof.
  induction l as [|x l IH]; simpl; [reflexivity|].
  rewrite insert_perm. now constructor.
Qed.

Lemma insert_sorted (x : A) (l : list A) :
  StronglySorted descending l -> StronglySorted descending (insert cmp x l).
Proof.
  induction 1 as [|y r S IH F]; simpl.
  - repeat constructor.
  - destruct (cmp y x <? 0) eqn:E.
    + apply Z.ltb_lt in E. constructor; [exact IH|].
      apply (Permutation_Forall (Permutation_sym (insert_perm x r))).
      constructor; [unfold descending, cmp in *; lia | exact F].
    + apply Z.ltb_ge in E. constructor; [now constructor|].
      constructor; [unfold descending, cmp in *; lia|].
      eapply Forall_impl; [|exact F].
      unfold descending, cmp in *. intros; lia.
Qed.

Lemma sort_sorted (l : list A) : StronglySorted descending (sort cmp l).
Proof.
  induction l as [|x l IH]; simpl; [constructor|].
  now apply insert_sorted.
Qed.
End SortFacts.

Lemma compareFn_key (cfg : Config) (a b : ContributorMetrics) :
  compareFn cfg a b = countValue cfg b - countValue cfg a.
Proof. unfold compareFn, countValue. now destruct (isCharacters cfg). Qed.

Lemma sort_compareFn (cfg : Config) (l : list ContributorMetrics) :
  sort (compareFn cfg) l = sort (fun a b => countValue cfg b - countValue cfg a) l.
Proof.
  induction l as [|x l IH]; simpl; [reflexivity|]. rewrite IH.
  generalize (sort (fun a b => countValue cfg b - countValue cfg a) l).
  induction l0 as [|y r IHr]; simpl; [reflexivity|].
  rewrite compareFn_key, IHr. reflexivity.
Qed.

Lemma calculateContributions_perm (cfg : Config) (d : list BlameLineData) :
  d <> [] ->
  Permutation
    (calculateContributions cfg d)
    (List.map (toMetric cfg (totalOf s_lines (groupByAuthor cfg d))
                        (totalOf s_characters (groupByAuthor cfg d)))
              (groupByAuthor cfg d)).
Proof.
  intros N. unfold calculateContributions.
  destruct d; [congruence|]. cbn [List.length Nat.eqb].
  rewrite sort_compareFn. apply sort_perm.
Qed.

Lemma lines_of_metrics (cfg : Config) (tl tc : Z) (m : JSMap.t Stats) :
  List.map lines (List.map (toMetric cfg tl tc) m) =
  List.map s_lines (JSMap.values m).
Proof.
  unfold JSMap.values. rewrite !map_map. reflexivity.
Qed.

Lemma lines_sum_counted (cfg : Config) (d : list BlameLineData) :
  sumZ (List.map lines (calculateContributions cfg d))
  = Z.of_nat (List.length (counted cfg d)).
Proof.
  destruct d as [|l d]; [reflexivity|].
  rewrite (sumZ_perm _ _
             (Permutation_map lines
                (calculateContributions_perm cfg (l :: d) ltac:(discriminate)))).
  rewrite lines_of_metrics. unfold groupByAuthor.
  rewrite group_lines. reflexivity.
Qed.

Lemma filter_negb_length {A : Type} (p : A -> bool) (l : list A) :
  Z.of_nat (List.length (List.filter (fun x => negb (p x)) l)) =
  Z.of_nat (List.length l) - Z.of_nat (List.length (List.filter p l)).
Proof.
  induction l as [|x l IH]; cbn [List.filter List.length]; [reflexivity|].
  destruct (p x); cbn [negb List.length]; lia.
Qed.

(** *** C5 *)

(** C5. The [lines] of the entries the aggregator returns add up to the
    number of input lines when [ignoreBlankLines] is off, and to that
    number less the number of lines with a blank content when it is on;
    the empty input gives the empty list. *)
Theorem lines_sum (cfg : Config) (blameData : list BlameLineData) :
  calculateContributions cfg [] = []
  /\ sumZ (List.map lines (calculateContributions cfg blameData)) =
       Z.of_nat (List.length blameData)
       - (if ignoreBlankLines cfg
          then Z.of_nat (List.length (blankLines blameData))
          else 0).
Proof.
  split; [reflexivity|].
  rewrite lines_sum_counted. unfold counted, blankLines.
  destruct (ignoreBlankLines cfg); cbn [andb].
  - apply filter_negb_length.
  - assert (E : forall l : list BlameLineData,
               List.filter (fun _ => true) l = l).
    { induction l as [|x l IH]; cbn [List.filter]; [|rewrite IH];
        reflexivity. }
    cbn [negb]. rewrite E. lia.
Qed.

End MetricsFacts.

(** ** The percentage, in binary64

    [percentageOf] divides and multiplies in binary64 and rounds the
    product.  The operations of the primitive floats are specified on
    [spec_float] (a sign, a mantissa and an exponent); the lemmas below
    follow a number through the rounding of [SFdiv] and [SFmul], all in
    integer arithmetic. *)

Module FloatFacts.
Import Metrics MetricsFacts.

(** *** Digits *)

Lemma digits2_pos_log2 (p : positive) :
  Zpos (digits2_pos p) = Z.log2 (Zpos p) + 1.
Proof.
  assert (S : forall q, digits2_pos q = Pos.size q).
  { induction q as [q IH|q IH|]; simpl; [now rewrite IH | now rewrite IH | reflexivity]. }
  destruct p as [q|q|]; simpl; rewrite ?S; try reflexivity; lia.
Qed.

Lemma Zdigits2_le (z j : Z) : 0 <= z < 2 ^ j -> 0 <= j -> Zdigits2 z <= j.
Proof.
  intros [L U] J. destruct z as [|p|p]; cbn [Zdigits2]; [exact J | | lia].
  rewrite digits2_pos_log2.
  assert (Z.log2 (Zpos p) < j) by (apply Z.log2_lt_pow2; lia). lia.
Qed.

Lemma Zdigits2_shift (p : positive) (j : Z) :
  0 <= j -> Zdigits2 (Zpos p * 2 ^ j) = Zdigits2 (Zpos p) + j.
Proof.
  intros J. assert (P : 0 < Zpos p * 2 ^ j) by (apply Z.mul_pos_pos; lia).
  destruct (Zpos p * 2 ^ j) as [|q|q] eqn:E; try lia.
  cbn [Zdigits2]. rewrite !digits2_pos_log2, <- E.
  rewrite Z.log2_mul_pow2 by lia. lia.
Qed.

Lemma Zdigits2_mono (a b : Z) : 0 < a <= b -> Zdigits2 a <= Zdigits2 b.
Proof.
  intros [A B]. destruct a as [|p|p]; try lia. destruct b as [|q|q]; try lia.
  cbn [Zdigits2]. rewrite !digits2_pos_log2.
  assert (Z.log2 (Zpos p) <= Z.log2 (Zpos q)) by (apply Z.log2_le_mono; lia).
  lia.
Qed.

(** *** Shifting right *)

Lemma iter_pos_nat {A : Type} (f : A -> A) (p : positive) (x : A) :
  iter_pos f p x = Nat.iter (Pos.to_nat p) f x.
Proof.
  revert x. induction p as [p IH|p IH|]; intros x; cbn [iter_pos].
  - rewrite !IH. rewrite Pos2Nat.inj_xI.
    replace (S (2 * Pos.to_nat p))%nat with (Pos.to_nat p + (Pos.to_nat p + 1))%nat by lia.
    rewrite !Nat.iter_add. reflexivity.
  - rewrite !IH. rewrite Pos2Nat.inj_xO.
    replace (2 * Pos.to_nat p)%nat with (Pos.to_nat p + Pos.to_nat p)%nat by lia.
    rewrite Nat.iter_add. reflexivity.
  - reflexivity.
Qed.

Lemma shr_1_spec (m : Z) (r s : bool) :
  0 <= m ->
  shr_1 (Build_shr_record m r s) = Build_shr_record (m / 2) (Z.odd m) (r || s).
Proof.
  intros M.
  assert (I : forall p, Z.pos p~1 / 2 = Z.pos p).
  { intros p. rewrite Pos2Z.inj_xI. symmetry.
    apply Z.div_unique with 1; lia. }
  assert (O : forall p, Z.pos p~0 / 2 = Z.pos p).
  { intros p. rewrite Pos2Z.inj_xO. symmetry.
    apply Z.div_unique with 0; lia. }
  destruct m as [|[p|p|]|p]; try lia; cbn [shr_1];
    rewrite ?I, ?O; reflexivity.
Qed.

Lemma shr_iter_spec (j : nat) (m : Z) (r s : bool) :
  0 <= m ->
  let R := Nat.iter j shr_1 (Build_shr_record m r s) in
  shr_m R = m / 2 ^ Z.of_nat j
  /\ (m mod 2 ^ Z.of_nat j = 0 -> r = false -> s = false ->
      shr_r R = false /\ shr_s R = false).
Proof.
  intros M. induction j as [|j IH].
  - simpl. rewrite Z.div_1_r. split; [reflexivity | intros _ -> ->; now split].
  - cbn zeta in *. rewrite Nat2Z.inj_succ, Z.pow_succ_r by lia.
    simpl Nat.iter. destruct IH as [Hm Hrs].
    destruct (Nat.iter j shr_1 (Build_shr_record m r s)) as [mj rj sj].
    cbn [shr_m shr_r shr_s] in *.
    assert (0 <= mj) by (subst mj; apply Z.div_pos; lia).
    rewrite shr_1_spec by assumption. cbn [shr_m shr_r shr_s].
    assert (P : 0 < 2 ^ Z.of_nat j) by (apply Z.pow_pos_nonneg; lia).
    split.
    + subst mj. rewrite Z.div_div by lia. f_equal. lia.
    + intros D -> ->.
      assert (D' : m mod 2 ^ Z.of_nat j = 0).
      { apply Z.mod_divide in D; [|lia]. apply Z.mod_divide; [lia|].
        destruct D as [q D]. exists (2 * q). lia. }
      destruct (Hrs D' eq_refl eq_refl) as [-> ->]. split; [|reflexivity].
      apply Z.mod_divide in D; [|lia]. destruct D as [q D].
      subst mj. rewrite D.
      replace (q * (2 * 2 ^ Z.of_nat j)) with ((q * 2) * 2 ^ Z.of_nat j) by lia.
      rewrite Z.div_mul by lia. rewrite Z.mul_comm. rewrite Z.odd_mul. reflexivity.
Qed.


Lemma shr_record_of_loc_fields (m : Z) (l : location) :
  exists r s, shr_record_of_loc m l = Build_shr_record m r s
              /\ (l = loc_Exact -> r = false /\ s = false).
Proof.
  destruct l as [|[]]; simpl; eexists; eexists; split; try reflexivity;
    try discriminate. now split.
Qed.

Lemma loc_of_shr_record_of_loc (m : Z) (l : location) :
  loc_of_shr_record (shr_record_of_loc m l) = l
  /\ shr_m (shr_record_of_loc m l) = m.
Proof. destruct l as [|[]]; split; reflexivity. Qed.

(** What [shr_fexp] returns: the mantissa shifted right by [n] places,
    with [n] chosen so that the exponent becomes the one the format
    gives to the number; when the bits shifted out are all zero an exact
    location stays exact. *)
Lemma shr_fexp_spec (m e : Z) (l : location) :
  0 <= m ->
  exists n,
    0 <= n
    /\ snd (shr_fexp prec emax m e l)
       = Z.max e (fexp prec emax (Zdigits2 m + e))
    /\ snd (shr_fexp prec emax m e l) = e + n
    /\ shr_m (fst (shr_fexp prec emax m e l)) = m / 2 ^ n
    /\ (m mod 2 ^ n = 0 -> l = loc_Exact ->
        loc_of_shr_record (fst (shr_fexp prec emax m e l)) = loc_Exact).
Proof.
  intros M. unfold shr_fexp, shr.
  destruct (fexp prec emax (Zdigits2 m + e) - e) as [|p|p] eqn:N.
  - exists 0. cbn [fst snd].
    destruct (loc_of_shr_record_of_loc m l) as [L Sm].
    rewrite L, Sm, Z.div_1_r.
    split; [lia|]. split; [lia|]. split; [lia|]. split; [reflexivity|]. auto.
  - exists (Zpos p). cbn [fst snd]. rewrite iter_pos_nat.
    destruct (shr_record_of_loc_fields m l) as (r & s & -> & X).
    destruct (shr_iter_spec (Pos.to_nat p) m r s M) as [Hm Hrs].
    rewrite positive_nat_Z in Hm, Hrs.
    split; [lia|]. split; [lia|]. split; [lia|]. split; [exact Hm|].
    intros D ->. destruct (X eq_refl) as [-> ->].
    destruct (Hrs D eq_refl eq_refl) as [A B].
    destruct (Nat.iter _ _ _) as [mm rr ss]. cbn in A, B. subst. reflexivity.
  - exists 0. cbn [fst snd].
    destruct (loc_of_shr_record_of_loc m l) as [L Sm].
    rewrite L, Sm, Z.div_1_r.
    split; [lia|]. split; [lia|]. split; [lia|]. split; [reflexivity|]. auto.
Qed.

(** *** Rounding below a bound *)

Section Bound.
Variables b k : Z.
Hypothesis Hb : 0 < b < 2 ^ 53.
Hypothesis Hk : -1074 <= k <= 971.

(** The number located by [(m, e, l)] is at most [b * 2^k]. *)
Definition below (m e : Z) (l : location) : Prop :=
  0 <= m /\ e <= k /\ m <= b * 2 ^ (k - e)
  /\ (m = b * 2 ^ (k - e) -> l = loc_Exact).

(** A float between zero and [b * 2^k]. *)
Definition upTo (f : spec_float) : Prop :=
  f = S754_zero false \/
  exists M E, f = S754_finite false M E /\ E <= k /\ Zpos M <= b * 2 ^ (k - E).

Lemma fexp_le (m e : Z) :
  0 <= m -> e <= k -> m <= b * 2 ^ (k - e) ->
  Z.max e (fexp prec emax (Zdigits2 m + e)) <= k.
Proof.
  intros M E B. unfold fexp, SpecFloat.emin, prec, emax.
  assert (D : Zdigits2 m <= 53 + (k - e)).
  { apply Zdigits2_le; [|lia]. split; [exact M|].
    rewrite Z.pow_add_r by lia.
    assert (0 < 2 ^ (k - e)) by (apply Z.pow_pos_nonneg; lia). nia. }
  lia.
Qed.

Lemma shr_fexp_below (m e : Z) (l : location) :
  below m e l ->
  below (shr_m (fst (shr_fexp prec emax m e l)))
        (snd (shr_fexp prec emax m e l))
        (loc_of_shr_record (fst (shr_fexp prec emax m e l))).
Proof.
  intros (M & E & B & X).
  destruct (shr_fexp_spec m e l M) as (n & N & E1 & E2 & Sm & L).
  pose proof (fexp_le m e M E B) as F. rewrite <- E1 in F.
  rewrite Sm, E2 in *. clear E1 E2 Sm.
  assert (P : 0 < 2 ^ n) by (apply Z.pow_pos_nonneg; lia).
  assert (S : b * 2 ^ (k - e) = b * 2 ^ (k - (e + n)) * 2 ^ n).
  { rewrite <- Z.mul_assoc, <- Z.pow_add_r by lia. do 2 f_equal. lia. }
  unfold below. split; [apply Z.div_pos; lia|]. split; [exact F|].
  split.
  - apply Z.div_le_upper_bound; [lia|]. lia.
  - intros Q. pose proof (Z.mul_div_le m (2 ^ n) P) as U.
    assert (Em : m = b * 2 ^ (k - e)) by nia.
    apply L; [|now apply X].
    rewrite Em, S. apply Z.mod_mul. lia.
Qed.

Lemma round_below (m e : Z) (l : location) :
  below m e l -> below (round_nearest_even m l) e loc_Exact.
Proof.
  intros (M & E & B & X). unfold below.
  assert (C : l = loc_Exact \/ m < b * 2 ^ (k - e)).
  { destruct (Z.eq_dec m (b * 2 ^ (k - e))) as [Q|Q]; [left; auto | right; lia]. }
  destruct l as [|[]]; cbn [round_nearest_even];
    try (destruct (Z.even m)); repeat split; try lia;
    destruct C as [C|C]; try discriminate; lia.
Qed.

Lemma binary_round_aux_below (m e : Z) (l : location) :
  below m e l -> upTo (binary_round_aux prec emax false m e l).
Proof.
  intros H. unfold binary_round_aux.
  pose proof (shr_fexp_below m e l H) as H1.
  destruct (shr_fexp prec emax m e l) as [mrs1 e1]. cbn [fst snd] in H1.
  pose proof (round_below _ _ _ H1) as H2.
  pose proof (shr_fexp_below _ _ _ H2) as H3.
  destruct (shr_fexp prec emax _ e1 loc_Exact) as [mrs2 e2].
  cbn [fst snd] in H3. destruct H3 as (M & E & B & _).
  destruct (shr_m mrs2) as [|p|p]; [now left | | lia].
  right. assert (L : (e2 <=? emax - prec) = true)
    by (apply Z.leb_le; unfold emax, prec; lia).
  rewrite L. now exists p, e2.
Qed.

(** The number located by [(m, e, l)] is [b * 2^k]. *)
Definition exactly (m e : Z) (l : location) : Prop :=
  e <= k /\ m = b * 2 ^ (k - e) /\ l = loc_Exact.

Lemma shr_fexp_exactly (m e : Z) (l : location) :
  exactly m e l ->
  exactly (shr_m (fst (shr_fexp prec emax m e l)))
          (snd (shr_fexp prec emax m e l))
          (loc_of_shr_record (fst (shr_fexp prec emax m e l))).
Proof.
  intros (E & Q & X).
  assert (P0 : 0 < 2 ^ (k - e)) by (apply Z.pow_pos_nonneg; lia).
  assert (M : 0 <= m) by nia.
  destruct (shr_fexp_spec m e l M) as (n & N & E1 & E2 & Sm & L).
  assert (B : m <= b * 2 ^ (k - e)) by lia.
  pose proof (fexp_le m e M E B) as F. rewrite <- E1 in F.
  rewrite Sm, E2 in *. clear E1 E2 Sm.
  assert (P : 0 < 2 ^ n) by (apply Z.pow_pos_nonneg; lia).
  assert (S : b * 2 ^ (k - e) = b * 2 ^ (k - (e + n)) * 2 ^ n).
  { rewrite <- Z.mul_assoc, <- Z.pow_add_r by lia. do 2 f_equal. lia. }
  unfold exactly. split; [exact F|]. split.
  - rewrite Q, S. apply Z.div_mul. lia.
  - apply L; [|exact X]. rewrite Q, S. apply Z.mod_mul. lia.
Qed.

Lemma binary_round_aux_exactly (m e : Z) (l : location) :
  exactly m e l ->
  exists M E,
    binary_round_aux prec emax false m e l = S754_finite false M E
    /\ E <= k /\ Zpos M = b * 2 ^ (k - E).
Proof.
  intros H. unfold binary_round_aux.
  pose proof (shr_fexp_exactly m e l H) as H1.
  destruct (shr_fexp prec emax m e l) as [mrs1 e1]. cbn [fst snd] in H1.
  destruct H1 as (E1 & Q1 & X1). rewrite X1. cbn [round_nearest_even].
  pose proof (shr_fexp_exactly (shr_m mrs1) e1 loc_Exact
                (conj E1 (conj Q1 eq_refl))) as H3.
  destruct (shr_fexp prec emax _ e1 loc_Exact) as [mrs2 e2].
  cbn [fst snd] in H3. destruct H3 as (E2 & Q2 & _).
  assert (P : 0 < 2 ^ (k - e2)) by (apply Z.pow_pos_nonneg; lia).
  destruct (shr_m mrs2) as [|p|p]; [nia | | nia].
  assert (L : (e2 <=? emax - prec) = true)
    by (apply Z.leb_le; unfold emax, prec; lia).
  rewrite L. now exists p, e2.
Qed.

End Bound.


(** *** Rounding between two bounds *)

Section Between.
Variables b1 k1 b2 k2 : Z.
Hypothesis Hb1 : 0 < b1.
Hypothesis Hb2 : 0 < b2 < 2 ^ 53.
Hypothesis Hk2 : -1074 <= k2 <= 971.
Hypothesis Hk : k2 <= k1.

(** The number located by [(m, e, l)] is at least [b1 * 2^k1]. *)
Definition above (m e : Z) : Prop := b1 * 2 ^ (k1 - e) <= m.

(** A float between [b1 * 2^k1] and [b2 * 2^k2]. *)
Definition within (f : spec_float) : Prop :=
  exists M E,
    f = S754_finite false M E /\ E <= k2
    /\ b1 * 2 ^ (k1 - E) <= Zpos M <= b2 * 2 ^ (k2 - E).

Lemma shr_fexp_above (m e : Z) (l : location) :
  below b2 k2 m e l -> above m e ->
  above (shr_m (fst (shr_fexp prec emax m e l)))
        (snd (shr_fexp prec emax m e l)).
Proof.
  intros (M & E & B & X) A. unfold above in *.
  destruct (shr_fexp_spec m e l M) as (n & N & E1 & E2 & Sm & L).
  pose proof (fexp_le b2 k2 Hb2 Hk2 m e M E B) as F. rewrite <- E1 in F.
  rewrite Sm, E2 in *. clear E1 E2 Sm.
  assert (P : 0 < 2 ^ n) by (apply Z.pow_pos_nonneg; lia).
  assert (S : b1 * 2 ^ (k1 - e) = b1 * 2 ^ (k1 - (e + n)) * 2 ^ n).
  { rewrite <- Z.mul_assoc, <- Z.pow_add_r by lia. do 2 f_equal; lia. }
  apply Z.div_le_lower_bound; [lia|]. lia.
Qed.

Lemma round_above (m e : Z) (l : location) :
  above m e -> above (round_nearest_even m l) e.
Proof.
  unfold above. intros A.
  destruct l as [|[]]; cbn [round_nearest_even];
    try (destruct (Z.even m)); lia.
Qed.

Lemma binary_round_aux_within (m e : Z) (l : location) :
  below b2 k2 m e l -> above m e ->
  within (binary_round_aux prec emax false m e l).
Proof.
  intros H A. unfold binary_round_aux.
  pose proof (shr_fexp_below b2 k2 Hb2 Hk2 m e l H) as H1.
  pose proof (shr_fexp_above m e l H A) as A1.
  destruct (shr_fexp prec emax m e l) as [mrs1 e1]. cbn [fst snd] in H1, A1.
  pose proof (round_below b2 k2 _ _ _ H1) as H2.
  pose proof (round_above _ _ (loc_of_shr_record mrs1) A1) as A2.
  pose proof (shr_fexp_below b2 k2 Hb2 Hk2 _ _ _ H2) as H3.
  pose proof (shr_fexp_above _ _ _ H2 A2) as A3.
  destruct (shr_fexp prec emax _ e1 loc_Exact) as [mrs2 e2].
  cbn [fst snd] in H3, A3. destruct H3 as (M & E & B & _).
  unfold above in A3.
  assert (P : 0 < 2 ^ (k1 - e2)) by (apply Z.pow_pos_nonneg; lia).
  destruct (shr_m mrs2) as [|p|p]; [nia | | lia].
  assert (L : (e2 <=? emax - prec) = true)
    by (apply Z.leb_le; unfold emax, prec; lia).
  rewrite L. exists p, e2. repeat split; assumption.
Qed.

End Between.

(** *** Integers as floats *)

(** An integer below 2^53 is a float: its mantissa is the integer shifted
    left. *)
Lemma binary_normalize_exact (z : Z) :
  0 < z < 2 ^ 53 ->
  exists M E,
    binary_normalize prec emax z 0 false = S754_finite false M E
    /\ E <= 0 /\ Zpos M = z * 2 ^ (0 - E).
Proof.
  intros [L U]. destruct z as [|p|p]; try lia.
  unfold binary_normalize, binary_round, shl_align.
  destruct (fexp prec emax (Z.pos (digits2_pos p) + 0) - 0) as [|d|d] eqn:N.
  - apply (binary_round_aux_exactly (Zpos p) 0); try lia.
    repeat split; lia.
  - apply (binary_round_aux_exactly (Zpos p) 0); try lia.
    repeat split; lia.
  - apply (binary_round_aux_exactly (Zpos p) 0); try lia.
    assert (F : fexp prec emax (Z.pos (digits2_pos p) + 0) = Zneg d) by lia.
    rewrite F. repeat split; try lia.
    change (Pos.iter xO p d) with (shift_pos d p).
    rewrite shift_pos_correct. change (0 - Z.neg d) with (Zpos d).
    change (2 ^ Zpos d) with (Z.pow_pos 2 d). lia.
Qed.

Lemma toNumber_spec (z : Z) :
  0 <= z < 2 ^ 63 ->
  Prim2SF (toNumber z) = binary_normalize prec emax z 0 false.
Proof.
  intros R. unfold toNumber.
  assert (E : binary_normalize prec emax z 0 false
              = Prim2SF (of_uint63 (Uint63.of_Z z))).
  { rewrite of_uint63_spec. rewrite <- Uint63.is_int; [reflexivity|].
    exact R. }
  rewrite E, SF2Prim_Prim2SF. reflexivity.
Qed.

(** *** The quotient of [c <= t] is at most one *)

Lemma new_location_zero (n : Z) : new_location n 0 = loc_Exact.
Proof.
  unfold new_location, new_location_even, new_location_odd.
  now destruct (Z.even n).
Qed.

Lemma SFdiv_le_one (c t : Z) :
  0 < c <= t -> t < 2 ^ 53 ->
  upTo 1 0 (SFdiv prec emax (binary_normalize prec emax c 0 false)
                            (binary_normalize prec emax t 0 false)).
Proof.
  intros [C CT] T.
  destruct (binary_normalize_exact c ltac:(lia)) as (Mc & Ec & -> & Ec0 & Qc).
  destruct (binary_normalize_exact t ltac:(lia)) as (Mt & Et & -> & Et0 & Qt).
  unfold SFdiv, SFdiv_core_binary. cbn [xorb].
  assert (Dc : Zdigits2 (Zpos Mc) + Ec = Zdigits2 c).
  { destruct c as [|pc|pc]; try lia. rewrite Qc, Zdigits2_shift by lia. lia. }
  assert (Dt : Zdigits2 (Zpos Mt) + Et = Zdigits2 t).
  { destruct t as [|pt|pt]; try lia. rewrite Qt, Zdigits2_shift by lia. lia. }
  pose proof (Zdigits2_mono c t ltac:(lia)) as Dm.
  rewrite Dc, Dt.
  set (e' := Z.min (fexp prec emax (Zdigits2 c - Zdigits2 t)) (Ec - Et)).
  assert (E1 : e' <= -53).
  { unfold e', fexp, SpecFloat.emin, prec, emax. lia. }
  assert (E2 : e' <= Ec - Et) by (unfold e'; lia).
  set (s := Ec - Et - e').
  assert (S0 : 0 <= s) by (unfold s; lia).
  set (m' := match s with
             | 0 => Z.pos Mc
             | Z.pos _ => Z.shiftl (Z.pos Mc) s
             | Z.neg _ => 0
             end).
  assert (Em : m' = Zpos Mc * 2 ^ s).
  { unfold m'. destruct s as [|ps|ps] eqn:Es; try lia.
    rewrite Z.shiftl_mul_pow2 by lia. reflexivity. }
  clearbody m'.
  pose proof (Z_div_mod m' (Zpos Mt) ltac:(lia)) as DM.
  destruct (Z.div_eucl m' (Z.pos Mt)) as [q r]. destruct DM as [DM R].
  apply binary_round_aux_below; try lia.
  set (W := 2 ^ (0 - Et - e')).
  assert (PW : 0 < W) by (apply Z.pow_pos_nonneg; lia).
  assert (A : m' = c * W).
  { rewrite Em, Qc. unfold W, s. rewrite <- Z.mul_assoc, <- Z.pow_add_r by lia.
    do 2 f_equal; lia. }
  assert (B : Zpos Mt * 2 ^ (0 - e') = t * W).
  { rewrite Qt. unfold W. rewrite <- Z.mul_assoc, <- Z.pow_add_r by lia.
    do 2 f_equal; lia. }
  assert (PG : 0 < 2 ^ (0 - e')) by (apply Z.pow_pos_nonneg; lia).
  assert (LE : m' <= Zpos Mt * 2 ^ (0 - e')) by (rewrite A, B; nia).
  unfold below. rewrite Z.mul_1_l.
  split; [nia|]. split; [lia|]. split; [nia|].
  intros Q. assert (r = 0) by nia. subst r. apply new_location_zero.
Qed.

(** *** One hundred times a quotient below one *)

Lemma SFmul_hundred (q : spec_float) :
  upTo 1 0 q ->
  upTo 100 0 (SFmul prec emax q (binary_normalize prec emax 100 0 false)).
Proof.
  change (binary_normalize prec emax 100 0 false)
    with (S754_finite false 7036874417766400 (-46)).
  intros [-> | (M & E & -> & E0 & B)]; [now left|].
  unfold SFmul. cbn [xorb].
  apply binary_round_aux_below; try lia.
  assert (P : 0 < 2 ^ (0 - E)) by (apply Z.pow_pos_nonneg; lia).
  unfold below. split; [lia|]. split; [lia|].
  replace (0 - (E + -46)) with ((0 - E) + 46) by lia.
  rewrite Z.pow_add_r by lia. rewrite Pos2Z.inj_mul.
  change (Z.pos 7036874417766400) with (100 * 2 ^ 46).
  split; [nia | reflexivity].
Qed.

Lemma Math_round_range (x : float) :
  upTo 100 0 (Prim2SF x) -> 0 <= Math_round x <= 100.
Proof.
  unfold Math_round. intros [-> | (M & E & -> & E0 & B)]; [lia|].
  assert (P : 0 < 2 ^ (0 - E)) by (apply Z.pow_pos_nonneg; lia).
  destruct (0 <=? E) eqn:Z0.
  - apply Z.leb_le in Z0. assert (E = 0) by lia. subst E.
    change (2 ^ 0) with 1 in *. lia.
  - replace (- E) with (0 - E) by lia. split.
    + apply Z.div_pos; lia.
    + assert ((2 * Z.pos M + 2 ^ (0 - E)) / (2 * 2 ^ (0 - E)) < 101); [|lia].
      apply Z.div_lt_upper_bound; lia.
Qed.

(** Every percentage lies between 0 and 100. *)
Lemma percentageOf_range (countValue totalValue : Z) :
  0 <= countValue <= totalValue -> totalValue < 2 ^ 53 ->
  0 <= percentageOf countValue totalValue <= 100.
Proof.
  intros [C CT] T. unfold percentageOf.
  destruct (0 <? totalValue) eqn:P; [|lia]. apply Z.ltb_lt in P.
  apply Math_round_range.
  rewrite mul_spec, div_spec, !toNumber_spec by lia.
  apply SFmul_hundred.
  destruct (Z.eq_dec countValue 0) as [-> | N].
  - destruct (binary_normalize_exact totalValue ltac:(lia))
      as (Mt & Et & -> & _). now left.
  - apply SFdiv_le_one; lia.
Qed.


(** *** The quotient between two bounds *)

Lemma SFdiv_within (c t b1 k1 b2 k2 : Z) :
  0 < c <= t -> t < 2 ^ 53 ->
  0 < b1 -> 0 < b2 < 2 ^ 53 -> -53 <= k2 <= k1 -> k1 <= 0 ->
  b1 * t <= c * 2 ^ (0 - k1) ->
  c * 2 ^ (0 - k2) <= b2 * t ->
  within b1 k1 b2 k2
         (SFdiv prec emax (binary_normalize prec emax c 0 false)
                          (binary_normalize prec emax t 0 false)).
Proof.
  intros [C CT] T B1 B2 K21 K1 Lo Hi.
  destruct (binary_normalize_exact c ltac:(lia)) as (Mc & Ec & -> & Ec0 & Qc).
  destruct (binary_normalize_exact t ltac:(lia)) as (Mt & Et & -> & Et0 & Qt).
  unfold SFdiv, SFdiv_core_binary. cbn [xorb].
  assert (Dc : Zdigits2 (Zpos Mc) + Ec = Zdigits2 c).
  { destruct c as [|pc|pc]; try lia. rewrite Qc, Zdigits2_shift by lia. lia. }
  assert (Dt : Zdigits2 (Zpos Mt) + Et = Zdigits2 t).
  { destruct t as [|pt|pt]; try lia. rewrite Qt, Zdigits2_shift by lia. lia. }
  pose proof (Zdigits2_mono c t ltac:(lia)) as Dm.
  rewrite Dc, Dt.
  set (e' := Z.min (fexp prec emax (Zdigits2 c - Zdigits2 t)) (Ec - Et)).
  assert (E1 : e' <= -53).
  { unfold e', fexp, SpecFloat.emin, prec, emax. lia. }
  assert (E2 : e' <= Ec - Et) by (unfold e'; lia).
  set (s := Ec - Et - e').
  assert (S0 : 0 <= s) by (unfold s; lia).
  set (m' := match s with
             | 0 => Z.pos Mc
             | Z.pos _ => Z.shiftl (Z.pos Mc) s
             | Z.neg _ => 0
             end).
  assert (Em : m' = Zpos Mc * 2 ^ s).
  { unfold m'. destruct s as [|ps|ps] eqn:Es; try lia.
    rewrite Z.shiftl_mul_pow2 by lia. reflexivity. }
  clearbody m'.
  pose proof (Z_div_mod m' (Zpos Mt) ltac:(lia)) as DM.
  destruct (Z.div_eucl m' (Z.pos Mt)) as [q r]. destruct DM as [DM R].
  (* the scaled numerator, against both bounds *)
  set (U := 2 ^ (0 - Et) * 2 ^ (k2 - e')).
  set (V := 2 ^ (0 - Et) * 2 ^ (k1 - e')).
  assert (PE : 0 < 2 ^ (0 - Et)) by (apply Z.pow_pos_nonneg; lia).
  assert (P2 : 0 < 2 ^ (k2 - e')) by (apply Z.pow_pos_nonneg; lia).
  assert (P1 : 0 < 2 ^ (k1 - e')) by (apply Z.pow_pos_nonneg; lia).
  assert (PU : 0 < U) by (unfold U; nia).
  assert (PV : 0 < V) by (unfold V; nia).
  assert (AU : m' = c * 2 ^ (0 - k2) * U).
  { rewrite Em, Qc. unfold U, s.
    rewrite <- !Z.mul_assoc, <- !Z.pow_add_r by lia. do 2 f_equal; lia. }
  assert (AV : m' = c * 2 ^ (0 - k1) * V).
  { rewrite Em, Qc. unfold V, s.
    rewrite <- !Z.mul_assoc, <- !Z.pow_add_r by lia. do 2 f_equal; lia. }
  assert (BU : Zpos Mt * (b2 * 2 ^ (k2 - e')) = b2 * t * U).
  { rewrite Qt. unfold U. ring. }
  assert (BV : Zpos Mt * (b1 * 2 ^ (k1 - e')) = b1 * t * V).
  { rewrite Qt. unfold V. ring. }
  assert (LEU : m' <= Zpos Mt * (b2 * 2 ^ (k2 - e'))).
  { rewrite AU, BU. apply Z.mul_le_mono_nonneg_r; lia. }
  assert (GEV : Zpos Mt * (b1 * 2 ^ (k1 - e')) <= m').
  { rewrite AV, BV. apply Z.mul_le_mono_nonneg_r; lia. }
  apply binary_round_aux_within; try lia.
  - unfold below. split; [nia|]. split; [lia|]. split; [nia|].
    intros Q. assert (r = 0) by nia. subst r. apply new_location_zero.
  - unfold above. nia.
Qed.

(** *** One hundred times a quotient between two bounds *)

Lemma SFmul_hundred_within (q : spec_float) (b1 k1 b2 k2 B1 K1 B2 K2 : Z) :
  within b1 k1 b2 k2 q ->
  k2 <= k1 -> k1 <= K1 -> k2 <= K2 -> K2 <= K1 -> K1 <= 0 ->
  0 < B1 -> 0 < B2 < 2 ^ 53 -> -1074 <= K2 ->
  B1 * 2 ^ (K1 - k1) <= 100 * b1 ->
  100 * b2 <= B2 * 2 ^ (K2 - k2) ->
  within B1 K1 B2 K2
         (SFmul prec emax q (binary_normalize prec emax 100 0 false)).
Proof.
  change (binary_normalize prec emax 100 0 false)
    with (S754_finite false 7036874417766400 (-46)).
  intros (M & E & -> & E0 & Lo & Hi) K21 K11 K22 KK K10 HB1 HB2 HK2 L H.
  unfold SFmul. cbn [xorb].
  rewrite Pos2Z.inj_mul.
  change (Z.pos 7036874417766400) with (100 * 2 ^ 46).
  assert (P1 : 0 < 2 ^ (k1 - E)) by (apply Z.pow_pos_nonneg; lia).
  assert (P2 : 0 < 2 ^ (k2 - E)) by (apply Z.pow_pos_nonneg; lia).
  assert (S1 : 2 ^ (K1 - (E + -46)) = 2 ^ (K1 - k1) * 2 ^ (k1 - E) * 2 ^ 46).
  { rewrite <- !Z.pow_add_r by lia. f_equal; lia. }
  assert (S2 : 2 ^ (K2 - (E + -46)) = 2 ^ (K2 - k2) * 2 ^ (k2 - E) * 2 ^ 46).
  { rewrite <- !Z.pow_add_r by lia. f_equal; lia. }
  assert (Q1 : 0 < 2 ^ (K1 - k1)) by (apply Z.pow_pos_nonneg; lia).
  assert (Q2 : 0 < 2 ^ (K2 - k2)) by (apply Z.pow_pos_nonneg; lia).
  apply binary_round_aux_within; try lia.
  - unfold below. split; [lia|]. split; [lia|]. rewrite S2.
    split; [|reflexivity].
    transitivity (100 * b2 * 2 ^ (k2 - E) * 2 ^ 46); [nia|].
    replace (B2 * (2 ^ (K2 - k2) * 2 ^ (k2 - E) * 2 ^ 46))
      with (B2 * 2 ^ (K2 - k2) * (2 ^ (k2 - E) * 2 ^ 46)) by ring.
    replace (100 * b2 * 2 ^ (k2 - E) * 2 ^ 46)
      with (100 * b2 * (2 ^ (k2 - E) * 2 ^ 46)) by ring.
    apply Z.mul_le_mono_nonneg_r; [nia | lia].
  - unfold above. rewrite S1.
    transitivity (100 * b1 * 2 ^ (k1 - E) * 2 ^ 46); [|nia].
    replace (B1 * (2 ^ (K1 - k1) * 2 ^ (k1 - E) * 2 ^ 46))
      with (B1 * 2 ^ (K1 - k1) * (2 ^ (k1 - E) * 2 ^ 46)) by ring.
    replace (100 * b1 * 2 ^ (k1 - E) * 2 ^ 46)
      with (100 * b1 * (2 ^ (k1 - E) * 2 ^ 46)) by ring.
    apply Z.mul_le_mono_nonneg_r; [nia | lia].
Qed.

(** [Math.round] of a float between two half-integers. *)
Lemma Math_round_between (x : float) (M : positive) (E L P : Z) :
  Prim2SF x = S754_finite false M E -> E <= 0 ->
  (2 * L - 1) * 2 ^ (0 - E) <= 2 * Zpos M ->
  2 * Zpos M < (2 * P + 1) * 2 ^ (0 - E) ->
  L <= Math_round x <= P.
Proof.
  intros X E0 Lo Hi. unfold Math_round. rewrite X.
  assert (W : 0 < 2 ^ (0 - E)) by (apply Z.pow_pos_nonneg; lia).
  destruct (0 <=? E) eqn:Z0.
  - apply Z.leb_le in Z0. assert (E = 0) by lia. subst E.
    change (2 ^ (0 - 0)) with 1 in *. change (2 ^ 0) with 1. lia.
  - replace (- E) with (0 - E) by lia. split.
    + apply Z.div_le_lower_bound; nia.
    + assert ((2 * Z.pos M + 2 ^ (0 - E)) / (2 * 2 ^ (0 - E)) < P + 1); [|lia].
      apply Z.div_lt_upper_bound; nia.
Qed.


(** *** The percentage *)

Lemma div_bounds (a b : Z) : 0 < b -> (a / b) * b <= a < (a / b + 1) * b.
Proof.
  intros B. pose proof (Z.mul_div_le a b B).
  pose proof (Z.mul_succ_div_gt a b B). lia.
Qed.

Lemma percentageOf_SF (c t : Z) :
  0 <= c <= t -> 0 < t < 2 ^ 53 ->
  percentageOf c t =
  Math_round (PrimFloat.mul (PrimFloat.div (toNumber c) (toNumber t))
                            (toNumber 100))
  /\ Prim2SF (PrimFloat.mul (PrimFloat.div (toNumber c) (toNumber t))
                            (toNumber 100))
     = SFmul prec emax
         (SFdiv prec emax (binary_normalize prec emax c 0 false)
                          (binary_normalize prec emax t 0 false))
         (binary_normalize prec emax 100 0 false).
Proof.
  intros C T. unfold percentageOf.
  assert (P : (0 <? t) = true) by (apply Z.ltb_lt; lia). rewrite P.
  split; [reflexivity|].
  rewrite mul_spec, div_spec, !toNumber_spec by lia. reflexivity.
Qed.

(** Between the half-integers around [L] and [P]. *)
Lemma percentageOf_between (c t L P : Z) :
  0 < c < t -> t <= 2 ^ 44 ->
  0 <= P <= 100 ->
  200 * c < (2 * P + 1) * t ->
  (L <= 0 \/ (2 * L - 1) * 2 ^ 52 <= 100 * ((c * 2 ^ 53) / t)) ->
  L <= percentageOf c t <= P.
Proof.
  intros [C CT] T RP Hi Lo.
  destruct (percentageOf_SF c t ltac:(lia) ltac:(lia)) as [-> X].
  set (G := (c * 2 ^ 53) / t) in *.
  destruct (div_bounds (c * 2 ^ 53) t ltac:(lia)) as [G1 G2]. fold G in G1, G2.
  assert (G3 : 512 <= G) by nia.
  assert (G4 : G + 1 < 2 ^ 53) by nia.
  assert (Q : within G (-53) (G + 1) (-53)
                (SFdiv prec emax (binary_normalize prec emax c 0 false)
                                 (binary_normalize prec emax t 0 false))).
  { apply SFdiv_within; try lia;
      change (2 ^ (0 - -53)) with (2 ^ 53); lia. }
  assert (U : 100 * (G + 1) <= ((2 * P + 1) * 2 ^ 45 - 1) * 2 ^ (-46 - -53)).
  { change (2 ^ (-46 - -53)) with 128.
    apply (Z.mul_le_mono_pos_r _ _ t); [lia|]. nia. }
  set (B2 := (2 * P + 1) * 2 ^ 45 - 1) in *.
  assert (HB2 : 0 < B2 < 2 ^ 53) by (unfold B2; lia).
  assert (W : forall E, E <= -46 -> 0 < 2 ^ (0 - E)
              /\ 2 ^ (0 - E) = 2 ^ 45 * (2 * 2 ^ (-46 - E))
              /\ 0 < 2 ^ (-46 - E)).
  { intros E HE. split; [apply Z.pow_pos_nonneg; lia|]. split.
    - change 2 with (2 ^ 1) at 3. rewrite <- !Z.pow_add_r by lia. f_equal; lia.
    - apply Z.pow_pos_nonneg; lia. }
  destruct (Z_le_gt_dec L 0) as [L0 | L1].
  - (* no lower bound to show *)
    assert (R : within 1 (-46) B2 (-46)
                  (SFmul prec emax
                     (SFdiv prec emax (binary_normalize prec emax c 0 false)
                                      (binary_normalize prec emax t 0 false))
                     (binary_normalize prec emax 100 0 false))).
    { apply (SFmul_hundred_within _ G (-53) (G + 1) (-53)); try lia;
        try exact Q; try exact U;
        try (change (2 ^ (-46 - -53)) with 128; lia). }
    destruct R as (M & E & R & E0 & _ & Hm). rewrite R in X.
    destruct (W E E0) as (W0 & W1 & W2).
    destruct (Math_round_between _ M E 0 P X ltac:(lia)) as [A B]; [lia | |lia].
    rewrite W1. unfold B2 in Hm. nia.
  - destruct Lo as [Lo | Lo]; [lia|].
    assert (R : within (2 * L - 1) (-1) B2 (-46)
                  (SFmul prec emax
                     (SFdiv prec emax (binary_normalize prec emax c 0 false)
                                      (binary_normalize prec emax t 0 false))
                     (binary_normalize prec emax 100 0 false))).
    { apply (SFmul_hundred_within _ G (-53) (G + 1) (-53)); try lia;
        try exact Q; try exact U;
        try (change (2 ^ (-1 - -53)) with (2 ^ 52); exact Lo). }
    destruct R as (M & E & R & E0 & Hl & Hm). rewrite R in X.
    destruct (W E E0) as (W0 & W1 & W2).
    assert (V : 2 ^ (0 - E) = 2 * 2 ^ (-1 - E)).
    { change 2 with (2 ^ 1) at 2. rewrite <- Z.pow_add_r by lia. f_equal; lia. }
    apply (Math_round_between _ M E L P X); [lia | |].
    + rewrite V. nia.
    + rewrite W1. unfold B2 in Hm. nia.
Qed.

Lemma percentageOf_zero (t : Z) : 0 < t < 2 ^ 53 -> percentageOf 0 t = 0.
Proof.
  intros T. destruct (percentageOf_SF 0 t ltac:(lia) T) as [-> X].
  unfold Math_round. rewrite X.
  destruct (binary_normalize_exact t ltac:(lia)) as (Mt & Et & -> & _).
  reflexivity.
Qed.

Lemma percentageOf_all (t : Z) : 0 < t < 2 ^ 53 -> percentageOf t t = 100.
Proof.
  intros T. destruct (percentageOf_SF t t ltac:(lia) T) as [-> X].
  assert (Q : within 1 0 1 0
                (SFdiv prec emax (binary_normalize prec emax t 0 false)
                                 (binary_normalize prec emax t 0 false))).
  { apply SFdiv_within; try lia. }
  assert (R : within 100 0 100 0
                (SFmul prec emax
                   (SFdiv prec emax (binary_normalize prec emax t 0 false)
                                    (binary_normalize prec emax t 0 false))
                   (binary_normalize prec emax 100 0 false))).
  { apply (SFmul_hundred_within _ 1 0 1 0); try lia; exact Q. }
  destruct R as (M & E & R & E0 & Hl & Hm). rewrite R in X.
  assert (W : 0 < 2 ^ (0 - E)) by (apply Z.pow_pos_nonneg; lia).
  destruct (Math_round_between _ M E 100 100 X E0); lia.
Qed.

(** The percentage is the nearest integer to
    [100 * countValue / totalValue]; when that number is exactly half-way
    between two integers it is one of the two. *)
Theorem percentageOf_nearest (countValue totalValue : Z) :
  0 <= countValue <= totalValue -> 0 < totalValue <= 2 ^ 44 ->
  let P := exactPercentage countValue totalValue in
  0 <= percentageOf countValue totalValue <= 100
  /\ P - 1 <= percentageOf countValue totalValue <= P
  /\ (200 * countValue <> (2 * P - 1) * totalValue ->
      percentageOf countValue totalValue = P).
Proof.
  intros [C CT] [T0 T] P.
  assert (R : 0 <= percentageOf countValue totalValue <= 100)
    by (apply percentageOf_range; lia).
  split; [exact R|].
  destruct (div_bounds (200 * countValue + totalValue) (2 * totalValue)
              ltac:(lia)) as [P1 P2].
  fold (exactPercentage countValue totalValue) in P1, P2. fold P in P1, P2.
  assert (P3 : 0 <= P <= 100) by nia.
  destruct (Z.eq_dec countValue 0) as [-> | N0].
  { rewrite percentageOf_zero by lia. assert (P = 0) by nia. lia. }
  destruct (Z.eq_dec countValue totalValue) as [-> | N1].
  { rewrite percentageOf_all by lia. assert (P = 100) by nia. lia. }
  set (G := (countValue * 2 ^ 53) / totalValue).
  destruct (div_bounds (countValue * 2 ^ 53) totalValue ltac:(lia))
    as [G1 G2]. fold G in G1, G2.
  split.
  - apply percentageOf_between; try lia.
    destruct (Z_le_gt_dec (P - 1) 0) as [L | L]; [now left | right].
    fold G. apply (Z.mul_le_mono_pos_r _ _ totalValue); [lia|]. nia.
  - intros NT.
    assert (P <= percentageOf countValue totalValue <= P); [|lia].
    apply percentageOf_between; try lia.
    destruct (Z_le_gt_dec P 0) as [L | L]; [now left | right].
    fold G. apply (Z.mul_le_mono_pos_r _ _ totalValue); [lia|]. nia.
Qed.

End FloatFacts.

(** ** The percentage of an entry *)

Module PercentageFacts.
Import JS BlameParser Metrics MetricsFacts.

(** The count of the active mode, on a value of the [authorStats] map. *)
Definition statValue (cfg : Config) (st : Stats) : Z :=
  if isCharacters cfg then s_characters st else s_lines st.

(** [totalValue]: the total of the active mode. *)
Definition totalValue (cfg : Config) (authorStats : JSMap.t Stats) : Z :=
  if isCharacters cfg then totalOf s_characters authorStats
  else totalOf s_lines authorStats.

Definition nonNegative (st : Stats) : Prop :=
  0 <= s_lines st /\ 0 <= s_characters st.

Lemma values_set_in (k : string) (v x : Stats) (m : JSMap.t Stats) :
  In x (JSMap.values (JSMap.set k v m)) -> x = v \/ In x (JSMap.values m).
Proof.
  unfold JSMap.values.
  induction m as [|[k' v'] m IH]; cbn [JSMap.set List.map snd In].
  - intros [E | []]. now left.
  - destruct (String.eqb k' k); cbn [List.map snd In].
    + intros [E | I]; [now left | now right; right].
    + intros [E | I]; [now right; left|].
      destruct (IH I) as [E | J]; [now left | now right; right].
Qed.

Lemma get_in_values (k : string) (e : Stats) (m : JSMap.t Stats) :
  JSMap.get k m = Some e -> In e (JSMap.values m).
Proof.
  unfold JSMap.values.
  induction m as [|[k' v'] m IH]; cbn [JSMap.get List.map snd In];
    [discriminate|].
  destruct (String.eqb k' k).
  - intros [= ->]. now left.
  - intros G. right. exact (IH G).
Qed.

Lemma addLine_nonNegative (cfg : Config) (m : JSMap.t Stats)
  (l : BlameLineData) :
  Forall nonNegative (JSMap.values m) ->
  Forall nonNegative (JSMap.values (addLine cfg m l)).
Proof.
  intros F. unfold addLine.
  destruct (ignoreBlankLines cfg && isBlankLine (content l)); [exact F|].
  apply Forall_forall. intros x I.
  destruct (values_set_in _ _ _ _ I) as [-> | J].
  - destruct (JSMap.get (BlameParser.author l) m) as [e|] eqn:G;
      unfold nonNegative; cbn [s_lines s_characters].
    + destruct (proj1 (Forall_forall _ _) F e (get_in_values _ _ _ G)).
      lia.
    + lia.
  - exact (proj1 (Forall_forall _ _) F x J).
Qed.

Lemma group_nonNegative (cfg : Config) (d : list BlameLineData) :
  Forall nonNegative (JSMap.values (groupByAuthor cfg d)).
Proof.
  unfold groupByAuthor.
  assert (G : forall m, Forall nonNegative (JSMap.values m) ->
                Forall nonNegative
                  (JSMap.values (fold_left (addLine cfg) d m))).
  { induction d as [|l d IH]; intros m F; cbn [fold_left]; [exact F|].
    apply IH. now apply addLine_nonNegative. }
  apply G. constructor.
Qed.

(** A member of a list of non-negative integers is at most their sum. *)
Lemma member_le_sum (l : list Z) (x : Z) :
  Forall (fun y => 0 <= y) l -> In x l -> 0 <= x <= sumZ l /\ 0 <= sumZ l.
Proof.
  induction 1 as [|y l Y F IH]; cbn [In sumZ fold_right]; [intros []|].
  fold (sumZ l).
  assert (S : 0 <= sumZ l).
  { clear IH. induction F as [|z l Z F IH]; cbn [sumZ fold_right];
      [lia | fold (sumZ l); lia]. }
  intros [-> | I]; [lia|]. destruct (IH I). lia.
Qed.

Lemma totalValue_sum (cfg : Config) (m : JSMap.t Stats) :
  totalValue cfg m = sumZ (List.map (statValue cfg) (JSMap.values m)).
Proof.
  unfold totalValue, statValue.
  destruct (isCharacters cfg); apply totalOf_sum.
Qed.

Lemma countValue_toMetric (cfg : Config) (tl tc : Z) (e : string * Stats) :
  countValue cfg (toMetric cfg tl tc e) = statValue cfg (snd e).
Proof. unfold countValue, toMetric, statValue. now destruct (isCharacters cfg). Qed.

Lemma percentage_toMetric (cfg : Config) (m : JSMap.t Stats)
  (e : string * Stats) :
  percentage (toMetric cfg (totalOf s_lines m) (totalOf s_characters m) e) =
  percentageOf (statValue cfg (snd e)) (totalValue cfg m).
Proof. unfold toMetric, statValue, totalValue. now destruct (isCharacters cfg). Qed.

(** The counts of the entries returned add up to [totalValue]. *)
Lemma countValue_sum (cfg : Config) (d : list BlameLineData) :
  sumZ (List.map (countValue cfg) (calculateContributions cfg d)) =
  totalValue cfg (groupByAuthor cfg d).
Proof.
  destruct d as [|l d].
  - unfold totalValue. now destruct (isCharacters cfg).
  - rewrite (sumZ_perm _ _
               (Permutation_map (countValue cfg)
                  (calculateContributions_perm cfg (l :: d)
                     ltac:(discriminate)))).
    rewrite totalValue_sum. unfold JSMap.values. rewrite !map_map.
    apply f_equal, map_ext. intros e. apply countValue_toMetric.
Qed.

(** Every entry returned is the entry of an author of the map, with the
    percentage computed from its count and [totalValue]; its count is not
    negative and at most [totalValue]. *)
Lemma entry_percentage (cfg : Config) (d : list BlameLineData)
  (m : ContributorMetrics) :
  In m (calculateContributions cfg d) ->
  percentage m =
    percentageOf (countValue cfg m) (totalValue cfg (groupByAuthor cfg d))
  /\ 0 <= countValue cfg m <= totalValue cfg (groupByAuthor cfg d).
Proof.
  intros I. destruct d as [|l d]; [destruct I|].
  apply (Permutation_in _
           (calculateContributions_perm cfg (l :: d) ltac:(discriminate)))
    in I.
  apply in_map_iff in I. destruct I as (e & <- & I).
  rewrite percentage_toMetric, countValue_toMetric. split; [reflexivity|].
  rewrite totalValue_sum.
  apply member_le_sum.
  - apply Forall_forall. intros x X. apply in_map_iff in X.
    destruct X as (st & <- & X).
    destruct (proj1 (Forall_forall _ _) (group_nonNegative cfg (l :: d)) st X).
    unfold statValue. destruct (isCharacters cfg); assumption.
  - apply in_map. unfold JSMap.values. now apply in_map.
Qed.

(** *** C6 *)

(** C6. For every entry the aggregator returns, with [countValue] the
    entry's count in the active mode and [totalValue] the sum of these
    counts over all entries (at most [2^44]): the percentage is the
    rounding of [(countValue / totalValue) * 100] computed in binary64,
    and 0 when [totalValue] is 0; it lies between 0 and 100; it is the
    nearest integer to [100 * countValue / totalValue], and when that
    number is exactly half-way between two integers, one of the two. *)
Theorem percentage_nearest (cfg : Config) (blameData : list BlameLineData)
  (m : ContributorMetrics) :
  In m (calculateContributions cfg blameData) ->
  sumZ (List.map (countValue cfg) (calculateContributions cfg blameData))
    <= 2 ^ 44 ->
  let total :=
    sumZ (List.map (countValue cfg) (calculateContributions cfg blameData)) in
  let P := exactPercentage (countValue cfg m) total in
  percentage m = percentageOf (countValue cfg m) total
  /\ (total = 0 -> percentage m = 0)
  /\ 0 <= percentage m <= 100
  /\ (0 < total ->
      P - 1 <= percentage m <= P
      /\ (200 * countValue cfg m <> (2 * P - 1) * total ->
          percentage m = P)).
Proof.
  intros I B total P. subst P total.
  rewrite countValue_sum in *.
  destruct (entry_percentage cfg blameData m I) as [E C].
  rewrite E. split; [reflexivity|].
  split; [intros ->; reflexivity|].
  split.
  - destruct (Z.eq_dec (totalValue cfg (groupByAuthor cfg blameData)) 0)
      as [-> | N]; [cbn; lia|].
    apply FloatFacts.percentageOf_range; [lia|].
    apply Z.le_lt_trans with (1 := B). reflexivity.
  - intros T.
    apply (FloatFacts.percentageOf_nearest
             (countValue cfg m) (totalValue cfg (groupByAuthor cfg blameData)));
      lia.
Qed.

(** When the aggregator returns a single entry, with a positive count in
    the active mode, its percentage is 100. *)
Theorem sole_contributor_hundred (cfg : Config)
  (blameData : list BlameLineData) (m : ContributorMetrics) :
  calculateContributions cfg blameData = [m] ->
  0 < countValue cfg m < 2 ^ 53 ->
  percentage m = 100.
Proof.
  intros E C.
  assert (I : In m (calculateContributions cfg blameData))
    by (rewrite E; now left).
  destruct (entry_percentage cfg blameData m I) as [-> _].
  rewrite <- countValue_sum, E. cbn [List.map sumZ fold_right].
  rewrite Z.add_0_r. apply FloatFacts.percentageOf_all. exact C.
Qed.

End PercentageFacts.

Module MetricsRuns.
Import JS BlameParser Metrics MetricsFacts Samples.

(** A file of four lines: Bob wrote the second, Alice the other three. *)
Definition fourLines : string :=
  "one" ++ nl ++ "two" ++ nl ++ "three" ++ nl ++ "four".

Definition fourLinesBlame : string :=
  block "1" 1 "Alice" "one" ++ block "2" 2 "Bob" "two"
  ++ block "1" 3 "Alice" "three" ++ block "1" 4 "Alice" "four".

(** *** C7 *)

(** C7. The list the aggregator returns is in descending order of the
    count of the active mode ([characters] in the mode "characters",
    [lines] otherwise): every entry counts at least as much as every
    later one.  With three lines by Alice and one by Bob, in the mode
    "lines", Alice comes first with 75 and Bob second with 25. *)
Theorem ranking_descending (cfg : Config) (blameData : list BlameLineData) :
  StronglySorted (descending (countValue cfg))
                 (calculateContributions cfg blameData)
  /\ calculateContributions (mkConfig "lines" false)
       (parseBlameOutput fourLinesBlame fourLines) =
     [ mkContributorMetrics "Alice" 3 12 75;
       mkContributorMetrics "Bob" 1 3 25 ].
Proof.
  split; [|vm_compute; reflexivity].
  unfold calculateContributions.
  destruct (Nat.eqb (List.length blameData) 0); [constructor|].
  rewrite sort_compareFn. apply sort_sorted.
Qed.

(** *** C6 *)

(** A file of 200 lines: 29 by Alice, 170 by Bob and one by Carol. *)
Definition twoHundredLines : list BlameLineData :=
  List.map (fun i => mkBlameLineData
                       (if (i <? 29)%nat then "Alice"
                        else if (i <? 199)%nat then "Bob" else "Carol")
                       (Z.of_nat i + 1) "x")
           (seq 0 200).

Lemma percentage_nearest_witness :
  In (mkContributorMetrics "Alice" 29 29 14)
     (calculateContributions (mkConfig "lines" false) twoHundredLines)
  /\ sumZ (List.map (countValue (mkConfig "lines" false))
             (calculateContributions (mkConfig "lines" false) twoHundredLines))
     = 200
  /\ 0 <= 14 <= 100
  /\ exactPercentage 29 200 - 1 <= 14 <= exactPercentage 29 200.
Proof.
  assert (I : In (mkContributorMetrics "Alice" 29 29 14)
                 (calculateContributions (mkConfig "lines" false)
                    twoHundredLines))
    by (vm_compute; auto).
  assert (T : sumZ (List.map (countValue (mkConfig "lines" false))
                      (calculateContributions (mkConfig "lines" false)
                         twoHundredLines)) = 200)
    by (vm_compute; reflexivity).
  split; [exact I|]. split; [exact T|].
  pose proof (PercentageFacts.percentage_nearest
                (mkConfig "lines" false) twoHundredLines
                (mkContributorMetrics "Alice" 29 29 14) I
                ltac:(rewrite T; vm_compute; discriminate)) as H.
  cbv zeta in H. rewrite T in H. cbn [percentage countValue isCharacters
    countMode lines] in H.
  change (String.eqb "lines" "characters") with false in H. cbv iota in H.
  destruct H as (_ & _ & R & N).
  split; [exact R|]. exact (proj1 (N ltac:(lia))).
Defined.

Lemma sole_contributor_hundred_witness :
  calculateContributions defaultConfig
    [mkBlameLineData "Alice" 1 "hello"; mkBlameLineData "Alice" 2 "world"]
  = [mkContributorMetrics "Alice" 2 10 100]
  /\ percentage (mkContributorMetrics "Alice" 2 10 100) = 100.
Proof.
  split; [vm_compute; reflexivity|].
  apply (PercentageFacts.sole_contributor_hundred defaultConfig
           [mkBlameLineData "Alice" 1 "hello";
            mkBlameLineData "Alice" 2 "world"]);
    vm_compute; [reflexivity | split; reflexivity].
Defined.

(** C6, as stated, fails.  The percentage is the rounding of a product
    computed in binary64: [(countValue / totalValue) * 100].  For 29
    lines of 200 the quotient 0.145 is not a binary64 number, the product
    comes out just below 14.5, and the entry gets 14, where
    [100 * 29 / 200 = 14.5] rounds to 15.  In the same list one line of
    200, which is 0.5, gets 1: the two ties are rounded in opposite
    directions. *)
Lemma percentage_of_a_tie :
  calculateContributions (mkConfig "lines" false) twoHundredLines =
    [ mkContributorMetrics "Bob" 170 170 85;
      mkContributorMetrics "Alice" 29 29 14;
      mkContributorMetrics "Carol" 1 1 1 ]
  /\ percentageOf 29 200 = 14
  /\ exactPercentage 29 200 = 15
  /\ 2 * (100 * 29) = (2 * 14 + 1) * 200
  /\ percentageOf 1 200 = 1
  /\ 2 * (100 * 1) = (2 * 0 + 1) * 200.
Proof. vm_compute. repeat split; reflexivity. Qed.

End MetricsRuns.

(** ** The insertion-ordered map *)

Module JSMapFacts.
Section WithValue.
Context {V : Type}.
Implicit Types (m : JSMap.t V) (k : string) (v : V).

Lemma delete_filter k m :
  JSMap.delete k m = List.filter (fun e => negb (String.eqb (fst e) k)) m.
Proof.
  induction m as [|[k' v'] m IH]; cbn [JSMap.delete List.filter fst];
    [reflexivity|].
  destruct (String.eqb k' k); cbn [negb]; now rewrite IH.
Qed.

Lemma delete_all (ks : list string) m :
  fold_left (fun c key => JSMap.delete key c) ks m =
  List.filter (fun e => negb (existsb (String.eqb (fst e)) ks)) m.
Proof.
  revert m. induction ks as [|k ks IH]; intros m; cbn [fold_left existsb].
  - cbn [negb].
    induction m as [|e m IHm]; cbn [List.filter];
      [reflexivity | now rewrite <- IHm].
  - rewrite IH, delete_filter.
    induction m as [|e m IHm]; cbn [List.filter]; [reflexivity|].
    destruct (String.eqb (fst e) k); cbn [negb orb List.filter].
    + exact IHm.
    + destruct (existsb (String.eqb (fst e)) ks); cbn [negb];
        now rewrite IHm.
Qed.



Lemma keys_filter (p : string * V -> bool) m :
  forall k, In k (JSMap.keys (List.filter p m)) -> In k (JSMap.keys m).
Proof.
  unfold JSMap.keys. intros k I. apply in_map_iff in I.
  destruct I as (e & <- & I). apply filter_In in I. now apply in_map.
Qed.

Lemma NoDup_keys_filter (p : string * V -> bool) m :
  NoDup (JSMap.keys m) -> NoDup (JSMap.keys (List.filter p m)).
Proof.
  unfold JSMap.keys.
  induction m as [|e m IH]; cbn [List.filter List.map]; intros N; [exact N|].
  inversion N as [|? ? NI N']; subst.
  destruct (p e); cbn [List.map]; [|now apply IH].
  constructor; [|now apply IH].
  intros I. apply NI. now apply (keys_filter p).
Qed.

Lemma length_filter_le (p : string * V -> bool) m :
  (List.length (List.filter p m) <= List.length m)%nat.
Proof.
  induction m as [|e m IH]; cbn [List.filter List.length]; [lia|].
  destruct (p e); cbn [List.length]; lia.
Qed.

(** Deleting the first key of a map without repeated keys drops the first
    entry and nothing else. *)
Lemma delete_first k v m :
  NoDup (JSMap.keys ((k, v) :: m)) -> JSMap.delete k ((k, v) :: m) = m.
Proof.
  intros N. cbn [JSMap.delete]. rewrite String.eqb_refl.
  inversion N as [|? ? NI _]; subst. clear N.
  rewrite delete_filter. unfold JSMap.keys in NI.
  induction m as [|[k' v'] m IH]; cbn [List.filter fst]; [reflexivity|].
  cbn [List.map fst] in NI.
  destruct (String.eqb k' k) eqn:E.
  - apply String.eqb_eq in E. subst. exfalso. apply NI. now left.
  - cbn [negb]. f_equal. apply IH. intros I. apply NI. now right.
Qed.

Lemma keys_set k v m :
  forall k', In k' (JSMap.keys (JSMap.set k v m)) ->
             k' = k \/ In k' (JSMap.keys m).
Proof.
  unfold JSMap.keys.
  induction m as [|[k0 v0] m IH]; cbn [JSMap.set List.map fst]; intros k' I.
  - destruct I as [<- | []]. now left.
  - destruct (String.eqb k0 k) eqn:E; cbn [List.map fst] in I.
    + destruct I as [<- | I]; [now left | right; now right].
    + destruct I as [<- | I]; [right; now left|].
      destruct (IH k' I); [now left | right; now right].
Qed.

Lemma NoDup_keys_set k v m :
  NoDup (JSMap.keys m) -> NoDup (JSMap.keys (JSMap.set k v m)).
Proof.
  induction m as [|[k0 v0] m IH]; cbn [JSMap.set]; intros N.
  - repeat constructor. intros [].
  - inversion N as [|? ? NI N']; subst.
    destruct (String.eqb k0 k) eqn:E.
    + apply String.eqb_eq in E. subst k0. now constructor.
    + unfold JSMap.keys in *. cbn [List.map fst]. constructor; [|now apply IH].
      intros I. destruct (keys_set k v m k0 I) as [-> | I'].
      * now rewrite String.eqb_refl in E.
      * now apply NI.
Qed.

Lemma length_set_le k v m :
  (List.length (JSMap.set k v m) <= S (List.length m))%nat.
Proof.
  induction m as [|[k0 v0] m IH]; cbn [JSMap.set List.length]; [lia|].
  destruct (String.eqb k0 k); cbn [List.length]; lia.
Qed.

Lemma get_set_same k v m : JSMap.get k (JSMap.set k v m) = Some v.
Proof.
  induction m as [|[k0 v0] m IH]; cbn [JSMap.set JSMap.get].
  - now rewrite String.eqb_refl.
  - destruct (String.eqb k0 k) eqn:E; cbn [JSMap.get].
    + now rewrite String.eqb_refl.
    + now rewrite E.
Qed.

End WithValue.
End JSMapFacts.

(** ** The cache *)

Module CacheFacts.
Import JS JSFacts Metrics Cache JSMapFacts.

(** *** Fingerprints *)



Lemma getCacheKey_truthy (statSync : string -> option Fs.Stats)
  (filePath fileContent : string) :
  truthy (getCacheKey statSync filePath fileContent) = true.
Proof.
  apply truthy_true_iff. unfold getCacheKey.
  destruct (statSync filePath); apply append_not_empty; discriminate.
Qed.

(** *** Reachable states *)

(** The states of a cache: a new one, and what the operations of the
    class make of a state.  [set] is called with a key that is not the
    empty string, as every fingerprint is ([getCacheKey_truthy]). *)
Inductive reachable : ContributorCache -> Prop :=
| reach_new : reachable JSMap.empty
| reach_get c now key :
    reachable c -> reachable (snd (Cache.get now key c))
| reach_set c now key d ttl :
    reachable c -> key <> "" -> reachable (Cache.set now key d ttl c)
| reach_invalidate c filePath :
    reachable c -> reachable (invalidate filePath c)
| reach_clear c :
    reachable c -> reachable (clear c)
| reach_cleanup c now :
    reachable c -> reachable (cleanup now c).

(** What holds of every reachable state: no key twice, no empty key, at
    most [maxCacheSize] entries. *)
Record invariant (c : ContributorCache) : Prop := mkInvariant {
  inv_nodup : NoDup (JSMap.keys c);
  inv_keys : Forall (fun k => k <> "") (JSMap.keys c);
  inv_size : Cache.size c <= maxCacheSize
}.

Lemma invariant_filter (p : string * CacheEntry -> bool) (c : ContributorCache) :
  invariant c -> invariant (List.filter p c).
Proof.
  intros [N K S]. split.
  - now apply NoDup_keys_filter.
  - apply Forall_forall. intros k I.
    apply (proj1 (Forall_forall _ _) K). now apply (keys_filter p).
  - unfold Cache.size, JSMap.size in *.
    pose proof (length_filter_le p c). lia.
Qed.

Lemma invariant_delete (k : string) (c : ContributorCache) :
  invariant c -> invariant (JSMap.delete k c).
Proof. rewrite delete_filter. apply invariant_filter. Qed.

Lemma invariant_delete_all (ks : list string) (c : ContributorCache) :
  invariant c -> invariant (fold_left (fun c key => JSMap.delete key c) ks c).
Proof. rewrite delete_all. apply invariant_filter. Qed.

(** What [set] does first: nothing below the bound, and at the bound the
    removal of the oldest entry. *)
Lemma set_evicts (now : Z) (key : string) (d : list ContributorMetrics)
  (ttl : Z) (c : ContributorCache) :
  invariant c ->
  (Cache.size c < maxCacheSize ->
   Cache.set now key d ttl c = JSMap.set key (mkCacheEntry d now ttl) c)
  /\ (maxCacheSize <= Cache.size c ->
      exists oldest rest,
        c = oldest :: rest /\
        Cache.set now key d ttl c = JSMap.set key (mkCacheEntry d now ttl) rest).
Proof.
  intros [N K S]. unfold Cache.set, Cache.size in *. split; intros B.
  - apply Z.leb_gt in B. now rewrite B.
  - destruct c as [|[k0 e0] rest].
    { unfold JSMap.size, maxCacheSize in B. cbn in B. lia. }
    exists (k0, e0), rest. split; [reflexivity|].
    apply Z.leb_le in B. rewrite B. cbn [JSMap.firstKey].
    inversion K as [|? ? K0 _]; subst.
    apply truthy_true_iff in K0. rewrite K0.
    now rewrite delete_first.
Qed.

Lemma invariant_set (now : Z) (key : string) (d : list ContributorMetrics)
  (ttl : Z) (c : ContributorCache) :
  invariant c -> key <> "" -> invariant (Cache.set now key d ttl c).
Proof.
  intros I T. destruct (set_evicts now key d ttl c I) as [Below At].
  assert (G : forall c' : ContributorCache,
             NoDup (JSMap.keys c') -> Forall (fun k => k <> "") (JSMap.keys c') ->
             JSMap.size c' < maxCacheSize ->
             invariant (JSMap.set key (mkCacheEntry d now ttl) c')).
  { intros c' N K S. split.
    - now apply NoDup_keys_set.
    - apply Forall_forall. intros k In'.
      destruct (keys_set _ _ _ _ In') as [-> | In'']; [exact T|].
      exact (proj1 (Forall_forall _ _) K k In'').
    - unfold Cache.size, JSMap.size in *.
      pose proof (length_set_le key (mkCacheEntry d now ttl) c'). lia. }
  destruct I as [N K S].
  destruct (Z.lt_ge_cases (Cache.size c) maxCacheSize) as [B | B].
  - rewrite (Below B). now apply G.
  - destruct (At B) as (oldest & rest & -> & ->).
    unfold JSMap.keys in N, K. cbn [List.map] in N, K.
    inversion N; inversion K; subst.
    apply G; [assumption | assumption|].
    unfold Cache.size, JSMap.size in *. cbn [List.length] in S. lia.
Qed.

Lemma reachable_invariant (c : ContributorCache) : reachable c -> invariant c.
Proof.
  induction 1 as [|c now key R IH|c now key d ttl R IH T
                  |c filePath R IH|c R IH|c now R IH].
  - split; [constructor | constructor | unfold maxCacheSize; cbn; lia].
  - unfold Cache.get. destruct (JSMap.get key c) as [e|]; [|exact IH].
    destruct (ttl e <? now - timestamp e); [|exact IH].
    now apply invariant_delete.
  - now apply invariant_set.
  - now apply invariant_delete_all.
  - split; [constructor | constructor | unfold maxCacheSize; cbn; lia].
  - now apply invariant_delete_all.
Qed.

(** *** C8 *)

(** C8. In every reachable state the cache holds at most [maxCacheSize]
    (100) entries.  In such a state [set] stores into the cache as it is
    when it holds fewer than 100 entries, and into the cache without its
    oldest entry when it holds 100; either way the cache holds at most
    100 entries afterwards. *)
Theorem cache_size_bounded (c : ContributorCache) :
  reachable c ->
  Cache.size c <= maxCacheSize
  /\ forall now key d ttl,
       (Cache.size c < maxCacheSize ->
        Cache.set now key d ttl c = JSMap.set key (mkCacheEntry d now ttl) c)
       /\ (maxCacheSize <= Cache.size c ->
           exists oldest rest,
             c = oldest :: rest /\
             Cache.set now key d ttl c
               = JSMap.set key (mkCacheEntry d now ttl) rest)
       /\ Cache.size (Cache.set now key d ttl c) <= maxCacheSize.
Proof.
  intros R. pose proof (reachable_invariant c R) as I.
  split; [apply I|]. intros now key d ttl.
  destruct (set_evicts now key d ttl c I) as [Below At].
  split; [exact Below|]. split; [exact At|].
  destruct I as [_ _ S]. unfold Cache.size, JSMap.size in *.
  destruct (Z.lt_ge_cases (Z.of_nat (List.length c)) maxCacheSize) as [B | B].
  - rewrite (Below B).
    pose proof (length_set_le key (mkCacheEntry d now ttl) c). lia.
  - destruct (At B) as (oldest & rest & -> & ->).
    pose proof (length_set_le key (mkCacheEntry d now ttl) rest).
    cbn [List.length] in S. lia.
Qed.

(** *** Invalidation *)







End CacheFacts.

(** ** The pipeline *)

Module PipelineFacts.
Import JS JSFacts BlameParser Metrics Crypto Cache Extension.
Import JSMapFacts CacheFacts.

(** *** The trace only grows *)

(** A statement that only appends to the trace. *)
Definition grows {A : Type} (m : M A) : Prop :=
  forall w, exists evs, log (snd (m w)) = (log w ++ evs)%list.

Lemma grows_ret {A : Type} (a : A) : grows (ret a).
Proof. intros w. exists []. cbn. now rewrite app_nil_r. Qed.

Lemma grows_throw {A : Type} (msg : string) : grows (@throw A msg).
Proof. intros w. exists []. cbn. now rewrite app_nil_r. Qed.

Lemma grows_emit (e : Event) : grows (emit e).
Proof. intros w. now exists [e]. Qed.

Lemma grows_setStatusBar (t tip : string) : grows (setStatusBar t tip).
Proof. intros w. exists []. cbn. now rewrite app_nil_r. Qed.

Lemma grows_withCache {A : Type} (f : ContributorCache -> A * ContributorCache) :
  grows (withCache f).
Proof.
  intros w. exists []. unfold withCache. destruct (f (cache w)).
  cbn. now rewrite app_nil_r.
Qed.

Lemma grows_bind {A B : Type} (m : M A) (k : A -> M B) :
  grows m -> (forall a, grows (k a)) -> grows (bind m k).
Proof.
  intros Gm Gk w. unfold bind. destruct (Gm w) as [e1 E1].
  destruct (m w) as [[err | a] w1]; cbn [snd] in *.
  - now exists e1.
  - destruct (Gk a w1) as [e2 E2]. exists (e1 ++ e2)%list.
    now rewrite E2, E1, app_assoc.
Qed.

Lemma grows_tryCatch {A : Type} (m : M A) (h : string -> M A) :
  grows m -> (forall err, grows (h err)) -> grows (tryCatch m h).
Proof.
  intros Gm Gh w. unfold tryCatch. destruct (Gm w) as [e1 E1].
  destruct (m w) as [[err | a] w1]; cbn [snd] in *.
  - destruct (Gh err w1) as [e2 E2]. exists (e1 ++ e2)%list.
    now rewrite E2, E1, app_assoc.
  - now exists e1.
Qed.

Ltac grows_step :=
  first
    [ apply grows_ret | apply grows_throw | apply grows_emit
    | apply grows_setStatusBar | apply grows_withCache
    | apply grows_bind | apply grows_tryCatch
    | match goal with
      | |- grows (match ?x with _ => _ end) => destruct x
      | |- forall _, _ => intro
      end ].

Ltac grows_auto := repeat grows_step.

Lemma grows_getBlameData (env : Env) (filePath fileContent : string) :
  grows (getBlameData env filePath fileContent).
Proof.
  unfold getBlameData, gitIsFileTracked, gitIsFileModified, createTempFile,
    gitGetBlame.
  grows_auto.
Qed.

Lemma grows_updateStatusBar (cs : list ContributorMetrics) :
  grows (updateStatusBar cs).
Proof. unfold updateStatusBar. grows_auto. Qed.

Lemma grows_navigateTo (env : Env) (filePath fileContent label : string) :
  grows (navigateTo env filePath fileContent label).
Proof.
  unfold navigateTo. grows_auto.
Qed.

Ltac grows_all :=
  repeat first
    [ apply grows_updateStatusBar | apply grows_getBlameData
    | apply grows_navigateTo | grows_step ].

(** *** Runs of the pipeline, step by step *)

(** The content handed to [git blame --contents]: the editor's text when
    the file is untracked or modified. *)
Definition substitute (env : Env) (filePath fileContent : string)
  : option string :=
  if negb (isFileTracked env filePath) || isFileModified env filePath
  then Some fileContent else None.

(** What [getBlameData] does when nothing throws. *)
Definition blameEvents (env : Env) (filePath fileContent : string)
  : list Event :=
  GitLsFiles filePath :: GitStatus filePath ::
  match substitute env filePath fileContent with
  | Some c => [WriteTempFile c; GitBlame filePath (Some c); UnlinkTempFile]
  | None => [GitBlame filePath None]
  end.

(** The key [updateContributors] and [showContributors] compute. *)
Definition fingerprint (env : Env) (editor : Editor) : string :=
  getCacheKey (statSync env) (fsPath editor) (getText editor).

(** The status bar [updateStatusBar] leaves. *)
Definition statusBarOf (contributors : list ContributorMetrics)
  : StatusBarItem :=
  statusBarItem (snd (updateStatusBar contributors initialWorld)).

(** The status bar of a file over the size limit. *)
Definition fileTooLarge (bytes maxSizeKB : Z) : StatusBarItem :=
  mkStatusBarItem "Top: File too large"
    ("File size (" ++ numberToString ((bytes + 512) / 1024)
     ++ "KB) exceeds limit (" ++ numberToString maxSizeKB ++ "KB)").

Ltac run :=
  cbv beta iota zeta delta
    [bind ret throw tryCatch emit setStatusBar withCache
     gitIsInGitRepository gitIsFileTracked gitIsFileModified gitGetBlame
     createTempFile];
  cbn [cache statusBarItem log fst snd negb].

Lemma updateStatusBar_run (cs : list ContributorMetrics) (w : World) :
  updateStatusBar cs w = (inr tt, mkWorld (cache w) (statusBarOf cs) (log w)).
Proof. unfold statusBarOf, updateStatusBar. destruct cs; reflexivity. Qed.

Lemma getBlameData_run (env : Env) (filePath fileContent stdout : string)
  (w : World) :
  (substitute env filePath fileContent <> None ->
   writeFileSync env fileContent = None) ->
  getBlame env filePath (substitute env filePath fileContent) = inr stdout ->
  getBlameData env filePath fileContent w =
    (inr (parseBlameOutput stdout fileContent),
     mkWorld (cache w) (statusBarItem w)
             (log w ++ blameEvents env filePath fileContent)).
Proof.
  unfold substitute, blameEvents, getBlameData, substitute. intros T B. run.
  destruct (negb (isFileTracked env filePath) || isFileModified env filePath).
  - run. rewrite T by discriminate. run. rewrite B. run.
    rewrite <- !app_assoc. reflexivity.
  - run. rewrite B. run. rewrite <- !app_assoc. reflexivity.
Qed.

Lemma get_after_set (now1 now2 ttl : Z) (key : string)
  (d : list ContributorMetrics) (c : ContributorCache) :
  now2 - now1 <= ttl ->
  Cache.get now2 key (Cache.set now1 key d ttl c) =
    (Some d, Cache.set now1 key d ttl c).
Proof.
  intros F. unfold Cache.get, Cache.set.
  rewrite get_set_same. cbn [Cache.ttl timestamp data].
  apply Z.ltb_ge in F. now rewrite F.
Qed.

(** A request for a file over the limit: the status bar says so, and
    neither git nor the cache is touched. *)
Lemma updateContributors_too_large (env : Env) (editor : Editor) (w : World) :
  1024 * maxFileSizeKB env < byteLength (getText editor) ->
  updateContributors env editor w =
    (inr tt,
     mkWorld (cache w)
             (fileTooLarge (byteLength (getText editor)) (maxFileSizeKB env))
             (log w)).
Proof.
  intros L. apply Z.ltb_lt in L. unfold updateContributors.
  rewrite L. reflexivity.
Qed.

(** A request served from the cache: the only call to git is the
    repository check. *)
Lemma updateContributors_hit (env : Env) (editor : Editor)
  (cs : list ContributorMetrics) (w : World) :
  byteLength (getText editor) <= 1024 * maxFileSizeKB env ->
  isInGitRepository env (fsPath editor) = true ->
  Cache.get (nowAtGet env) (fingerprint env editor) (cache w)
    = (Some cs, cache w) ->
  updateContributors env editor w =
    (inr tt,
     mkWorld (cache w) (statusBarOf cs)
             (log w ++ [GitRevParse (fsPath editor)])).
Proof.
  intros L R H. apply Z.ltb_ge in L. unfold updateContributors, fingerprint in *.
  rewrite L. run. rewrite R. run. rewrite H. run.
  rewrite updateStatusBar_run. reflexivity.
Qed.

(** A request that misses the cache and whose blame succeeds: git is
    asked for the blame, and the result is stored and shown. *)
Lemma updateContributors_miss (env : Env) (editor : Editor) (stdout : string)
  (c' : ContributorCache) (w : World) :
  byteLength (getText editor) <= 1024 * maxFileSizeKB env ->
  isInGitRepository env (fsPath editor) = true ->
  Cache.get (nowAtGet env) (fingerprint env editor) (cache w) = (None, c') ->
  (substitute env (fsPath editor) (getText editor) <> None ->
   writeFileSync env (getText editor) = None) ->
  getBlame env (fsPath editor)
           (substitute env (fsPath editor) (getText editor)) = inr stdout ->
  let contributors :=
    calculateContributions (metricsConfig env)
      (parseBlameOutput stdout (getText editor)) in
  updateContributors env editor w =
    (inr tt,
     mkWorld (Cache.set (nowAtSet env) (fingerprint env editor) contributors
                        defaultTTL c')
             (statusBarOf contributors)
             (log w ++ GitRevParse (fsPath editor)
                       :: blameEvents env (fsPath editor) (getText editor))).
Proof.
  intros L R H T B contributors.
  apply Z.ltb_ge in L. unfold updateContributors, fingerprint in *.
  rewrite L. run. rewrite R. run. rewrite H. run.
  rewrite (getBlameData_run env _ _ stdout _ T B). run.
  rewrite updateStatusBar_run. cbn [cache statusBarItem log].
  rewrite <- app_assoc. reflexivity.
Qed.

(** *** C2 *)

(** C2. Two requests for the same path and content.  The first one
    misses the cache and its blame succeeds.  When the second one
    starts, the cache still holds, under the fingerprint, what the first
    one stored there: whatever happened in between has neither
    invalidated nor evicted nor replaced that entry.  The second one
    computes the same fingerprint (the file has the same modification
    time and size), is still within the size limit and inside a
    repository, and reads the cache no more than the time to live (30 s)
    after the first one stored its result.  Then the second request
    finds in the cache the metrics the first one computed, shows them as
    the first one did, leaves the cache as it is, and calls git only for
    the repository check: no blame is run again. *)
Theorem second_request_served_from_cache
  (env1 env2 : Env) (editor : Editor) (stdout : string)
  (c' : ContributorCache) (w0 later : World) :
  byteLength (getText editor) <= 1024 * maxFileSizeKB env1 ->
  isInGitRepository env1 (fsPath editor) = true ->
  Cache.get (nowAtGet env1) (fingerprint env1 editor) (cache w0) = (None, c') ->
  (substitute env1 (fsPath editor) (getText editor) <> None ->
   writeFileSync env1 (getText editor) = None) ->
  getBlame env1 (fsPath editor)
           (substitute env1 (fsPath editor) (getText editor)) = inr stdout ->
  byteLength (getText editor) <= 1024 * maxFileSizeKB env2 ->
  isInGitRepository env2 (fsPath editor) = true ->
  statSync env2 (fsPath editor) = statSync env1 (fsPath editor) ->
  nowAtGet env2 - nowAtSet env1 <= defaultTTL ->
  let contributors :=
    calculateContributions (metricsConfig env1)
      (parseBlameOutput stdout (getText editor)) in
  let w1 := snd (updateContributors env1 editor w0) in
  JSMap.get (fingerprint env1 editor) (cache later)
    = JSMap.get (fingerprint env1 editor) (cache w1) ->
  let w2 := snd (updateContributors env2 editor later) in
  statusBarItem w1 = statusBarOf contributors
  /\ JSMap.get (fingerprint env1 editor) (cache w1)
       = Some (mkCacheEntry contributors (nowAtSet env1) defaultTTL)
  /\ Cache.get (nowAtGet env2) (fingerprint env2 editor) (cache later)
       = (Some contributors, cache later)
  /\ statusBarItem w2 = statusBarOf contributors
  /\ cache w2 = cache later
  /\ log w2 = (log later ++ [GitRevParse (fsPath editor)])%list
  /\ List.filter isBlameCall (log w2) = List.filter isBlameCall (log later).
Proof.
  intros L1 R1 H1 T1 B1 L2 R2 S F contributors w1 Held w2.
  assert (K : fingerprint env2 editor = fingerprint env1 editor).
  { unfold fingerprint, getCacheKey. now rewrite S. }
  assert (E1 := updateContributors_miss env1 editor stdout c' w0 L1 R1 H1 T1 B1).
  cbv zeta in E1. fold contributors in E1.
  assert (Stored : JSMap.get (fingerprint env1 editor) (cache w1)
                   = Some (mkCacheEntry contributors (nowAtSet env1)
                                        defaultTTL)).
  { unfold w1. rewrite E1. cbn [snd cache]. unfold Cache.set.
    apply get_set_same. }
  assert (G : Cache.get (nowAtGet env2) (fingerprint env2 editor) (cache later)
              = (Some contributors, cache later)).
  { unfold Cache.get. rewrite K, Held, Stored. cbn [Cache.ttl timestamp data].
    apply Z.ltb_ge in F. now rewrite F. }
  assert (E2 := updateContributors_hit env2 editor contributors later L2 R2 G).
  assert (B : statusBarItem w1 = statusBarOf contributors).
  { unfold w1. now rewrite E1. }
  unfold w2. rewrite E2. cbn [snd cache statusBarItem log].
  repeat split; try reflexivity; auto.
  rewrite filter_app. cbn [List.filter isBlameCall]. apply app_nil_r.
Qed.

(** *** What a request is bound to do first *)

Lemma bind_inr {A B : Type} (m : M A) (k : A -> M B) (w w1 : World) (a : A) :
  m w = (inr a, w1) -> bind m k w = k a w1.
Proof. intros E. unfold bind. now rewrite E. Qed.

Lemma prefix_bind {A B : Type} (m : M A) (k : A -> M B) (w : World)
  (l : list Event) :
  (exists rest, log (snd (m w)) = (l ++ rest)%list) ->
  (forall a, grows (k a)) ->
  exists rest, log (snd (bind m k w)) = (l ++ rest)%list.
Proof.
  intros [r E] G. unfold bind.
  destruct (m w) as [[err | a] w1]; cbn [snd] in *.
  - now exists r.
  - destruct (G a w1) as [r' E']. exists (r ++ r')%list.
    now rewrite E', E, app_assoc.
Qed.

Lemma prefix_tryCatch {A : Type} (m : M A) (h : string -> M A) (w : World)
  (l : list Event) :
  (exists rest, log (snd (m w)) = (l ++ rest)%list) ->
  (forall err, grows (h err)) ->
  exists rest, log (snd (tryCatch m h w)) = (l ++ rest)%list.
Proof.
  intros [r E] G. unfold tryCatch.
  destruct (m w) as [[err | a] w1]; cbn [snd] in *.
  - destruct (G err w1) as [r' E']. exists (r ++ r')%list.
    now rewrite E', E, app_assoc.
  - now exists r.
Qed.

(** When the temporary file can be written, [getBlameData] gets as far
    as running the blame, whatever the blame answers. *)
Lemma getBlameData_calls_blame (env : Env) (filePath fileContent : string)
  (w : World) :
  (substitute env filePath fileContent <> None ->
   writeFileSync env fileContent = None) ->
  exists rest,
    log (snd (getBlameData env filePath fileContent w)) =
    (log w ++ blameEvents env filePath fileContent ++ rest)%list.
Proof.
  unfold substitute, blameEvents, getBlameData, substitute. intros T. run.
  destruct (negb (isFileTracked env filePath) || isFileModified env filePath).
  - run. rewrite T by discriminate. run.
    destruct (getBlame env filePath (Some fileContent)); run;
      exists []; rewrite <- !app_assoc; reflexivity.
  - run. destruct (getBlame env filePath None); run.
    + exists []. rewrite <- !app_assoc. reflexivity.
    + exists []. rewrite <- !app_assoc. reflexivity.
Qed.


(** The same for the command: it asks git whether the file is in a
    repository and, on a miss, runs the blame.  The size of the file is
    not read. *)
Lemma showContributors_miss_calls_blame (env : Env) (editor : Editor)
  (c' : ContributorCache) (w : World) :
  activeTextEditor env = Some editor ->
  isInGitRepository env (fsPath editor) = true ->
  Cache.get (nowAtGet env) (fingerprint env editor) (cache w) = (None, c') ->
  (substitute env (fsPath editor) (getText editor) <> None ->
   writeFileSync env (getText editor) = None) ->
  exists rest,
    log (snd (showContributors env w)) =
    (log w ++ (GitRevParse (fsPath editor)
               :: blameEvents env (fsPath editor) (getText editor)) ++ rest)%list.
Proof.
  intros A R H T.
  enough (exists rest,
            log (snd (showContributors env w)) =
            ((log w ++ GitRevParse (fsPath editor)
                       :: blameEvents env (fsPath editor) (getText editor))
             ++ rest)%list) as [r E]
    by (exists r; rewrite E; now rewrite <- app_assoc).
  unfold showContributors, fingerprint in *. rewrite A.
  apply prefix_tryCatch; [|intro; grows_all].
  rewrite (bind_inr _ _ w
             (mkWorld (cache w) (statusBarItem w)
                      (log w ++ [GitRevParse (fsPath editor)])) true)
    by (unfold gitIsInGitRepository; run; now rewrite R).
  cbn [negb].
  rewrite (bind_inr _ _ _
             (mkWorld c' (statusBarItem w)
                      (log w ++ [GitRevParse (fsPath editor)])) None)
    by (unfold withCache; cbn [cache]; now rewrite H).
  apply prefix_bind; [|intro; grows_all].
  apply prefix_bind; [|intro; grows_all].
  destruct (getBlameData_calls_blame env (fsPath editor) (getText editor)
              (mkWorld c' (statusBarItem w)
                       (log w ++ [GitRevParse (fsPath editor)])) T)
    as [rest E].
  exists rest. rewrite E. cbn [log]. rewrite <- !app_assoc. reflexivity.
Qed.

(** The size check of [updateContributors]: a file whose UTF-8 length
    exceeds [maxFileSizeKB] kilobytes ends the request with the status
    bar text "Top: File too large" and a tooltip that holds the size,
    rounded to a kilobyte, and the limit; the trace and the cache are
    left as they were, so no call to git is made. *)
Theorem size_check_short_circuits (env : Env) (editor : Editor) (w : World) :
  1024 * maxFileSizeKB env < byteLength (getText editor) ->
  let w' := snd (updateContributors env editor w) in
  text (statusBarItem w') = "Top: File too large"
  /\ tooltip (statusBarItem w') =
       "File size ("
       ++ numberToString ((byteLength (getText editor) + 512) / 1024)
       ++ "KB) exceeds limit (" ++ numberToString (maxFileSizeKB env) ++ "KB)"
  /\ log w' = log w
  /\ cache w' = cache w.
Proof.
  intros L w'. unfold w'.
  rewrite (updateContributors_too_large env editor w L).
  repeat split; reflexivity.
Qed.

(** The temporary file of [getBlameData].  When the file is untracked or
    modified the editor's text is written to a temporary file, the blame
    is run against it and the file is unlinked, whether the blame
    answers or throws; when the write itself throws there is nothing to
    unlink and no blame is run.  A tracked, unmodified file is blamed
    directly. *)
Theorem temp_file_unlinked (env : Env) (filePath fileContent : string)
  (w : World) :
  (substitute env filePath fileContent <> None ->
   writeFileSync env fileContent = None ->
   log (snd (getBlameData env filePath fileContent w)) =
   (log w ++ [ GitLsFiles filePath; GitStatus filePath;
               WriteTempFile fileContent;
               GitBlame filePath (Some fileContent); UnlinkTempFile ])%list)
  /\ (forall msg,
        substitute env filePath fileContent <> None ->
        writeFileSync env fileContent = Some msg ->
        getBlameData env filePath fileContent w =
        (inl msg,
         mkWorld (cache w) (statusBarItem w)
                 (log w ++ [ GitLsFiles filePath; GitStatus filePath;
                             WriteTempFile fileContent ])))
  /\ (substitute env filePath fileContent = None ->
      log (snd (getBlameData env filePath fileContent w)) =
      (log w ++ [ GitLsFiles filePath; GitStatus filePath;
                  GitBlame filePath None ])%list).
Proof.
  unfold substitute, getBlameData. run.
  destruct (negb (isFileTracked env filePath) || isFileModified env filePath).
  - split; [|split]; [intros _ T | intros msg _ T | discriminate];
      run; rewrite T; run.
    + destruct (getBlame env filePath (Some fileContent)); run;
        rewrite <- !app_assoc; reflexivity.
    + rewrite <- !app_assoc. reflexivity.
  - split; [|split]; [intros N; now elim N | intros msg N; now elim N|].
    intros _. run. destruct (getBlame env filePath None); run;
      rewrite <- !app_assoc; reflexivity.
Qed.

(** *** C9 *)

(** C9. A file over the size limit, in a repository, whose fingerprint is
    not in the cache.  [updateContributors] stops at the size check: the
    status bar says "File too large" with the rounded size and the limit,
    and neither git nor the cache is touched.  The command
    [showContributors] has no such check: it asks git whether the file is
    in a repository, then whether it is tracked and modified, and runs
    the blame. *)
Theorem command_ignores_size_limit (env : Env) (editor : Editor)
  (c' : ContributorCache) (w : World) :
  activeTextEditor env = Some editor ->
  1024 * maxFileSizeKB env < byteLength (getText editor) ->
  isInGitRepository env (fsPath editor) = true ->
  Cache.get (nowAtGet env) (fingerprint env editor) (cache w) = (None, c') ->
  (substitute env (fsPath editor) (getText editor) <> None ->
   writeFileSync env (getText editor) = None) ->
  updateContributors env editor w =
    (inr tt,
     mkWorld (cache w)
             (fileTooLarge (byteLength (getText editor)) (maxFileSizeKB env))
             (log w))
  /\ exists rest,
       log (snd (showContributors env w)) =
       (log w ++ (GitRevParse (fsPath editor)
                  :: blameEvents env (fsPath editor) (getText editor))
        ++ rest)%list.
Proof.
  intros A L R H T. split.
  - now apply updateContributors_too_large.
  - now apply (showContributors_miss_calls_blame env editor c').
Qed.

(** *** C3 *)


End PipelineFacts.

(** ** Runs on sample inputs *)

Module CacheRuns.
Import JS JSFacts Metrics Crypto Cache CacheFacts.

(** No file system: [statSync] throws for every path. *)
Definition noStat : string -> option Fs.Stats := fun _ => None.





(** The cache after [n] requests for [n] files, oldest first. *)
Fixpoint filled (n : nat) : ContributorCache :=
  match n with
  | O => JSMap.empty
  | S k =>
      Cache.set (Z.of_nat k)
        (getCacheKey noStat ("/repo/" ++ numberToString (Z.of_nat k)) "")
        [] defaultTTL (filled k)
  end.

Lemma filled_reachable (n : nat) : reachable (filled n).
Proof.
  induction n as [|k IH]; cbn [filled]; [constructor|].
  apply reach_set; [exact IH|].
  apply truthy_true_iff, getCacheKey_truthy.
Qed.

Lemma cache_size_bounded_witness :
  Cache.size (filled 100) <= maxCacheSize
  /\ forall now key d ttl,
       (Cache.size (filled 100) < maxCacheSize ->
        Cache.set now key d ttl (filled 100)
          = JSMap.set key (mkCacheEntry d now ttl) (filled 100))
       /\ (maxCacheSize <= Cache.size (filled 100) ->
           exists oldest rest,
             filled 100 = oldest :: rest /\
             Cache.set now key d ttl (filled 100)
               = JSMap.set key (mkCacheEntry d now ttl) rest)
       /\ Cache.size (Cache.set now key d ttl (filled 100)) <= maxCacheSize.
Proof. exact (cache_size_bounded (filled 100) (filled_reachable 100)). Defined.

(** One hundred and one distinct fingerprints leave one hundred entries:
    the first one stored is gone, the second one is now the oldest. *)
Lemma hundred_and_one_fingerprints :
  Cache.size (filled 100) = 100
  /\ Cache.size (filled 101) = 100
  /\ JSMap.firstKey (filled 100) = Some (getCacheKey noStat "/repo/0" "")
  /\ JSMap.firstKey (filled 101) = Some (getCacheKey noStat "/repo/1" "").
Proof. vm_compute. repeat split; reflexivity. Qed.

(** The key of [reach_set] must not be empty: the oldest key is tested
    for truth before it is deleted, and the empty string is false.  A
    cache whose oldest key is the empty string evicts nothing. *)
Lemma empty_key_is_never_evicted :
  let c := fold_left
             (fun c k => Cache.set 0 (numberToString (Z.of_nat k)) []
                                   defaultTTL c)
             (seq 0 100) (Cache.set 0 "" [] defaultTTL JSMap.empty) in
  Cache.size c = 101 /\ JSMap.firstKey c = Some "".
Proof. vm_compute. split; reflexivity. Qed.

End CacheRuns.

Module PipelineRuns.
Import JS JSFacts BlameParser Metrics Crypto Cache Extension.
Import CacheFacts PipelineFacts Samples.

(** The editor on [/repo/a.txt], holding one line by Alice. *)
Definition hello : Editor := mkEditor "/repo/a.txt" "hello world".

Definition helloBlame : string := block "1" 1 "Alice" "hello world".

(** A tracked, unmodified file in a repository; the limit, the editor's
    file, the blame output and the two clock readings vary. *)
Definition sampleEnv (maxSizeKB : Z) (editor : Editor) (blame : string)
  (nowGet nowSet : Z) : Env :=
  mkEnv maxSizeKB defaultConfig
        (fun _ => Some (Fs.mkStats 1700000000000
                                   (byteLength (getText editor))))
        (fun _ => None)
        (fun _ => true) (fun _ => true) (fun _ => false)
        (fun _ _ => inr blame)
        nowGet nowSet (Some editor) (fun _ => None).

Definition helloMetrics : list ContributorMetrics :=
  [ mkContributorMetrics "Alice" 1 11 100 ].

(** Another file of the repository, and the request for it. *)
Definition readme : Editor := mkEditor "/repo/README.md" "read me".

Definition readmeBlame : string := block "2" 1 "Bob" "read me".

Lemma second_request_served_from_cache_witness :
  let env1 := sampleEnv 2048 hello helloBlame 1000 1005 in
  let between := sampleEnv 2048 readme readmeBlame 5000 5005 in
  let env2 := sampleEnv 2048 hello helloBlame 31000 31005 in
  let w1 := snd (updateContributors env1 hello initialWorld) in
  let later := snd (updateContributors between readme w1) in
  let w2 := snd (updateContributors env2 hello later) in
  statusBarItem w1 = statusBarOf helloMetrics
  /\ JSMap.get (fingerprint env1 hello) (cache w1)
       = Some (mkCacheEntry helloMetrics 1005 defaultTTL)
  /\ Cache.get (nowAtGet env2) (fingerprint env2 hello) (cache later)
       = (Some helloMetrics, cache later)
  /\ statusBarItem w2 = statusBarOf helloMetrics
  /\ cache w2 = cache later
  /\ log w2 = (log later ++ [GitRevParse (fsPath hello)])%list
  /\ List.filter isBlameCall (log w2) = List.filter isBlameCall (log later).
Proof.
  exact (second_request_served_from_cache
           (sampleEnv 2048 hello helloBlame 1000 1005)
           (sampleEnv 2048 hello helloBlame 31000 31005)
           hello helloBlame JSMap.empty initialWorld
           (snd (updateContributors
                   (sampleEnv 2048 readme readmeBlame 5000 5005) readme
                   (snd (updateContributors
                           (sampleEnv 2048 hello helloBlame 1000 1005)
                           hello initialWorld))))
           ltac:(vm_compute; discriminate) eq_refl eq_refl
           (fun _ => eq_refl) eq_refl
           ltac:(vm_compute; discriminate) eq_refl eq_refl
           ltac:(vm_compute; discriminate)
           ltac:(vm_compute; reflexivity)).
Defined.

(** C2, as stated, fails.  Two requests for the same path and content,
    with the same fingerprint and no invalidation in between; the second
    one reads the cache 30001 ms after the first one stored its result.
    The entry has expired: it is deleted and the blame is run again. *)
Lemma second_request_after_ttl_runs_blame :
  let env1 := sampleEnv 2048 hello helloBlame 1000 1005 in
  let env2 := sampleEnv 2048 hello helloBlame 31006 31010 in
  let w1 := snd (updateContributors env1 hello initialWorld) in
  let w2 := snd (updateContributors env2 hello w1) in
  fingerprint env2 hello = fingerprint env1 hello
  /\ log w1 = [ GitRevParse "/repo/a.txt"; GitLsFiles "/repo/a.txt";
                GitStatus "/repo/a.txt"; GitBlame "/repo/a.txt" None ]
  /\ JSMap.get (fingerprint env1 hello) (cache w1)
       = Some (mkCacheEntry helloMetrics 1005 30000)
  /\ Cache.get (nowAtGet env2) (fingerprint env2 hello) (cache w1)
       = (None, [])
  /\ log w2 = (log w1 ++
               [ GitRevParse "/repo/a.txt"; GitLsFiles "/repo/a.txt";
                 GitStatus "/repo/a.txt"; GitBlame "/repo/a.txt" None ])%list
  /\ List.length (List.filter isBlameCall (log w2)) = 2%nat.
Proof. vm_compute. repeat split; reflexivity. Qed.

(** One hundred requests for other files between the two: the entry of
    the first request, the oldest, is evicted by the last of them, and
    the second request, well within the time to live, runs the blame
    again. *)
Definition fileNo (i : nat) : Editor :=
  mkEditor ("/repo/f" ++ numberToString (Z.of_nat i)) "x".

Lemma second_request_after_eviction_runs_blame :
  let env1 := sampleEnv 2048 hello helloBlame 1000 1005 in
  let env2 := sampleEnv 2048 hello helloBlame 21000 21005 in
  let w1 := snd (updateContributors env1 hello initialWorld) in
  let later :=
    fold_left
      (fun w i =>
         snd (updateContributors
                (sampleEnv 2048 (fileNo i) (block "2" 1 "Bob" "x") 2000 2005)
                (fileNo i) w))
      (seq 0 100) w1 in
  let w2 := snd (updateContributors env2 hello later) in
  JSMap.get (fingerprint env1 hello) (cache w1)
    = Some (mkCacheEntry helloMetrics 1005 30000)
  /\ Cache.size (cache later) = 100
  /\ JSMap.get (fingerprint env1 hello) (cache later) = None
  /\ fingerprint env2 hello = fingerprint env1 hello
  /\ nowAtGet env2 - nowAtSet env1 = 19995
  /\ List.length (List.filter isBlameCall (log later)) = 101%nat
  /\ List.length (List.filter isBlameCall (log w2)) = 102%nat.
Proof. vm_compute. repeat split; reflexivity. Qed.

(** A file of 3000 bytes, under a limit of 2 KB. *)
Definition large : Editor :=
  mkEditor "/repo/large.txt" (string_of_list_ascii (repeat "x"%char 3000)).

Definition largeBlame : string :=
  block "1" 1 "Alice" (getText large).

Lemma command_ignores_size_limit_witness :
  let env := sampleEnv 2 large largeBlame 1000 1005 in
  updateContributors env large initialWorld =
    (inr tt,
     mkWorld (cache initialWorld)
             (fileTooLarge (byteLength (getText large)) (maxFileSizeKB env))
             (log initialWorld))
  /\ exists rest,
       log (snd (showContributors env initialWorld)) =
       (log initialWorld
        ++ (GitRevParse (fsPath large)
            :: blameEvents env (fsPath large) (getText large))
        ++ rest)%list.
Proof.
  exact (command_ignores_size_limit
           (sampleEnv 2 large largeBlame 1000 1005) large JSMap.empty
           initialWorld eq_refl ltac:(vm_compute; reflexivity) eq_refl eq_refl
           (fun _ => eq_refl)).
Defined.

(** The two entry points on the file of 3000 bytes: the status bar
    refuses it, the command blames it and offers the ranking. *)
Lemma large_file_runs :
  let env := sampleEnv 2 large largeBlame 1000 1005 in
  statusBarItem (snd (updateContributors env large initialWorld))
    = mkStatusBarItem "Top: File too large"
                      "File size (3KB) exceeds limit (2KB)"
  /\ log (snd (updateContributors env large initialWorld)) = []
  /\ log (snd (showContributors env initialWorld)) =
       [ GitRevParse "/repo/large.txt"; GitLsFiles "/repo/large.txt";
         GitStatus "/repo/large.txt"; GitBlame "/repo/large.txt" None;
         ShowQuickPick [("Alice", "100% (1 lines)")] ].
Proof. vm_compute. repeat split; reflexivity. Qed.

Lemma size_check_short_circuits_witness :
  let env := sampleEnv 2 large largeBlame 1000 1005 in
  let w' := snd (updateContributors env large initialWorld) in
  text (statusBarItem w') = "Top: File too large"
  /\ tooltip (statusBarItem w') =
       "File size ("
       ++ numberToString ((byteLength (getText large) + 512) / 1024)
       ++ "KB) exceeds limit (" ++ numberToString (maxFileSizeKB env) ++ "KB)"
  /\ log w' = log initialWorld
  /\ cache w' = cache initialWorld.
Proof.
  exact (size_check_short_circuits
           (sampleEnv 2 large largeBlame 1000 1005) large initialWorld
           ltac:(vm_compute; reflexivity)).
Defined.

(** The scenario of one block: the revision line, the author Alice and
    the content line "hello world", against a file of that one line. *)
Definition oneBlock : string :=
  string_of_list_ascii (repeat "a"%char 39) ++ "1 1 1 1" ++ nl
  ++ "author Alice" ++ nl
  ++ contentLine "hello world".

Lemma scenario_one_block :
  parseBlameOutput oneBlock "hello world"
    = [ mkBlameLineData "Alice" 1 "hello world" ]
  /\ calculateContributions defaultConfig
       (parseBlameOutput oneBlock "hello world")
     = [ mkContributorMetrics "Alice" 1 11 100 ].
Proof. vm_compute. split; reflexivity. Qed.

(** A modified file: the editor's text goes to [git blame --contents]
    through a temporary file, which is unlinked afterwards. *)
Definition dirtyEnv : Env :=
  mkEnv 2048 defaultConfig (fun _ => None) (fun _ => None)
        (fun _ => true) (fun _ => true) (fun _ => true)
        (fun _ _ => inl "Git blame timeout")
        1000 1005 (Some hello) (fun _ => None).

Lemma temp_file_unlinked_run :
  getBlameData dirtyEnv "/repo/a.txt" "hello world" initialWorld =
  (inl "Git blame timeout",
   mkWorld JSMap.empty (statusBarItem initialWorld)
           [ GitLsFiles "/repo/a.txt"; GitStatus "/repo/a.txt";
             WriteTempFile "hello world";
             GitBlame "/repo/a.txt" (Some "hello world"); UnlinkTempFile ]).
Proof. reflexivity. Qed.

End PipelineRuns.

(** ** The grouping by author *)

Module GroupingFacts.
Import JS BlameParser Metrics MetricsFacts PercentageFacts JSMapFacts.

(** The lines attributed to [a]. *)
Definition linesBy (a : string) (blameData : list BlameLineData)
  : list BlameLineData :=
  List.filter (fun r => String.eqb (BlameParser.author r) a) blameData.

(** The total length of the contents of a list of lines. *)
Definition contentLength (blameData : list BlameLineData) : Z :=
  sumZ (List.map (fun r => Z.of_nat (String.length (content r))) blameData).

(** What the grouping loop leaves under an author's key: the count it
    found there, raised by that author's lines. *)
Definition raised (found : option Stats) (mine : list BlameLineData)
  : option Stats :=
  match mine with
  | [] => found
  | _ =>
      let existing := match found with Some e => e | None => mkStats 0 0 end in
      Some (mkStats (s_lines existing + Z.of_nat (List.length mine))
                    (s_characters existing + contentLength mine))
  end.

Lemma get_set_other {V : Type} (k k' : string) (v : V) (m : JSMap.t V) :
  k <> k' -> JSMap.get k' (JSMap.set k v m) = JSMap.get k' m.
Proof.
  intros N. induction m as [|[k0 v0] m IH]; cbn [JSMap.set JSMap.get].
  - destruct (String.eqb_spec k k'); [contradiction | reflexivity].
  - destruct (String.eqb_spec k0 k) as [-> | N0]; cbn [JSMap.get].
    + destruct (String.eqb_spec k k'); [contradiction | reflexivity].
    + destruct (String.eqb k0 k'); [reflexivity | exact IH].
Qed.

Lemma contentLength_app (l1 l2 : list BlameLineData) :
  contentLength (l1 ++ l2) = contentLength l1 + contentLength l2.
Proof. unfold contentLength. now rewrite map_app, sumZ_app. Qed.

Lemma raised_app (found : option Stats) (l1 l2 : list BlameLineData) :
  raised (raised found l1) l2 = raised found (l1 ++ l2).
Proof.
  destruct l1 as [|x l1]; [reflexivity|].
  destruct l2 as [|y l2]; [now rewrite app_nil_r|].
  set (a := (x :: l1)). set (b := (y :: l2)).
  assert (E : raised found (a ++ b) =
              Some (mkStats
                      (s_lines (match found with Some e => e | None => mkStats 0 0 end)
                       + Z.of_nat (List.length (a ++ b)))
                      (s_characters (match found with Some e => e | None => mkStats 0 0 end)
                       + contentLength (a ++ b)))) by reflexivity.
  rewrite E, contentLength_app, length_app.
  unfold a at 1, b at 1. unfold raised. cbn [s_lines s_characters].
  fold a b. f_equal. f_equal; lia.
Qed.

Lemma addLine_get (cfg : Config) (m : JSMap.t Stats) (l : BlameLineData)
  (a : string) :
  JSMap.get a (addLine cfg m l) =
  raised (JSMap.get a m) (linesBy a (counted cfg [l])).
Proof.
  unfold addLine, counted, linesBy. cbn [List.filter].
  destruct (ignoreBlankLines cfg && isBlankLine (content l));
    cbn [negb List.filter]; [reflexivity|].
  destruct (String.eqb_spec (BlameParser.author l) a) as [-> | N].
  - rewrite get_set_same. unfold raised, contentLength.
    cbn [List.length List.map sumZ fold_right s_lines s_characters].
    destruct (JSMap.get a m); f_equal; f_equal; lia.
  - rewrite get_set_other by exact N. reflexivity.
Qed.

Lemma fold_addLine_get (cfg : Config) (d : list BlameLineData)
  (m : JSMap.t Stats) (a : string) :
  JSMap.get a (fold_left (addLine cfg) d m) =
  raised (JSMap.get a m) (linesBy a (counted cfg d)).
Proof.
  revert m. induction d as [|l d IH]; intros m; [reflexivity|].
  cbn [fold_left]. rewrite IH, addLine_get, raised_app.
  f_equal. unfold linesBy, counted.
  change (l :: d) with ([l] ++ d)%list. now rewrite !filter_app.
Qed.

(** The value the grouping loop leaves under the key [a]. *)
Lemma groupByAuthor_get (cfg : Config) (d : list BlameLineData) (a : string) :
  JSMap.get a (groupByAuthor cfg d) = raised None (linesBy a (counted cfg d)).
Proof. apply fold_addLine_get. Qed.

Lemma groupByAuthor_NoDup (cfg : Config) (d : list BlameLineData) :
  NoDup (JSMap.keys (groupByAuthor cfg d)).
Proof.
  unfold groupByAuthor.
  assert (G : forall m, NoDup (JSMap.keys m) ->
                NoDup (JSMap.keys (fold_left (addLine cfg) d m))).
  { induction d as [|l d IH]; intros m N; cbn [fold_left]; [exact N|].
    apply IH. unfold addLine.
    destruct (ignoreBlankLines cfg && isBlankLine (content l)); [exact N|].
    now apply NoDup_keys_set. }
  apply G. constructor.
Qed.

Lemma get_of_entry {V : Type} (k : string) (v : V) (m : JSMap.t V) :
  NoDup (JSMap.keys m) -> In (k, v) m -> JSMap.get k m = Some v.
Proof.
  induction m as [|[k0 v0] m IH]; cbn [JSMap.keys List.map fst In JSMap.get];
    [intros _ []|].
  intros N I. inversion N as [|? ? N1 N2]; subst.
  destruct I as [[= -> ->] | I].
  - now rewrite String.eqb_refl.
  - destruct (String.eqb_spec k0 k) as [-> | _].
    + exfalso. apply N1. change k with (fst (k, v)). now apply in_map.
    + now apply IH.
Qed.

(** Every entry returned stems from an entry of the map. *)
Lemma entry_origin (cfg : Config) (d : list BlameLineData)
  (m : ContributorMetrics) :
  In m (calculateContributions cfg d) ->
  JSMap.get (author m) (groupByAuthor cfg d)
  = Some (mkStats (lines m) (characters m)).
Proof.
  intros I. destruct d as [|l d]; [destruct I|].
  apply (Permutation_in _
           (calculateContributions_perm cfg (l :: d) ltac:(discriminate)))
    in I.
  apply in_map_iff in I. destruct I as ([a st] & <- & I).
  unfold toMetric. cbn [fst snd author lines characters].
  destruct st as [n c]. cbn [s_lines s_characters].
  apply get_of_entry; [apply groupByAuthor_NoDup | exact I].
Qed.

Lemma authors_perm (cfg : Config) (d : list BlameLineData) :
  Permutation (List.map author (calculateContributions cfg d))
              (JSMap.keys (groupByAuthor cfg d)).
Proof.
  destruct d as [|l d]; [reflexivity|].
  rewrite (Permutation_map author
             (calculateContributions_perm cfg (l :: d) ltac:(discriminate))).
  unfold JSMap.keys. rewrite map_map. reflexivity.
Qed.

Lemma key_iff_get {V : Type} (k : string) (m : JSMap.t V) :
  In k (JSMap.keys m) <-> JSMap.get k m <> None.
Proof.
  induction m as [|[k0 v0] m IH]; cbn [JSMap.keys List.map fst In JSMap.get].
  - split; [intros [] | congruence].
  - destruct (String.eqb_spec k0 k) as [-> | N].
    + split; [discriminate | now left].
    + rewrite <- IH. unfold JSMap.keys. split; [intros [E | I] | now right];
        [contradiction | exact I].
Qed.

Lemma raised_none (mine : list BlameLineData) :
  raised None mine <> None <-> mine <> [].
Proof. destruct mine; cbn; split; congruence. Qed.

(** One entry per author: the authors of the entries returned are
    pairwise distinct, and they are the authors of the lines counted. *)
Theorem one_entry_per_author (cfg : Config) (blameData : list BlameLineData) :
  NoDup (List.map author (calculateContributions cfg blameData))
  /\ forall a,
       In a (List.map author (calculateContributions cfg blameData)) <->
       exists r, In r (counted cfg blameData) /\ BlameParser.author r = a.
Proof.
  split.
  - apply (Permutation_NoDup (Permutation_sym (authors_perm cfg blameData))).
    apply groupByAuthor_NoDup.
  - intros a. split.
    + intros I. apply (Permutation_in _ (authors_perm cfg blameData)) in I.
      apply key_iff_get in I. rewrite groupByAuthor_get in I.
      apply raised_none in I.
      destruct (linesBy a (counted cfg blameData)) as [|r rest] eqn:E;
        [congruence|].
      assert (J : In r (linesBy a (counted cfg blameData)))
        by (rewrite E; now left).
      apply filter_In in J. destruct J as [J1 J2].
      exists r. split; [exact J1 | now apply String.eqb_eq].
    + intros (r & I & <-).
      apply (Permutation_in _ (Permutation_sym (authors_perm cfg blameData))).
      apply key_iff_get. rewrite groupByAuthor_get. apply raised_none.
      intros E.
      assert (J : In r (linesBy (BlameParser.author r) (counted cfg blameData))).
      { apply filter_In. split; [exact I | apply String.eqb_refl]. }
      rewrite E in J. destruct J.
Qed.

(** The counts of an entry: [lines] is the number of lines counted for its
    author, at least one, and [characters] the total length of their
    contents. *)
Theorem entry_counts (cfg : Config) (blameData : list BlameLineData)
  (m : ContributorMetrics) :
  In m (calculateContributions cfg blameData) ->
  let mine := linesBy (author m) (counted cfg blameData) in
  lines m = Z.of_nat (List.length mine)
  /\ characters m = contentLength mine
  /\ 1 <= lines m.
Proof.
  intros I. cbv zeta. pose proof (entry_origin cfg blameData m I) as G.
  rewrite groupByAuthor_get in G.
  destruct (linesBy (author m) (counted cfg blameData)) as [|r rest];
    [discriminate|].
  unfold raised in G. cbn [s_lines s_characters] in G.
  assert (L : 1 <= Z.of_nat (List.length (r :: rest)))
    by (cbn [List.length]; lia).
  revert G L. generalize (Z.of_nat (List.length (r :: rest))).
  intros n [= G1 G2] L. repeat split; lia.
Qed.

Lemma addLine_characters (cfg : Config) (m : JSMap.t Stats)
  (l : BlameLineData) :
  sumZ (List.map s_characters (JSMap.values (addLine cfg m l))) =
  sumZ (List.map s_characters (JSMap.values m)) + contentLength (counted cfg [l]).
Proof.
  unfold addLine, counted, contentLength. cbn [List.filter].
  destruct (ignoreBlankLines cfg && isBlankLine (content l));
    cbn [negb List.map sumZ fold_right].
  - lia.
  - rewrite sum_set. cbn [s_characters].
    destruct (JSMap.get (BlameParser.author l) m); cbn [s_characters]; lia.
Qed.

Lemma group_characters (cfg : Config) (d : list BlameLineData)
  (m : JSMap.t Stats) :
  sumZ (List.map s_characters (JSMap.values (fold_left (addLine cfg) d m))) =
  sumZ (List.map s_characters (JSMap.values m)) + contentLength (counted cfg d).
Proof.
  revert m. induction d as [|l d IH]; intros m;
    [unfold contentLength, counted;
     cbn [fold_left List.filter List.map sumZ fold_right]; lia|].
  cbn [fold_left]. rewrite IH, addLine_characters.
  change (l :: d) with ([l] ++ d)%list.
  unfold counted, contentLength. rewrite filter_app, map_app, sumZ_app. lia.
Qed.

(** The [characters] of the entries add up to the total length of the
    contents of the lines counted. *)
Theorem characters_sum (cfg : Config) (blameData : list BlameLineData) :
  sumZ (List.map characters (calculateContributions cfg blameData)) =
  contentLength (counted cfg blameData).
Proof.
  destruct blameData as [|l d]; [reflexivity|].
  rewrite (sumZ_perm _ _
             (Permutation_map characters
                (calculateContributions_perm cfg (l :: d) ltac:(discriminate)))).
  replace (List.map characters
             (List.map (toMetric cfg (totalOf s_lines (groupByAuthor cfg (l :: d)))
                          (totalOf s_characters (groupByAuthor cfg (l :: d))))
                (groupByAuthor cfg (l :: d))))
    with (List.map s_characters (JSMap.values (groupByAuthor cfg (l :: d))))
    by (unfold JSMap.values; rewrite !map_map; reflexivity).
  unfold groupByAuthor. rewrite group_characters. reflexivity.
Qed.

(** *** The entry at the head *)

Lemma output_empty_iff (cfg : Config) (d : list BlameLineData) :
  calculateContributions cfg d = [] <-> counted cfg d = [].
Proof.
  split.
  - intros E. pose proof (lines_sum_counted cfg d) as S. rewrite E in S.
    cbn [List.map sumZ fold_right] in S.
    destruct (counted cfg d); [reflexivity | cbn [List.length] in S; lia].
  - intros E. destruct (calculateContributions cfg d) as [|m rest] eqn:O;
      [reflexivity|].
    assert (I : In m (calculateContributions cfg d)) by (rewrite O; now left).
    pose proof (entry_origin cfg d m I) as G.
    rewrite groupByAuthor_get, E in G. discriminate G.
Qed.

(** [getTopContributor] on the aggregator's result is [null] exactly when
    no line was counted; otherwise it is an entry whose count in the
    active mode no other entry exceeds. *)
Theorem top_contributor_leads (cfg : Config) (blameData : list BlameLineData) :
  (getTopContributor (calculateContributions cfg blameData) = None <->
   counted cfg blameData = [])
  /\ forall top,
       getTopContributor (calculateContributions cfg blameData) = Some top ->
       In top (calculateContributions cfg blameData)
       /\ forall m, In m (calculateContributions cfg blameData) ->
                    countValue cfg m <= countValue cfg top.
Proof.
  split.
  - rewrite <- output_empty_iff. unfold getTopContributor.
    destruct (calculateContributions cfg blameData); split; congruence.
  - intros top. unfold getTopContributor.
    assert (S : StronglySorted (descending (countValue cfg))
                  (calculateContributions cfg blameData)).
    { unfold calculateContributions.
      destruct (Nat.eqb (List.length blameData) 0); [constructor|].
      rewrite sort_compareFn. apply sort_sorted. }
    destruct (calculateContributions cfg blameData) as [|m0 rest];
      [discriminate|].
    intros [= ->]. split; [now left|].
    intros m [<- | I]; [lia|].
    apply StronglySorted_inv in S. destruct S as [_ F].
    exact (proj1 (Forall_forall _ _) F m I).
Qed.

(** *** The sum of the percentages *)

Lemma sum_within (A : Type) (f : A -> Z) (t : Z) (l : list A) :
  Forall (fun x => - t <= f x <= t) l ->
  - (Z.of_nat (List.length l) * t) <= sumZ (List.map f l)
    <= Z.of_nat (List.length l) * t.
Proof.
  induction 1 as [|x l X F IH]; cbn [List.map sumZ fold_right List.length];
    [lia|].
  fold (sumZ (List.map f l)). rewrite Nat2Z.inj_succ. lia.
Qed.

Lemma sum_linear (A : Type) (f g : A -> Z) (a b : Z) (l : list A) :
  sumZ (List.map (fun x => a * f x - b * g x) l) =
  a * sumZ (List.map f l) - b * sumZ (List.map g l).
Proof.
  induction l as [|x l IH]; cbn [List.map sumZ fold_right]; [lia|].
  fold (sumZ (List.map (fun x => a * f x - b * g x) l)).
  fold (sumZ (List.map f l)). fold (sumZ (List.map g l)). lia.
Qed.

(** Each percentage is within a half of [100 * countValue / totalValue]. *)
Lemma percentage_half (c t : Z) :
  0 <= c <= t -> 0 < t <= 2 ^ 44 ->
  - t <= 2 * t * percentageOf c t - 200 * c <= t.
Proof.
  intros C T.
  destruct (FloatFacts.percentageOf_nearest c t C T) as (_ & B & E).
  cbv zeta in B, E.
  destruct (FloatFacts.div_bounds (200 * c + t) (2 * t) ltac:(lia)) as [P1 P2].
  fold (exactPercentage c t) in P1, P2.
  destruct (Z.eq_dec (200 * c) ((2 * exactPercentage c t - 1) * t)) as [H | H].
  - nia.
  - rewrite (E H). nia.
Qed.

(** The percentages add up to 100 within half a point per entry. *)
Theorem percentages_sum (cfg : Config) (blameData : list BlameLineData) :
  let entries := calculateContributions cfg blameData in
  0 < sumZ (List.map (countValue cfg) entries) <= 2 ^ 44 ->
  Z.abs (2 * sumZ (List.map percentage entries) - 200)
    <= Z.of_nat (List.length entries).
Proof.
  intros entries T. subst entries.
  rewrite countValue_sum in T.
  set (t := totalValue cfg (groupByAuthor cfg blameData)) in *.
  assert (F : Forall (fun m => - t <= 2 * t * percentage m
                                      - 200 * countValue cfg m <= t)
                     (calculateContributions cfg blameData)).
  { apply Forall_forall. intros m I.
    destruct (entry_percentage cfg blameData m I) as [-> C].
    fold t in C |- *. now apply percentage_half. }
  apply sum_within in F. rewrite sum_linear, countValue_sum in F. fold t in F.
  apply Z.abs_le. nia.
Qed.

End GroupingFacts.

(** ** Entries of equal count *)

Module TieFacts.
Import JS BlameParser Metrics MetricsFacts GroupingFacts.

(** The distinct names of a list, in the order of their first
    occurrence. *)
Definition firstSeen (names : list string) : list string :=
  fold_left (fun seen a => if existsb (String.eqb a) seen then seen
                           else List.app seen [a])
            names [].

Lemma keys_set_order {V : Type} (k : string) (v : V) (m : JSMap.t V) :
  JSMap.keys (JSMap.set k v m) =
  if existsb (String.eqb k) (JSMap.keys m) then JSMap.keys m
  else List.app (JSMap.keys m) [k].
Proof.
  unfold JSMap.keys.
  induction m as [|[k0 v0] m IH]; cbn [JSMap.set List.map fst existsb];
    [reflexivity|].
  rewrite (String.eqb_sym k k0).
  destruct (String.eqb_spec k0 k) as [-> | N]; cbn [orb List.map fst];
    [reflexivity|].
  rewrite IH. now destruct (existsb (String.eqb k) (List.map fst m)).
Qed.

Lemma keys_fold (cfg : Config) (d : list BlameLineData) (m : JSMap.t Stats) :
  JSMap.keys (fold_left (addLine cfg) d m) =
  fold_left (fun seen a => if existsb (String.eqb a) seen then seen
                           else List.app seen [a])
            (List.map BlameParser.author (counted cfg d)) (JSMap.keys m).
Proof.
  revert m. induction d as [|l d IH]; intros m; [reflexivity|].
  cbn [fold_left]. rewrite IH. unfold counted at 2. cbn [List.filter].
  unfold addLine.
  destruct (ignoreBlankLines cfg && isBlankLine (content l));
    cbn [negb List.map fold_left]; [reflexivity|].
  now rewrite keys_set_order.
Qed.

(** The keys of the map are the authors of the lines counted, in the
    order in which they first appear. *)
Lemma groupByAuthor_keys (cfg : Config) (d : list BlameLineData) :
  JSMap.keys (groupByAuthor cfg d)
  = firstSeen (List.map BlameParser.author (counted cfg d)).
Proof. apply keys_fold. Qed.

Section Stable.
Context {A : Type} (key : A -> Z) (v : Z).

Let cmp (a b : A) : Z := key b - key a.
Let same (a : A) : bool := key a =? v.

Lemma filter_insert (x : A) (l : list A) :
  List.filter same (insert cmp x l) = List.filter same (x :: l).
Proof.
  induction l as [|y r IH]; cbn [insert]; [reflexivity|].
  destruct (cmp y x <? 0) eqn:C; [|reflexivity].
  apply Z.ltb_lt in C. unfold cmp in C.
  cbn [List.filter] in IH |- *. rewrite IH.
  unfold same. destruct (Z.eqb_spec (key x) v) as [Ex | Nx]; [|reflexivity].
  destruct (Z.eqb_spec (key y) v) as [Ey | Ny]; [lia | reflexivity].
Qed.

Lemma filter_sort (l : list A) :
  List.filter same (sort cmp l) = List.filter same l.
Proof.
  induction l as [|x l IH]; [reflexivity|].
  cbn [sort fold_right]. fold (sort cmp l).
  rewrite filter_insert. cbn [List.filter]. now rewrite IH.
Qed.
End Stable.

(** The order of the result: the entries, taken in the order in which
    their authors first appear among the lines counted, are rearranged
    by count; entries of equal count keep that order. *)
Theorem ties_keep_first_seen_order (cfg : Config)
  (blameData : list BlameLineData) :
  exists unsorted,
    Permutation (calculateContributions cfg blameData) unsorted
    /\ List.map author unsorted
       = firstSeen (List.map BlameParser.author (counted cfg blameData))
    /\ forall v,
         List.filter (fun m => countValue cfg m =? v)
                     (calculateContributions cfg blameData)
         = List.filter (fun m => countValue cfg m =? v) unsorted.
Proof.
  destruct blameData as [|l d].
  - exists []. repeat split; reflexivity.
  - set (M := groupByAuthor cfg (l :: d)).
    exists (List.map (toMetric cfg (totalOf s_lines M) (totalOf s_characters M)) M).
    split; [|split].
    + apply calculateContributions_perm. discriminate.
    + rewrite <- groupByAuthor_keys. fold M. unfold JSMap.keys.
      rewrite map_map. reflexivity.
    + intros v. unfold calculateContributions.
      cbn [List.length Nat.eqb]. fold M.
      rewrite sort_compareFn. apply (filter_sort (countValue cfg) v).
Qed.

End TieFacts.

(** ** Numbers and their decimal text *)

Module NumberFacts.
Import JS JSFacts.

(** The code units of a string. *)
Definition chars (s : string) : list ascii := list_ascii_of_string s.

Lemma chars_app (a b : string) : chars (a ++ b) = (chars a ++ chars b)%list.
Proof.
  induction a as [|c a IH]; cbn [append chars list_ascii_of_string List.app];
    [reflexivity|].
  unfold chars in IH. now rewrite IH.
Qed.

Ltac digit_step :=
  repeat match goal with
    | |- context [isDigit ?c] => change (isDigit c) with true
    | |- context [digitValue ?c] =>
        let v := eval vm_compute in (digitValue c) in
        change (digitValue c) with v
    end;
  cbv iota.

Lemma digitsValue_uint_acc (d : Decimal.uint) (acc : positive) :
  digitsValue (Z.pos acc) (NilEmpty.string_of_uint d)
  = Z.pos (Pos.of_uint_acc d acc).
Proof.
  revert acc.
  induction d as [|d IH|d IH|d IH|d IH|d IH|d IH|d IH|d IH|d IH|d IH];
    intros acc;
    cbn [NilEmpty.string_of_uint Pos.of_uint_acc digitsValue];
    [reflexivity|..];
    digit_step; rewrite <- IH; f_equal; lia.
Qed.

Lemma digitsValue_uint (d : Decimal.uint) :
  digitsValue 0 (NilEmpty.string_of_uint d) = Z.of_N (Pos.of_uint d).
Proof.
  induction d as [|d IH|d IH|d IH|d IH|d IH|d IH|d IH|d IH|d IH|d IH];
    cbn [NilEmpty.string_of_uint Pos.of_uint digitsValue];
    [reflexivity | digit_step; exact IH |..];
    digit_step; cbn [Z.of_N]; rewrite <- digitsValue_uint_acc; reflexivity.
Qed.

(** The text of a number starts with a digit. *)
Lemma uint_head (d : Decimal.uint) :
  d <> Decimal.Nil ->
  exists c r, NilEmpty.string_of_uint d = String c r /\ isDigit c = true.
Proof.
  destruct d; [congruence|..]; intros _;
    cbn [NilEmpty.string_of_uint]; eexists _, _; split; reflexivity.
Qed.

Lemma parseDigits_uint (d : Decimal.uint) :
  d <> Decimal.Nil ->
  parseDigits (NilEmpty.string_of_uint d) = Some (Z.of_N (Pos.of_uint d)).
Proof.
  intros N. destruct (uint_head d N) as (c & r & E & D).
  unfold parseDigits. rewrite E, D, <- E. f_equal. apply digitsValue_uint.
Qed.

Lemma parseInt_uint (d : Decimal.uint) :
  d <> Decimal.Nil ->
  parseInt (NilEmpty.string_of_uint d) = Some (Z.of_N (Pos.of_uint d)).
Proof.
  intros N. rewrite <- (parseDigits_uint d N).
  destruct d; [congruence|..]; reflexivity.
Qed.

(** [parseInt] reads back the text of an integer. *)
Lemma parseInt_numberToString (z : Z) : parseInt (numberToString z) = Some z.
Proof.
  destruct z as [|p|p]; [reflexivity|..]; unfold numberToString;
    cbn [Z.to_int NilEmpty.string_of_int].
  - rewrite parseInt_uint by apply Unsigned.to_uint_nonnil.
    now rewrite DecimalPos.Unsigned.of_to.
  - change (parseInt (String "-" (NilEmpty.string_of_uint (Pos.to_uint p))))
      with (option_map Z.opp
              (parseDigits (NilEmpty.string_of_uint (Pos.to_uint p)))).
    rewrite parseDigits_uint by apply Unsigned.to_uint_nonnil.
    now rewrite DecimalPos.Unsigned.of_to.
Qed.

(** The text of an integer is made of digits and, in front, of a minus
    sign. *)
Definition isNumeric (c : ascii) : bool := isDigit c || Ascii.eqb c "-".

Lemma uint_chars (d : Decimal.uint) :
  forallb isNumeric (chars (NilEmpty.string_of_uint d)) = true.
Proof.
  induction d; cbn [NilEmpty.string_of_uint chars list_ascii_of_string forallb];
    [reflexivity|..]; exact IHd.
Qed.

Lemma numberToString_chars (z : Z) :
  forallb isNumeric (chars (numberToString z)) = true.
Proof.
  destruct z as [|p|p]; [reflexivity|..]; unfold numberToString;
    cbn [Z.to_int NilEmpty.string_of_int]; [apply uint_chars|].
  cbn [chars list_ascii_of_string forallb]. apply uint_chars.
Qed.

(** A character that fails a test all characters of a string pass does
    not occur in the string. *)
Lemma absent (p : ascii -> bool) (c : ascii) (s : string) :
  forallb p (chars s) = true -> p c = false -> ~ In c (chars s).
Proof.
  intros F P I. rewrite forallb_forall in F. rewrite (F c I) in P.
  discriminate.
Qed.

Lemma split_whole (sep : ascii) (x : string) :
  ~ In sep (chars x) -> split sep x = [x].
Proof.
  induction x as [|c r IH]; cbn [split chars list_ascii_of_string In];
    [reflexivity|].
  intros N. destruct (Ascii.eqb_spec c sep) as [-> | _]; [tauto|].
  rewrite IH by tauto. reflexivity.
Qed.

Lemma split_app (sep : ascii) (x y : string) :
  ~ In sep (chars x) -> split sep (x ++ String sep y) = x :: split sep y.
Proof.
  induction x as [|c r IH]; cbn [split append chars list_ascii_of_string In].
  - intros _. now rewrite Ascii.eqb_refl.
  - intros N. destruct (Ascii.eqb_spec c sep) as [-> | _]; [tauto|].
    rewrite IH by tauto. reflexivity.
Qed.

Lemma append_nil_r (s : string) : s ++ "" = s.
Proof. induction s as [|c s IH]; cbn [append]; [reflexivity | now rewrite IH]. Qed.

End NumberFacts.

(** ** The line-porcelain format, read back *)

Module PorcelainFacts.
Import JS JSFacts BlameParser ParserFacts NumberFacts.

(** A block of [git blame --line-porcelain]: the header
    [<hash> <orig> <final> [<group size>]], the author, other metadata,
    each a key of the format followed by its value, and the line of the
    file after a tab. *)
Record Block := mkBlock {
  hash : string;
  origLine : Z;
  finalLine : Z;
  groupSize : option Z;
  authorName : string;
  metadata : list (string * string);
  lineText : string
}.

Definition headerLine (b : Block) : string :=
  hash b ++ " " ++ numberToString (origLine b) ++ " "
  ++ numberToString (finalLine b)
  ++ match groupSize b with
     | Some g => " " ++ numberToString g
     | None => ""
     end.

Definition blockLines (b : Block) : list string :=
  headerLine b :: ("author " ++ authorName b)
  :: List.app (List.map (fun kv => fst kv ++ snd kv) (metadata b))
              [String tab (lineText b)].

(** Every line followed by a line feed. *)
Definition unlines (ls : list string) : string :=
  fold_right (fun l rest => l ++ String newline rest) "" ls.

Definition porcelain (blocks : list Block) : string :=
  unlines (List.concat (List.map blockLines blocks)).

(** The keys of the metadata lines that follow the author. *)
Definition metadataKeys : list string := "author-mail " :: skippedKeys.

(** A block as git writes it for a file of [n] lines. *)
Record valid (n : Z) (b : Block) : Prop := mkValid {
  v_hash : forallb isLowerHex (chars (hash b)) = true;
  v_hash_length : String.length (hash b) = 40%nat;
  v_line : 1 <= finalLine b <= n;
  v_author : authorName b <> "";
  v_author_line : ~ In newline (chars (authorName b));
  v_metadata :
    Forall (fun kv => In (fst kv) metadataKeys
                      /\ ~ In newline (chars (snd kv))) (metadata b);
  v_text_line : ~ In newline (chars (lineText b));
  v_text : trim (lineText b) <> ""
}.

(** The record a block stands for. *)
Definition decode (b : Block) : BlameLineData :=
  mkBlameLineData (normalizeAuthor (authorName b)) (finalLine b) (lineText b).

Lemma trim_head (c : ascii) (r : string) :
  isWhitespace c = false -> truthy (trim (String c r)) = true.
Proof.
  intros W. unfold trim. cbn [trimStart]. rewrite W.
  destruct (trimEnd_head c r W) as [r' ->]. reflexivity.
Qed.

Lemma lowerHex_not_space (c : ascii) :
  isLowerHex c = true ->
  isWhitespace c = false /\ c <> " "%char /\ c <> newline.
Proof.
  intros H. repeat split; [|intros ->; discriminate H..].
  destruct c as [[] [] [] [] [] [] [] []]; try reflexivity; discriminate H.
Qed.

Lemma numeric_not_space (c : ascii) :
  isNumeric c = true -> c <> " "%char /\ c <> newline.
Proof. intros H. split; intros ->; discriminate H. Qed.

Lemma hexPrefix_app (n : nat) (h x : string) :
  forallb isLowerHex (chars h) = true -> (n <= String.length h)%nat ->
  hexPrefix n (h ++ x) = true.
Proof.
  revert h. induction n as [|n IH]; intros h F L; [reflexivity|].
  destruct h as [|c h]; [cbn in L; lia|].
  cbn [chars list_ascii_of_string forallb] in F.
  apply andb_true_iff in F. destruct F as [F1 F2].
  cbn [append hexPrefix]. rewrite F1. cbn [andb].
  apply IH; [exact F2 | cbn [String.length] in L; lia].
Qed.

Lemma free_of (p : ascii -> bool) (c : ascii) (s : string) :
  forallb p (chars s) = true -> (p c = true -> False) -> ~ In c (chars s).
Proof.
  intros F P I. rewrite forallb_forall in F. exact (P (F c I)).
Qed.

Section Block.
Variables (n : Z) (b : Block).
Hypothesis V : valid n b.

Lemma hash_free (c : ascii) :
  c = " "%char \/ c = newline -> ~ In c (chars (hash b)).
Proof.
  intros E. apply (free_of isLowerHex); [exact (v_hash n b V)|].
  intros H. destruct (lowerHex_not_space c H) as (_ & A & B). tauto.
Qed.

Lemma number_free (z : Z) (c : ascii) :
  c = " "%char \/ c = newline -> ~ In c (chars (numberToString z)).
Proof.
  intros E. apply (free_of isNumeric); [apply numberToString_chars|].
  intros H. destruct (numeric_not_space c H). tauto.
Qed.

Lemma header_parts :
  exists rest,
    split " " (headerLine b) =
    hash b :: numberToString (origLine b)
    :: numberToString (finalLine b) :: rest.
Proof.
  unfold headerLine.
  change (" " ++ numberToString (origLine b) ++ " "
          ++ numberToString (finalLine b)
          ++ match groupSize b with
             | Some g => " " ++ numberToString g
             | None => ""
             end)
    with (String " " (numberToString (origLine b) ++
            String " " (numberToString (finalLine b)
              ++ match groupSize b with
                 | Some g => String " " (numberToString g)
                 | None => ""
                 end))).
  rewrite split_app by (apply hash_free; now left).
  rewrite split_app by (apply number_free; now left).
  destruct (groupSize b) as [g|].
  - rewrite split_app by (apply number_free; now left). eexists. reflexivity.
  - rewrite append_nil_r, split_whole by (apply number_free; now left).
    eexists. reflexivity.
Qed.

Lemma hash_head :
  exists c r, hash b = String c r /\ isWhitespace c = false.
Proof.
  pose proof (v_hash n b V) as F. pose proof (v_hash_length n b V) as L.
  destruct (hash b) as [|c r]; [discriminate L|].
  cbn [chars list_ascii_of_string forallb] in F.
  apply andb_true_iff in F. destruct F as [F _].
  exists c, r. split; [reflexivity|]. now apply lowerHex_not_space.
Qed.

Lemma step_header (st : ParseState) :
  step n st (headerLine b) =
  mkParseState (hash b) (currentAuthor st) (Some (finalLine b))
               (lineIndex st) (result st).
Proof.
  unfold step.
  assert (T : truthy (trim (headerLine b)) = true).
  { unfold headerLine. destruct hash_head as (c & r & -> & W).
    cbn [append]. now apply trim_head. }
  assert (H : hexPrefix 40 (headerLine b) = true).
  { unfold headerLine. apply hexPrefix_app; [exact (v_hash n b V)|].
    rewrite (v_hash_length n b V). lia. }
  rewrite T, H. cbn [negb]. cbv iota.
  destruct header_parts as [rest ->].
  cbn [nth parseIntAt nth_error]. now rewrite parseInt_numberToString.
Qed.

Lemma step_author (st : ParseState) :
  step n st ("author " ++ authorName b) =
  mkParseState (currentCommit st) (authorName b) (currentLineNumber st)
               (lineIndex st) (result st).
Proof.
  unfold step.
  change (truthy (trim ("author " ++ authorName b)))
    with (truthy (trim (String "a" ("uthor " ++ authorName b)))).
  rewrite trim_head by reflexivity. cbn [negb].
  change (hexPrefix 40 ("author " ++ authorName b)) with false.
  rewrite startsWith_append. reflexivity.
Qed.

Lemma step_metadata (st : ParseState) (key value : string) :
  In key metadataKeys -> currentAuthor st <> "" ->
  step n st (key ++ value) = st.
Proof.
  intros I A. apply truthy_true_iff in A. unfold step.
  unfold metadataKeys, skippedKeys in I. cbn [In] in I.
  repeat (destruct I as [<- | I]);
    try (destruct I);
    (match goal with
     | |- context [trim (String ?c ?r ++ value)] =>
         change (truthy (trim (String c r ++ value)))
           with (truthy (trim (String c (r ++ value))));
         rewrite (trim_head c (r ++ value)) by reflexivity
     end);
    cbn [negb];
    (match goal with
     | |- context [hexPrefix 40 ?l] => change (hexPrefix 40 l) with false
     end);
    (match goal with
     | |- context [startsWith ?l "author "] =>
         change (startsWith l "author ") with false
     end);
    cbv iota.
  - rewrite startsWith_append, A. reflexivity.
  - change (startsWith ("author-time " ++ value) "author-mail ") with false.
    change (existsb (startsWith ("author-time " ++ value)) skippedKeys)
      with true. reflexivity.
  - change (startsWith ("author-tz " ++ value) "author-mail ") with false.
    change (existsb (startsWith ("author-tz " ++ value)) skippedKeys)
      with true. reflexivity.
  - change (startsWith ("committer " ++ value) "author-mail ") with false.
    change (existsb (startsWith ("committer " ++ value)) skippedKeys)
      with true. reflexivity.
  - change (startsWith ("committer-mail " ++ value) "author-mail ") with false.
    change (existsb (startsWith ("committer-mail " ++ value)) skippedKeys)
      with true. reflexivity.
  - change (startsWith ("committer-time " ++ value) "author-mail ") with false.
    change (existsb (startsWith ("committer-time " ++ value)) skippedKeys)
      with true. reflexivity.
  - change (startsWith ("committer-tz " ++ value) "author-mail ") with false.
    change (existsb (startsWith ("committer-tz " ++ value)) skippedKeys)
      with true. reflexivity.
  - change (startsWith ("summary " ++ value) "author-mail ") with false.
    change (existsb (startsWith ("summary " ++ value)) skippedKeys)
      with true. reflexivity.
  - change (startsWith ("boundary" ++ value) "author-mail ") with false.
    change (existsb (startsWith ("boundary" ++ value)) skippedKeys)
      with true. reflexivity.
  - change (startsWith ("filename " ++ value) "author-mail ") with false.
    change (existsb (startsWith ("filename " ++ value)) skippedKeys)
      with true. reflexivity.
  - change (startsWith ("previous " ++ value) "author-mail ") with false.
    change (existsb (startsWith ("previous " ++ value)) skippedKeys)
      with true. reflexivity.
Qed.

Lemma fold_metadata (st : ParseState) :
  currentAuthor st <> "" ->
  fold_left (step n)
    (List.map (fun kv => fst kv ++ snd kv) (metadata b)) st = st.
Proof.
  intros A. pose proof (v_metadata n b V) as F.
  induction F as [|[k v] l [I _] F IH]; cbn [List.map fold_left fst snd];
    [reflexivity|].
  cbn [fst] in I. rewrite step_metadata by assumption. exact IH.
Qed.

Lemma step_text (st : ParseState) :
  currentAuthor st = authorName b ->
  currentLineNumber st = Some (finalLine b) ->
  step n st (String tab (lineText b)) =
  mkParseState (currentCommit st) "" (Some 0) (lineIndex st + 1)
               (result st ++ [decode b]).
Proof.
  intros A L.
  rewrite ParserRuns.step_content_line.
  - assert (Acc : accepts st n = true).
    { apply accepts_spec. rewrite A, L. split; [exact (v_author n b V)|].
      exists (finalLine b). split; [reflexivity|].
      pose proof (v_line n b V). lia. }
    rewrite Acc. unfold pushed, decode. rewrite A, L. reflexivity.
  - unfold trim. change (trimStart (String tab (lineText b)))
      with (trimStart (lineText b)).
    apply truthy_true_iff. exact (v_text n b V).
  - reflexivity.
Qed.

(** Reading a block pushes its record and resets the author and the line
    number. *)
Lemma block_run (st : ParseState) :
  fold_left (step n) (blockLines b) st =
  mkParseState (hash b) "" (Some 0) (lineIndex st + 1)
               (result st ++ [decode b]).
Proof.
  unfold blockLines. cbn [fold_left].
  rewrite step_header, step_author, fold_left_app, fold_metadata
    by exact (v_author n b V).
  cbn [fold_left]. rewrite step_text by reflexivity. reflexivity.
Qed.

Lemma blockLines_free : Forall (fun l => ~ In newline (chars l)) (blockLines b).
Proof.
  unfold blockLines. constructor; [|constructor].
  - unfold headerLine. rewrite !chars_app. intros I.
    repeat (apply in_app_or in I; destruct I as [I | I]).
    + revert I. apply hash_free. now right.
    + cbn in I. destruct I as [I | []]. discriminate I.
    + revert I. apply number_free. now right.
    + cbn in I. destruct I as [I | []]. discriminate I.
    + revert I. apply number_free. now right.
    + destruct (groupSize b) as [g|]; [|destruct I].
      rewrite chars_app in I. apply in_app_or in I. destruct I as [I | I].
      * cbn in I. destruct I as [I | []]. discriminate I.
      * revert I. apply number_free. now right.
  - rewrite chars_app. intros I. apply in_app_or in I. destruct I as [I | I].
    + cbn in I. repeat (destruct I as [I | I]; [discriminate I|]). exact I.
    + exact (v_author_line n b V I).
  - apply Forall_app. split.
    + pose proof (v_metadata n b V) as F.
      induction F as [|[k v] l [K N] F IH]; cbn [List.map fst snd];
        constructor; [|exact IH].
      cbn [fst snd] in K, N.
      rewrite chars_app. intros I. apply in_app_or in I.
      destruct I as [I | I]; [|exact (N I)].
      unfold metadataKeys, skippedKeys in K. cbn [In] in K.
      repeat (destruct K as [<- | K]);
        try (destruct K);
        cbn in I; repeat (destruct I as [I | I]; [discriminate I|]); exact I.
    + constructor; [|constructor].
      cbn [chars list_ascii_of_string In]. intros [I | I]; [discriminate I|].
      exact (v_text_line n b V I).
Qed.

End Block.

Lemma blocks_run (n : Z) (blocks : list Block) (st : ParseState) :
  Forall (valid n) blocks ->
  result (fold_left (step n) (List.concat (List.map blockLines blocks)) st) =
  (result st ++ List.map decode blocks)%list.
Proof.
  intros F. revert st.
  induction F as [|b l V F IH]; intros st; cbn [List.map List.concat fold_left].
  - now rewrite app_nil_r.
  - rewrite fold_left_app, (block_run n b V), IH. cbn [result].
    now rewrite <- app_assoc.
Qed.

Lemma step_blank (n : Z) (st : ParseState) : step n st "" = st.
Proof. reflexivity. Qed.

Lemma split_unlines (ls : list string) :
  Forall (fun l => ~ In newline (chars l)) ls ->
  split newline (unlines ls) = (ls ++ [""])%list.
Proof.
  induction 1 as [|l ls N F IH]; cbn [unlines fold_right List.app];
    [reflexivity|].
  fold (unlines ls). rewrite split_app by exact N. now rewrite IH.
Qed.

(** The text of well-formed blocks is read back block by block: the
    parser returns the record of every block, in order. *)
Theorem parse_porcelain (blocks : list Block) (fileContent : string) :
  Forall (valid (fileLineCount fileContent)) blocks ->
  blocks <> [] ->
  parseBlameOutput (porcelain blocks) fileContent = List.map decode blocks.
Proof.
  intros F N.
  assert (L : parseLoop (porcelain blocks) fileContent = List.map decode blocks).
  { unfold parseLoop, porcelain. rewrite split_unlines.
    - rewrite fold_left_app. cbn [fold_left].
      fold (fileLineCount fileContent). rewrite step_blank.
      rewrite blocks_run by exact F. reflexivity.
    - clear N. induction F as [|b l V F IH]; cbn [List.map List.concat];
        [constructor|].
      apply Forall_app. split; [exact (blockLines_free _ b V)|].
      apply IH. }
  unfold parseBlameOutput. rewrite L.
  destruct blocks as [|b l]; [congruence|]. reflexivity.
Qed.

(** *** Author names *)

(** Normalizing an author name twice changes nothing more; the two
    markers git writes for lines without a commit, in any letter case,
    become the label the fallback of the parser uses. *)
Theorem normalizeAuthor_idempotent (a : string) :
  normalizeAuthor (normalizeAuthor a) = normalizeAuthor a
  /\ normalizeAuthor "Not Committed Yet" = uncommittedLabel
  /\ normalizeAuthor "External file (--contents)" = uncommittedLabel
  /\ normalizeAuthor uncommittedLabel = uncommittedLabel.
Proof.
  split; [|repeat split; reflexivity].
  unfold normalizeAuthor at 2 3.
  destruct (truthy (trim a)) eqn:T; cbn [negb]; [|reflexivity].
  destruct (includes (toLowerCase (trim a)) "not committed yet"
            || includes (toLowerCase (trim a)) "external file") eqn:M;
    [reflexivity|].
  unfold normalizeAuthor. rewrite trim_idempotent, T, M. reflexivity.
Qed.

End PorcelainFacts.

(** ** The life of a cache entry *)

Module CacheLife.
Import JS JSFacts Metrics Crypto Cache JSMapFacts CacheFacts.
Import GroupingFacts NumberFacts.

(** [now - entry.timestamp > entry.ttl] *)
Definition expired (now : Z) (entry : CacheEntry) : bool :=
  ttl entry <? now - timestamp entry.

(** What is stored under a key is read back under that key until its
    time to live has passed; the first read after that removes it. *)
Theorem stored_then_read (now1 now2 life : Z) (key : string)
  (d : list ContributorMetrics) (c : ContributorCache) :
  Cache.get now2 key (Cache.set now1 key d life c) =
  if life <? now2 - now1
  then (None, JSMap.delete key (Cache.set now1 key d life c))
  else (Some d, Cache.set now1 key d life c).
Proof.
  unfold Cache.get, Cache.set. rewrite get_set_same.
  cbn [ttl timestamp data]. reflexivity.
Qed.

Lemma get_rest {V : Type} (k0 k : string) (v0 : V) (m : JSMap.t V) :
  k0 <> k -> JSMap.get k ((k0, v0) :: m) = JSMap.get k m.
Proof.
  intros N. cbn [JSMap.get].
  destruct (String.eqb_spec k0 k); [contradiction | reflexivity].
Qed.

(** Storing under one key changes what is held under another key in one
    case only: at the bound, the oldest key is removed. *)
Theorem set_evicts_oldest_only (c : ContributorCache) (now life : Z)
  (key k : string) (d : list ContributorMetrics) :
  reachable c -> k <> key ->
  JSMap.get k (Cache.set now key d life c) =
  if (maxCacheSize <=? Cache.size c)
     && match JSMap.firstKey c with
        | Some oldest => String.eqb oldest k
        | None => false
        end
  then None
  else JSMap.get k c.
Proof.
  intros R N. pose proof (reachable_invariant c R) as I.
  destruct (set_evicts now key d life c I) as [Below At].
  destruct (Z.leb_spec maxCacheSize (Cache.size c)) as [B | B]; cbn [andb].
  - destruct (At B) as ([k0 e0] & rest & -> & ->). cbn [JSMap.firstKey].
    rewrite get_set_other by congruence.
    destruct (String.eqb_spec k0 k) as [-> | N0].
    + destruct (JSMap.get k rest) eqn:G; [|reflexivity].
      exfalso. destruct I as [ND _ _].
      unfold JSMap.keys in ND. cbn [List.map fst] in ND.
      inversion ND as [|? ? N1 _]; subst. apply N1.
      apply key_iff_get. congruence.
    + now rewrite get_rest.
  - rewrite (Below B). apply get_set_other. congruence.
Qed.

Lemma length_set {V : Type} (k : string) (v : V) (m : JSMap.t V) :
  List.length (JSMap.set k v m) =
  match JSMap.get k m with
  | Some _ => List.length m
  | None => S (List.length m)
  end.
Proof.
  induction m as [|[k0 v0] m IH]; cbn [JSMap.set JSMap.get]; [reflexivity|].
  destruct (String.eqb k0 k); cbn [List.length]; [reflexivity|].
  rewrite IH. now destruct (JSMap.get k m).
Qed.

(** At the bound, storing again under a key the cache already holds still
    removes the oldest entry: the cache ends one entry below the bound.
    A read of the oldest entry before that changes nothing. *)
Theorem refresh_at_the_bound (c : ContributorCache) (now life : Z)
  (key : string) (d : list ContributorMetrics) :
  reachable c -> Cache.size c = maxCacheSize ->
  JSMap.get key c <> None -> JSMap.firstKey c <> Some key ->
  Cache.size (Cache.set now key d life c) = maxCacheSize - 1
  /\ exists oldest,
       JSMap.firstKey c = Some oldest
       /\ JSMap.get oldest c <> None
       /\ JSMap.get oldest (Cache.set now key d life c) = None
       /\ forall now',
            fst (Cache.get now' oldest c) <> None ->
            snd (Cache.get now' oldest c) = c.
Proof.
  intros R S G F. pose proof (reachable_invariant c R) as I.
  destruct (set_evicts now key d life c I) as [_ At].
  destruct (At ltac:(lia)) as ([k0 e0] & rest & -> & E).
  cbn [JSMap.firstKey] in F. assert (N : k0 <> key) by congruence.
  split.
  - rewrite E. unfold Cache.size, JSMap.size in *. rewrite length_set.
    rewrite get_rest in G by exact N.
    destruct (JSMap.get key rest); [|congruence].
    cbn [List.length] in S. lia.
  - exists k0. split; [reflexivity|]. split.
    + cbn [JSMap.get]. now rewrite String.eqb_refl.
    + split.
      * rewrite (set_evicts_oldest_only _ _ _ _ _ _ R) by exact N.
        cbn [JSMap.firstKey]. rewrite String.eqb_refl, S. reflexivity.
      * intros now'. unfold Cache.get. cbn [JSMap.get].
        rewrite String.eqb_refl.
        destruct (ttl e0 <? now' - timestamp e0); cbn [fst snd];
          [congruence | reflexivity].
Qed.

(** *** [cleanup] *)

Lemma same_key_same_entry {V : Type} (m : JSMap.t V) (e e' : string * V) :
  NoDup (JSMap.keys m) -> In e m -> In e' m -> fst e = fst e' -> e = e'.
Proof.
  intros N I I' E. destruct e as [k v], e' as [k' v']. cbn [fst] in E.
  subst k'. pose proof (get_of_entry k v m N I) as G.
  pose proof (get_of_entry k v' m N I') as G'.
  rewrite G in G'. injection G' as ->. reflexivity.
Qed.

Lemma cleanup_filter (now : Z) (c : ContributorCache) :
  NoDup (JSMap.keys c) ->
  cleanup now c = List.filter (fun e => negb (expired now (snd e))) c.
Proof.
  intros N. unfold cleanup. rewrite delete_all.
  apply filter_ext_in. intros e I. f_equal.
  fold (expired now).
  destruct (expired now (snd e)) eqn:X.
  - apply existsb_exists. exists (fst e). split; [|apply String.eqb_refl].
    apply in_map. apply filter_In. now split.
  - destruct (existsb _ _) eqn:Ex; [|reflexivity].
    apply existsb_exists in Ex. destruct Ex as (k & K & Ek).
    apply String.eqb_eq in Ek. apply in_map_iff in K.
    destruct K as (e' & <- & K). apply filter_In in K. destruct K as [K1 K2].
    rewrite (same_key_same_entry c e e' N I K1 Ek) in X.
    unfold expired in X. congruence.
Qed.

Lemma get_filter_entries {V : Type} (p : V -> bool) (k : string)
  (m : JSMap.t V) :
  NoDup (JSMap.keys m) ->
  JSMap.get k (List.filter (fun e => p (snd e)) m) =
  match JSMap.get k m with
  | Some v => if p v then Some v else None
  | None => None
  end.
Proof.
  induction m as [|[k0 v0] m IH]; intros N; cbn [List.filter JSMap.get snd];
    [reflexivity|].
  unfold JSMap.keys in N. cbn [List.map fst] in N.
  inversion N as [|? ? N1 N2]; subst.
  destruct (String.eqb_spec k0 k) as [-> | Ne].
  - destruct (p v0); cbn [JSMap.get].
    + now rewrite String.eqb_refl.
    + rewrite (IH N2).
      destruct (JSMap.get k m) eqn:G; [|reflexivity].
      exfalso. apply N1. apply key_iff_get. congruence.
  - destruct (p v0); cbn [JSMap.get]; [|exact (IH N2)].
    destruct (String.eqb_spec k0 k); [contradiction | exact (IH N2)].
Qed.

(** [cleanup] removes the entries whose time to live has passed and
    keeps the others, in their order; a read at that time returns the
    same before and after it. *)
Theorem cleanup_drops_expired (c : ContributorCache) (now : Z) :
  reachable c ->
  cleanup now c = List.filter (fun e => negb (expired now (snd e))) c
  /\ forall key,
       fst (Cache.get now key (cleanup now c)) = fst (Cache.get now key c).
Proof.
  intros R. destruct (reachable_invariant c R) as [N _ _].
  split; [now apply cleanup_filter|].
  intros key. rewrite cleanup_filter by exact N. unfold Cache.get.
  rewrite (get_filter_entries (fun v => negb (expired now v))) by exact N.
  destruct (JSMap.get key c) as [e|]; [|reflexivity].
  unfold expired. destruct (ttl e <? now - timestamp e) eqn:X; cbn [negb].
  - reflexivity.
  - rewrite X. reflexivity.
Qed.

(** *** Fingerprints *)

Lemma append_cancel (p x y : string) : p ++ x = p ++ y -> x = y.
Proof.
  induction p as [|c p IH]; cbn [append]; [auto|].
  intros [= E]. now apply IH.
Qed.

(** A text free of colons followed by a colon: the text is determined. *)
Lemma colon_cut (a b x y : string) :
  ~ In ":"%char (chars a) -> ~ In ":"%char (chars b) ->
  a ++ String ":" x = b ++ String ":" y -> a = b /\ x = y.
Proof.
  revert b. induction a as [|c a IH]; intros b Na Nb E.
  - destruct b as [|c' b]; cbn [append] in E.
    + injection E as ->. now split.
    + injection E as <- _. exfalso. apply Nb. now left.
  - destruct b as [|c' b]; cbn [append] in E.
    + injection E as -> _. exfalso. apply Na. now left.
    + injection E as -> E.
      destruct (IH b) as [-> ->]; try assumption; [| |now split].
      * intros I. apply Na. now right.
      * intros I. apply Nb. now right.
Qed.

Lemma number_colon_free (z : Z) : ~ In ":"%char (chars (numberToString z)).
Proof.
  apply (absent isNumeric); [apply numberToString_chars | reflexivity].
Qed.

Lemma numberToString_inj (a b : Z) :
  numberToString a = numberToString b -> a = b.
Proof.
  intros E. apply (f_equal parseInt) in E.
  rewrite !parseInt_numberToString in E. congruence.
Qed.

(** Two fingerprints of a path taken from the file's [stat] are equal
    only when the modification time and the size are the same (and the
    first eight hex digits of the content hash); and neither is the
    fingerprint taken without [stat]. *)
Theorem fingerprint_separates (statSync1 statSync2 : string -> option Fs.Stats)
  (filePath content1 content2 : string) (stats1 stats2 : Fs.Stats) :
  statSync1 filePath = Some stats1 ->
  statSync2 filePath = Some stats2 ->
  (getCacheKey statSync1 filePath content1
   = getCacheKey statSync2 filePath content2 ->
   stats1 = stats2
   /\ substringTo 8 (md5hex content1) = substringTo 8 (md5hex content2))
  /\ forall statSync3 content3,
       statSync3 filePath = None ->
       getCacheKey statSync3 filePath content3
       <> getCacheKey statSync1 filePath content1.
Proof.
  intros S1 S2. split.
  - unfold getCacheKey. rewrite S1, S2. intros E.
    apply append_cancel in E. cbn [append] in E. injection E as E.
    apply colon_cut in E; try apply number_colon_free. destruct E as [Em E].
    apply colon_cut in E; try apply number_colon_free. destruct E as [Es E].
    apply numberToString_inj in Em, Es.
    split; [|exact E].
    destruct stats1, stats2. cbn [Fs.mtime Fs.size] in Em, Es. congruence.
  - intros statSync3 content3 S3. unfold getCacheKey. rewrite S1, S3.
    intros E. apply append_cancel in E. cbn [append] in E.
    injection E as E.
    apply (f_equal (fun s => startsWith s "c")) in E.
    cbn [startsWith Ascii.eqb Bool.eqb andb] in E.
    unfold numberToString, NilEmpty.string_of_int in E.
    destruct (Fs.mtime stats1) as [|p|p]; cbn [Z.to_int] in E;
      try discriminate E;
      destruct (Pos.to_uint p); discriminate E.
Qed.

End CacheLife.

(** ** Requests *)

Module RequestFacts.
Import JS JSFacts BlameParser ParserFacts Metrics MetricsFacts Crypto Cache.
Import Extension JSMapFacts CacheFacts PipelineFacts GroupingFacts.

(** *** What a request cannot do *)

Lemma tryCatch_returns (m : M unit) (h : string -> M unit) (w : World) :
  (forall err w', fst (h err w') = inr tt) ->
  fst (tryCatch m h w) = inr tt.
Proof.
  intros H. unfold tryCatch. destruct (m w) as [[err | []] w'];
    [apply H | reflexivity].
Qed.

(** No request throws: [updateContributors], the handler of a save and
    the command [showContributors] all return, whatever git, the file
    system and the user answer. *)
Theorem requests_never_throw (env : Env) (editor : Editor)
  (document : TextDocument) (w : World) :
  fst (updateContributors env editor w) = inr tt
  /\ fst (handleDocumentSave env document w) = inr tt
  /\ fst (showContributors env w) = inr tt.
Proof.
  assert (U : forall e w0, fst (updateContributors env e w0) = inr tt).
  { intros e w0. unfold updateContributors. apply tryCatch_returns.
    intros err w'. reflexivity. }
  split; [apply U|]. split.
  - unfold handleDocumentSave.
    destruct (activeTextEditor env) as [activeEditor|]; [|reflexivity].
    destruct (isDocumentOf document activeEditor); [|reflexivity].
    run. apply U.
  - unfold showContributors. apply tryCatch_returns.
    intros err w'. reflexivity.
Qed.

(** *** A blame that fails *)

Lemma getBlameData_fails (env : Env) (filePath fileContent msg : string)
  (w : World) :
  (substitute env filePath fileContent <> None ->
   writeFileSync env fileContent = None) ->
  getBlame env filePath (substitute env filePath fileContent) = inl msg ->
  getBlameData env filePath fileContent w =
    (inl msg,
     mkWorld (cache w) (statusBarItem w)
             (log w ++ blameEvents env filePath fileContent)).
Proof.
  unfold substitute, blameEvents, getBlameData, substitute. intros T B. run.
  destruct (negb (isFileTracked env filePath) || isFileModified env filePath).
  - run. rewrite T by discriminate. run. rewrite B. run.
    rewrite <- !app_assoc. reflexivity.
  - run. rewrite B. run. rewrite <- !app_assoc. reflexivity.
Qed.

Lemma updateContributors_blame_fails (env : Env) (editor : Editor)
  (msg : string) (c' : ContributorCache) (w : World) :
  byteLength (getText editor) <= 1024 * maxFileSizeKB env ->
  isInGitRepository env (fsPath editor) = true ->
  Cache.get (nowAtGet env) (fingerprint env editor) (cache w) = (None, c') ->
  (substitute env (fsPath editor) (getText editor) <> None ->
   writeFileSync env (getText editor) = None) ->
  getBlame env (fsPath editor)
           (substitute env (fsPath editor) (getText editor)) = inl msg ->
  updateContributors env editor w =
    (inr tt,
     mkWorld c' (mkStatusBarItem "Top: Error" ("Error: " ++ msg))
             (log w ++ GitRevParse (fsPath editor)
                       :: blameEvents env (fsPath editor) (getText editor)
                       ++ [ConsoleError "Error updating contributors:"])).
Proof.
  intros L R H T B.
  apply Z.ltb_ge in L. unfold updateContributors, fingerprint in *.
  rewrite L. run. rewrite R. run. rewrite H. run.
  rewrite (getBlameData_fails env _ _ msg _ T B). run.
  rewrite <- !app_assoc. reflexivity.
Qed.

(** When the blame fails, the request for the status bar ends with the
    text "Top: Error" and the message of the failure as tooltip, after
    writing it to the console, and the command ends with an error
    message; either way the temporary file, if one was written, is
    unlinked, and nothing is stored in the cache. *)
Theorem failed_blame_reported (env : Env) (editor : Editor) (msg : string)
  (c' : ContributorCache) (w : World) :
  byteLength (getText editor) <= 1024 * maxFileSizeKB env ->
  isInGitRepository env (fsPath editor) = true ->
  Cache.get (nowAtGet env) (fingerprint env editor) (cache w) = (None, c') ->
  (substitute env (fsPath editor) (getText editor) <> None ->
   writeFileSync env (getText editor) = None) ->
  getBlame env (fsPath editor)
           (substitute env (fsPath editor) (getText editor)) = inl msg ->
  updateContributors env editor w =
    (inr tt,
     mkWorld c' (mkStatusBarItem "Top: Error" ("Error: " ++ msg))
             (log w ++ GitRevParse (fsPath editor)
                       :: blameEvents env (fsPath editor) (getText editor)
                       ++ [ConsoleError "Error updating contributors:"]))
  /\ (activeTextEditor env = Some editor ->
      showContributors env w =
        (inr tt,
         mkWorld c' (statusBarItem w)
                 (log w ++ GitRevParse (fsPath editor)
                           :: blameEvents env (fsPath editor) (getText editor)
                           ++ [ConsoleError "Error showing contributors:";
                               ShowErrorMessage ("Error: " ++ msg)]))).
Proof.
  intros L R H T B. split.
  - now apply updateContributors_blame_fails.
  - intros A. unfold showContributors, fingerprint in *.
    rewrite A. run. rewrite R. run. rewrite H. run.
    rewrite (getBlameData_fails env _ _ msg _ T B). run.
    rewrite <- !app_assoc. reflexivity.
Qed.

(** *** What reaches the cache *)

(** The cache after a request, on every path.  It is left as it was
    when the file is over the size limit, when it is not in a
    repository, and when the fingerprint is found in the cache.  When
    the fingerprint is not found, the cache is as the read left it (as
    it was, or without the expired entry under the fingerprint) if the
    temporary file cannot be written or the blame throws; only when the
    blame has succeeded are its metrics stored, under that fingerprint,
    in the cache the read left. *)
Theorem cache_written_on_success_only (env : Env) (editor : Editor)
  (w : World) :
  let w' := snd (updateContributors env editor w) in
  let filePath := fsPath editor in
  let fileContent := getText editor in
  let key := fingerprint env editor in
  let found := fst (Cache.get (nowAtGet env) key (cache w)) in
  let read := snd (Cache.get (nowAtGet env) key (cache w)) in
  let writeThrows :=
    match substitute env filePath fileContent with
    | Some _ =>
        match writeFileSync env fileContent with
        | Some _ => true
        | None => false
        end
    | None => false
    end in
  cache w' =
    (if (1024 * maxFileSizeKB env <? byteLength fileContent)
        || negb (isInGitRepository env filePath)
     then cache w
     else
       match found with
       | Some _ => cache w
       | None =>
           if writeThrows then read
           else
             match getBlame env filePath
                            (substitute env filePath fileContent) with
             | inr stdout =>
                 Cache.set (nowAtSet env) key
                   (calculateContributions (metricsConfig env)
                      (parseBlameOutput stdout fileContent))
                   defaultTTL read
             | inl _ => read
             end
       end)
  /\ (read = cache w \/ found = None /\ read = JSMap.delete key (cache w)).
Proof.
  cbv zeta. split.
  - unfold updateContributors, fingerprint.
    destruct (1024 * maxFileSizeKB env <? byteLength (getText editor));
      cbn [orb]; [reflexivity|].
    run. destruct (isInGitRepository env (fsPath editor)); run;
      [|reflexivity].
    unfold Cache.get.
    destruct (JSMap.get _ (cache w)) as [entry|]; cbn [fst snd].
    + destruct (ttl entry <? nowAtGet env - timestamp entry);
        cbn [fst snd]; run.
      * unfold getBlameData, substitute. run.
        destruct (negb (isFileTracked env (fsPath editor))
                  || isFileModified env (fsPath editor)); run.
        -- destruct (writeFileSync env (getText editor)); run;
             [reflexivity|].
           destruct (getBlame env (fsPath editor) (Some (getText editor)));
             run; [reflexivity|].
           rewrite updateStatusBar_run. reflexivity.
        -- destruct (getBlame env (fsPath editor) None); run;
             [reflexivity|].
           rewrite updateStatusBar_run. reflexivity.
      * rewrite updateStatusBar_run. reflexivity.
    + run. unfold getBlameData, substitute. run.
      destruct (negb (isFileTracked env (fsPath editor))
                || isFileModified env (fsPath editor)); run.
      * destruct (writeFileSync env (getText editor)); run;
          [reflexivity|].
        destruct (getBlame env (fsPath editor) (Some (getText editor)));
          run; [reflexivity|].
        rewrite updateStatusBar_run. reflexivity.
      * destruct (getBlame env (fsPath editor) None); run;
          [reflexivity|].
        rewrite updateStatusBar_run. reflexivity.
  - unfold Cache.get.
    destruct (JSMap.get _ (cache w)) as [entry|]; cbn [fst snd];
      [|now left].
    destruct (ttl entry <? nowAtGet env - timestamp entry); cbn [fst snd];
      [right; split; reflexivity | now left].
Qed.

(** *** Navigation *)



(** *** The status bar *)

Lemma fold_left_lines (cs : list ContributorMetrics) (acc : Z) :
  fold_left (fun sum c => sum + lines c) cs acc = acc + sumZ (List.map lines cs).
Proof.
  revert acc. induction cs as [|c cs IH]; intros acc;
    cbn [fold_left List.map sumZ fold_right]; [lia|].
  rewrite IH. fold (sumZ (List.map lines cs)). lia.
Qed.

(** What the status bar shows for the result of the aggregator.  When no
    line is counted the result is empty and the status bar says
    "Top: No data".  When a line is counted the result has a first
    entry: the text names it, with its percentage, no entry exceeds its
    count, and the tooltip lists the first three entries and ends with
    the number of lines counted, in lines whatever the counting mode. *)
Theorem status_bar_shows (cfg : Config) (blameData : list BlameLineData) :
  let contributors := calculateContributions cfg blameData in
  match counted cfg blameData with
  | [] =>
      contributors = []
      /\ statusBarOf contributors =
         mkStatusBarItem "Top: No data" "No contribution data available"
  | _ :: _ =>
      exists top rest,
        contributors = top :: rest
        /\ text (statusBarOf contributors) =
           "Top: " ++ author top ++ " ("
           ++ numberToString (percentage top) ++ "%)"
        /\ tooltip (statusBarOf contributors) =
           join (String newline "")
             (List.app (List.map tooltipLine (firstn 3 contributors))
                ["Total: "
                 ++ numberToString
                      (Z.of_nat (List.length (counted cfg blameData)))
                 ++ " lines"])
        /\ forall m, In m contributors ->
                     countValue cfg m <= countValue cfg top
  end.
Proof.
  cbv zeta.
  pose proof (lines_sum_counted cfg blameData) as S.
  pose proof (output_empty_iff cfg blameData) as E.
  assert (D : StronglySorted (descending (countValue cfg))
                (calculateContributions cfg blameData)).
  { unfold calculateContributions.
    destruct (Nat.eqb (List.length blameData) 0); [constructor|].
    rewrite sort_compareFn. apply sort_sorted. }
  destruct (counted cfg blameData) as [|l ls] eqn:C.
  - rewrite (proj2 E eq_refl). split; reflexivity.
  - destruct (calculateContributions cfg blameData) as [|top rest].
    + discriminate (proj1 E eq_refl).
    + exists top, rest. split; [reflexivity|]. split; [reflexivity|]. split.
      * unfold statusBarOf, updateStatusBar, setStatusBar.
        cbn [snd statusBarItem tooltip].
        rewrite fold_left_lines, S. reflexivity.
      * intros m [<- | I]; [lia|].
        apply StronglySorted_inv in D. destruct D as [_ F].
        exact (proj1 (Forall_forall _ _) F m I).
Qed.

End RequestFacts.

(** ** The summary and the git queries *)

Module SummaryFacts.
Import JS BlameParser Metrics MetricsFacts GroupingFacts RequestFacts.

Lemma fold_left_characters (cs : list ContributorMetrics) (acc : Z) :
  fold_left (fun sum c => sum + characters c) cs acc
  = acc + sumZ (List.map characters cs).
Proof.
  revert acc. induction cs as [|c cs IH]; intros acc;
    cbn [fold_left List.map sumZ fold_right]; [lia|].
  rewrite IH. fold (sumZ (List.map characters cs)). lia.
Qed.

(** The summary of the aggregator's result lists its first [maxCount]
    entries and ends with the total of the active mode: the number of
    lines counted, or the total length of their contents. *)
Theorem summary_total (cfg : Config) (blameData : list BlameLineData)
  (maxCount : Z) :
  let metrics := calculateContributions cfg blameData in
  formatContributorSummary cfg metrics maxCount =
  join (String newline "")
    (List.app (List.map (summaryLine cfg) (sliceTo maxCount metrics))
       [if isCharacters cfg
        then "Total: "
             ++ numberToString (contentLength (counted cfg blameData))
             ++ " characters"
        else "Total: "
             ++ numberToString (Z.of_nat (List.length (counted cfg blameData)))
             ++ " lines"]).
Proof.
  cbv zeta. unfold formatContributorSummary.
  rewrite fold_left_lines, fold_left_characters.
  rewrite lines_sum_counted.
  replace (sumZ (List.map characters (calculateContributions cfg blameData)))
    with (contentLength (counted cfg blameData)).
  - destruct (isCharacters cfg); reflexivity.
  - symmetry. destruct blameData as [|l d]; [reflexivity|].
    rewrite (sumZ_perm _ _
               (Permutation_map characters
                  (calculateContributions_perm cfg (l :: d)
                     ltac:(discriminate)))).
    replace (List.map characters
               (List.map (toMetric cfg
                            (totalOf s_lines (groupByAuthor cfg (l :: d)))
                            (totalOf s_characters (groupByAuthor cfg (l :: d))))
                  (groupByAuthor cfg (l :: d))))
      with (List.map s_characters (JSMap.values (groupByAuthor cfg (l :: d))))
      by (unfold JSMap.values; rewrite !map_map; reflexivity).
    unfold groupByAuthor. rewrite group_characters. reflexivity.
Qed.

End SummaryFacts.

Module RunnerFacts.
Import JS JSFacts BlameParser Metrics Crypto Cache Extension.
Import PipelineFacts RequestFacts.

Section Runner.
Variable execFile :
  string -> list string -> GitRunner.ExecOptions -> GitRunner.ExecError + string.
Variables dirname basename : string -> string.
(** The path of the temporary file that holds a content. *)
Variable tempFileOf : string -> string.

(** The environment of a request whose git queries are those of
    [GitRunner]. *)
Definition withGitRunner (env : Env) : Env :=
  mkEnv (maxFileSizeKB env) (metricsConfig env) (statSync env)
        (writeFileSync env)
        (GitRunner.isInGitRepository execFile dirname)
        (GitRunner.isFileTracked execFile dirname basename)
        (GitRunner.isFileModified execFile dirname basename)
        (fun filePath contents =>
           GitRunner.getBlame execFile dirname basename filePath
                              (option_map tempFileOf contents))
        (nowAtGet env) (nowAtSet env) (activeTextEditor env)
        (showQuickPick env).

(** When [git] cannot be run, the three queries answer [false] and the
    blame throws "Git not found in PATH"; a request never gets that far:
    the repository check has failed, and the status bar says
    "Top: No Git". *)
Theorem without_git (env : Env) (editor : Editor) (w : World) :
  (forall args options,
     exists error,
       execFile "git" args options = inl error
       /\ GitRunner.code error = GitRunner.SystemError "ENOENT") ->
  byteLength (getText editor) <= 1024 * maxFileSizeKB env ->
  (forall filePath tempFilePath,
     GitRunner.isInGitRepository execFile dirname filePath = false
     /\ GitRunner.isFileTracked execFile dirname basename filePath = false
     /\ GitRunner.isFileModified execFile dirname basename filePath = false
     /\ GitRunner.getBlame execFile dirname basename filePath tempFilePath
        = inl "Git not found in PATH")
  /\ updateContributors (withGitRunner env) editor w =
     (inr tt,
      mkWorld (cache w)
              (mkStatusBarItem "Top: No Git" "File is not in a Git repository")
              (log w ++ [GitRevParse (fsPath editor)])).
Proof.
  intros E L.
  assert (Q : forall filePath tempFilePath,
     GitRunner.isInGitRepository execFile dirname filePath = false
     /\ GitRunner.isFileTracked execFile dirname basename filePath = false
     /\ GitRunner.isFileModified execFile dirname basename filePath = false
     /\ GitRunner.getBlame execFile dirname basename filePath tempFilePath
        = inl "Git not found in PATH").
  { intros filePath tempFilePath.
    unfold GitRunner.isInGitRepository, GitRunner.isFileTracked,
      GitRunner.isFileModified, GitRunner.getBlame.
    repeat split;
      match goal with
      | |- context [execFile "git" ?a ?o] =>
          destruct (E a o) as (error & -> & C)
      end; try reflexivity.
    unfold GitRunner.codeIs. rewrite C. reflexivity. }
  split; [exact Q|].
  apply Z.ltb_ge in L. unfold updateContributors.
  cbn [maxFileSizeKB withGitRunner]. rewrite L. run.
  cbn [isInGitRepository withGitRunner].
  rewrite (proj1 (Q (fsPath editor) None)). reflexivity.
Qed.

(** A blame that the time limit of five seconds ends (the process is
    killed with SIGTERM) is shown as "Error: Git blame timeout". *)
Theorem blame_timeout_shown (env : Env) (editor : Editor)
  (error : GitRunner.ExecError) (c' : ContributorCache) (w : World) :
  let env' := withGitRunner env in
  let filePath := fsPath editor in
  let contents := substitute env' filePath (getText editor) in
  byteLength (getText editor) <= 1024 * maxFileSizeKB env ->
  isInGitRepository env' filePath = true ->
  Cache.get (nowAtGet env) (fingerprint env' editor) (cache w) = (None, c') ->
  (contents <> None -> writeFileSync env (getText editor) = None) ->
  execFile "git"
    (GitRunner.blameArgs basename filePath (option_map tempFileOf contents))
    (GitRunner.mkExecOptions (dirname filePath) 5000 (Some 10485760))
    = inl error ->
  GitRunner.signal error = Some "SIGTERM" ->
  GitRunner.code error <> GitRunner.SystemError "ENOENT" ->
  updateContributors env' editor w =
    (inr tt,
     mkWorld c' (mkStatusBarItem "Top: Error" "Error: Git blame timeout")
             (log w ++ GitRevParse filePath
                       :: blameEvents env' filePath (getText editor)
                       ++ [ConsoleError "Error updating contributors:"])).
Proof.
  intros env' filePath contents L R G T X S C.
  apply (updateContributors_blame_fails env' editor "Git blame timeout" c' w);
    try assumption.
  fold filePath. fold contents.
  unfold env' at 1. cbn [getBlame withGitRunner].
  unfold GitRunner.getBlame.
  change (10 * 1024 * 1024) with 10485760.
  change GitRunner.timeoutMs with 5000. rewrite X.
  unfold GitRunner.codeIs, GitRunner.signalIs. rewrite S.
  destruct (GitRunner.code error) as [n | name |]; try reflexivity.
  destruct (String.eqb_spec name "ENOENT") as [-> | N];
    [congruence | reflexivity].
Qed.

End Runner.
End RunnerFacts.

(** ** The debounce timer *)

Module SessionFacts.
Import JS Cache Extension Session.

(** The states of a session: from [activate], by changes of the active
    editor, timers that run, saves, commands and [deactivate]. *)
Inductive reachable : State -> Prop :=
| reach_activate now activeTextEditor :
    reachable (activate now activeTextEditor)
| reach_change s now editor :
    reachable s -> reachable (handleEditorChange now editor s)
| reach_timer s env now :
    reachable s -> reachable (runTimer env now s)
| reach_saved s env document :
    reachable s -> reachable (saved env document s)
| reach_commanded s env :
    reachable s -> reachable (commanded env s)
| reach_deactivate s :
    reachable s -> reachable (deactivate s).

(** At most one timer waits, and [debounceTimer] holds its handle. *)
Definition tidy (s : State) : Prop :=
  timers s = []
  \/ exists t, timers s = [t] /\ debounceTimer s = Some (handle t).

Lemma clearTimeout_one (t : Timer) : clearTimeout (handle t) [t] = [].
Proof. unfold clearTimeout. cbn [List.filter]. now rewrite Z.eqb_refl. Qed.

Lemma tidy_cleared (s : State) :
  tidy s ->
  match debounceTimer s with
  | Some h => clearTimeout h (timers s)
  | None => timers s
  end = [].
Proof.
  intros [E | (t & E & D)]; rewrite E.
  - now destruct (debounceTimer s).
  - rewrite D. apply clearTimeout_one.
Qed.

Lemma handleEditorChange_run (now : Z) (editor : option Editor) (s : State) :
  tidy s ->
  handleEditorChange now editor s =
  mkState (world s) (Some (nextHandle s))
          [mkTimer (nextHandle s) (now + 300) editor] (nextHandle s + 1).
Proof. intros T. unfold handleEditorChange. now rewrite tidy_cleared. Qed.

Lemma runTimer_tidy (env : Env) (now : Z) (s : State) :
  tidy s -> tidy (runTimer env now s).
Proof.
  intros T. unfold runTimer.
  destruct (List.find _ (timers s)) as [t|] eqn:F; [|exact T].
  left. cbn [timers]. destruct T as [E | (t' & E & D)]; rewrite E in *.
  - discriminate F.
  - cbn [List.find] in F. destruct (due t' <=? now); [|discriminate F].
    injection F as <-. apply clearTimeout_one.
Qed.

Lemma reachable_tidy (s : State) : reachable s -> tidy s.
Proof.
  induction 1 as [now ed | s now ed R IH | s env now R IH
                  | s env ed R IH | s env R IH | s R IH].
  - destruct ed as [e|]; [|now left].
    right. cbn. eexists. split; reflexivity.
  - rewrite handleEditorChange_run by exact IH. right.
    eexists. split; reflexivity.
  - now apply runTimer_tidy.
  - exact IH.
  - exact IH.
  - unfold deactivate. destruct (debounceTimer s) as [h|] eqn:D; [|exact IH].
    left. cbn [timers]. pose proof (tidy_cleared s IH) as C.
    now rewrite D in C.
Qed.

(** Editor changes, each with its time, in order. *)
Definition changed (changes : list (Z * option Editor)) (s : State) : State :=
  fold_left (fun st c => handleEditorChange (fst c) (snd c) st) changes s.

Lemma changed_reachable (changes : list (Z * option Editor)) (s : State) :
  reachable s -> reachable (changed changes s) /\ world (changed changes s) = world s.
Proof.
  revert s. induction changes as [|c l IH]; intros s R; [now split|].
  cbn [changed fold_left].
  destruct (IH (handleEditorChange (fst c) (snd c) s)) as [R' W].
  - now constructor.
  - split; [exact R' | exact W].
Qed.

(** Debouncing.  After a run of editor changes with no timer run in
    between, nothing has been done yet and one timer waits: the one of
    the last change, due 300 ms after it.  Before that time the event
    loop has nothing to run; from that time on it runs the callback of
    the last change, for the editor given last, and no timer is left. *)
Theorem last_change_wins (s : State) (changes : list (Z * option Editor))
  (now : Z) (editor : option Editor) :
  reachable s ->
  let s' := changed (List.app changes [(now, editor)]) s in
  world s' = world s
  /\ (exists h, timers s' = [mkTimer h (now + 300) editor])
  /\ forall env later,
       (later < now + 300 -> runTimer env later s' = s')
       /\ (now + 300 <= later ->
           world (runTimer env later s')
             = snd (debounced env editor (world s))
           /\ timers (runTimer env later s') = []).
Proof.
  intros R s'. subst s'. unfold changed. rewrite fold_left_app.
  fold (changed changes s). cbn [fold_left fst snd].
  destruct (changed_reachable changes s R) as [R' W].
  rewrite (handleEditorChange_run _ _ _ (reachable_tidy _ R')).
  cbn [world timers]. split; [exact W|].
  split; [eexists; reflexivity|].
  intros env later. unfold runTimer. cbn [timers List.find due].
  split; intros L.
  - apply Z.leb_gt in L. now rewrite L.
  - apply Z.leb_le in L. rewrite L. cbn [world timers editorOf handle].
    rewrite W. split; [reflexivity|].
    exact (clearTimeout_one (mkTimer _ _ _)).
Qed.

(** [deactivate] clears the timer that waits: afterwards the event loop
    has no callback of the extension to run. *)
Theorem deactivate_cancels (s : State) :
  reachable s ->
  timers (deactivate s) = []
  /\ world (deactivate s) = world s
  /\ forall env now, runTimer env now (deactivate s) = deactivate s.
Proof.
  intros R.
  assert (T : timers (deactivate s) = []).
  { pose proof (tidy_cleared s (reachable_tidy s R)) as C.
    unfold deactivate. destruct (debounceTimer s); exact C. }
  split; [exact T|]. split.
  - unfold deactivate. now destruct (debounceTimer s).
  - intros env now. unfold runTimer. now rewrite T.
Qed.

End SessionFacts.

(** ** Runs *)

Module GroupingRuns.
Import JS BlameParser Metrics MetricsFacts GroupingFacts MetricsRuns.

Lemma entry_counts_witness :
  In (mkContributorMetrics "Alice" 29 29 14)
     (calculateContributions (mkConfig "lines" false) twoHundredLines)
  /\ 29 = Z.of_nat (List.length
                      (linesBy "Alice"
                         (counted (mkConfig "lines" false) twoHundredLines)))
  /\ 29 = contentLength
            (linesBy "Alice" (counted (mkConfig "lines" false) twoHundredLines))
  /\ 1 <= 29.
Proof.
  assert (I : In (mkContributorMetrics "Alice" 29 29 14)
                 (calculateContributions (mkConfig "lines" false)
                    twoHundredLines))
    by (vm_compute; auto).
  split; [exact I|].
  exact (entry_counts (mkConfig "lines" false) twoHundredLines
           (mkContributorMetrics "Alice" 29 29 14) I).
Defined.

Lemma percentages_sum_witness :
  0 < sumZ (List.map (countValue (mkConfig "lines" false))
              (calculateContributions (mkConfig "lines" false) twoHundredLines))
    <= 2 ^ 44
  /\ Z.abs (2 * sumZ (List.map percentage
                        (calculateContributions (mkConfig "lines" false)
                           twoHundredLines)) - 200)
     <= Z.of_nat (List.length
                    (calculateContributions (mkConfig "lines" false)
                       twoHundredLines)).
Proof.
  assert (T : 0 < sumZ (List.map (countValue (mkConfig "lines" false))
                          (calculateContributions (mkConfig "lines" false)
                             twoHundredLines)) <= 2 ^ 44)
    by (vm_compute; split; [reflexivity | discriminate]).
  split; [exact T|].
  exact (percentages_sum (mkConfig "lines" false) twoHundredLines T).
Defined.

End GroupingRuns.

Module PorcelainRuns.
Import JS JSFacts BlameParser ParserFacts NumberFacts PorcelainFacts.

(** Two lines of a file of two: the first committed by Alice, the second
    not committed yet. *)
Definition twoBlocks : list Block :=
  [ mkBlock "4b825dc642cb6eb9a060e54bf8d69288fbee4904" 1 1 (Some 1) "Alice"
      [ ("author-mail ", "<alice@example.com>");
        ("author-time ", "1700000000"); ("summary ", "first line");
        ("filename ", "a.txt") ]
      "hello world";
    mkBlock "0000000000000000000000000000000000000000" 2 2 (Some 1)
      "Not Committed Yet"
      [ ("author-mail ", "<not.committed.yet>"); ("boundary", "");
        ("filename ", "a.txt") ]
      "  return;" ].

Ltac key_listed :=
  unfold metadataKeys, skippedKeys; cbn [In fst];
  repeat first [left; reflexivity | right].

Ltac line_free := vm_compute; intuition discriminate.

Lemma twoBlocks_valid : Forall (valid 2) twoBlocks.
Proof.
  repeat (apply Forall_cons;
          [constructor;
           [ vm_compute; reflexivity | reflexivity
           | cbn [finalLine]; lia | discriminate | line_free
           | cbn [metadata];
             repeat (apply Forall_cons; [split; [key_listed | line_free]|]);
             apply Forall_nil
           | line_free | vm_compute; discriminate ]|]).
  apply Forall_nil.
Qed.

Lemma parse_porcelain_witness :
  parseBlameOutput (porcelain twoBlocks)
                   ("hello world" ++ String newline "  return;")
  = [ mkBlameLineData "Alice" 1 "hello world";
      mkBlameLineData uncommittedLabel 2 "  return;" ].
Proof.
  exact (parse_porcelain twoBlocks
           ("hello world" ++ String newline "  return;")
           twoBlocks_valid ltac:(discriminate)).
Defined.

End PorcelainRuns.

Module CacheLifeRuns.
Import JS JSFacts Metrics Crypto Cache JSMapFacts CacheFacts CacheLife CacheRuns.

Definition keyOf (n : Z) : string :=
  getCacheKey noStat ("/repo/" ++ numberToString n) "".

Lemma set_evicts_oldest_only_witness :
  JSMap.get (keyOf 0) (Cache.set 100 (keyOf 100) [] defaultTTL (filled 100))
    = None
  /\ JSMap.get (keyOf 1) (Cache.set 100 (keyOf 100) [] defaultTTL (filled 100))
     = Some (mkCacheEntry [] 1 defaultTTL).
Proof.
  split.
  - rewrite (set_evicts_oldest_only (filled 100) 100 defaultTTL (keyOf 100)
               (keyOf 0) [] (filled_reachable 100)
               ltac:(vm_compute; discriminate)).
    vm_compute. reflexivity.
  - vm_compute. reflexivity.
Defined.

Lemma refresh_at_the_bound_witness :
  Cache.size (Cache.set 100 (keyOf 5) [] defaultTTL (filled 100)) = 99
  /\ exists oldest,
       JSMap.firstKey (filled 100) = Some oldest
       /\ JSMap.get oldest (filled 100) <> None
       /\ JSMap.get oldest (Cache.set 100 (keyOf 5) [] defaultTTL (filled 100))
          = None
       /\ forall now',
            fst (Cache.get now' oldest (filled 100)) <> None ->
            snd (Cache.get now' oldest (filled 100)) = filled 100.
Proof.
  exact (refresh_at_the_bound (filled 100) 100 defaultTTL (keyOf 5) []
           (filled_reachable 100)
           ltac:(vm_compute; reflexivity)
           ltac:(vm_compute; discriminate)
           ltac:(vm_compute; discriminate)).
Defined.

Lemma cleanup_drops_expired_witness :
  cleanup 30001 (filled 2)
  = List.filter (fun e => negb (expired 30001 (snd e))) (filled 2)
  /\ forall key,
       fst (Cache.get 30001 key (cleanup 30001 (filled 2)))
       = fst (Cache.get 30001 key (filled 2)).
Proof. exact (cleanup_drops_expired (filled 2) 30001 (filled_reachable 2)). Defined.

Lemma fingerprint_separates_witness :
  let before := fun _ : string => Some (Fs.mkStats 1700000000000 11) in
  let after := fun _ : string => Some (Fs.mkStats 1700000005000 11) in
  (getCacheKey before "/repo/a.txt" "hello world"
   = getCacheKey after "/repo/a.txt" "hello world" ->
   Fs.mkStats 1700000000000 11 = Fs.mkStats 1700000005000 11
   /\ substringTo 8 (md5hex "hello world") = substringTo 8 (md5hex "hello world"))
  /\ forall statSync3 content3,
       statSync3 "/repo/a.txt" = None ->
       getCacheKey statSync3 "/repo/a.txt" content3
       <> getCacheKey before "/repo/a.txt" "hello world".
Proof.
  exact (fingerprint_separates
           (fun _ => Some (Fs.mkStats 1700000000000 11))
           (fun _ => Some (Fs.mkStats 1700000005000 11))
           "/repo/a.txt" "hello world" "hello world"
           (Fs.mkStats 1700000000000 11) (Fs.mkStats 1700000005000 11)
           eq_refl eq_refl).
Defined.

End CacheLifeRuns.

Module RequestRuns.
Import JS JSFacts BlameParser ParserFacts Metrics Crypto Cache Extension.
Import CacheFacts PipelineFacts RequestFacts Samples PipelineRuns.

(** The environment of [sampleEnv] with a blame that fails. *)
Definition failingEnv (msg : string) : Env :=
  mkEnv 2048 defaultConfig (fun _ => None) (fun _ => None)
        (fun _ => true) (fun _ => true) (fun _ => true)
        (fun _ _ => inl msg) 1000 1005 (Some hello) (fun _ => None).

Lemma failed_blame_reported_witness :
  updateContributors (failingEnv "Git blame timeout") hello initialWorld =
    (inr tt,
     mkWorld JSMap.empty
             (mkStatusBarItem "Top: Error" "Error: Git blame timeout")
             [ GitRevParse "/repo/a.txt"; GitLsFiles "/repo/a.txt";
               GitStatus "/repo/a.txt"; WriteTempFile "hello world";
               GitBlame "/repo/a.txt" (Some "hello world"); UnlinkTempFile;
               ConsoleError "Error updating contributors:" ])
  /\ showContributors (failingEnv "Git blame timeout") initialWorld =
     (inr tt,
      mkWorld JSMap.empty (statusBarItem initialWorld)
              [ GitRevParse "/repo/a.txt"; GitLsFiles "/repo/a.txt";
                GitStatus "/repo/a.txt"; WriteTempFile "hello world";
                GitBlame "/repo/a.txt" (Some "hello world"); UnlinkTempFile;
                ConsoleError "Error showing contributors:";
                ShowErrorMessage "Error: Git blame timeout" ]).
Proof.
  destruct (failed_blame_reported (failingEnv "Git blame timeout") hello
              "Git blame timeout" JSMap.empty initialWorld
              ltac:(vm_compute; discriminate) eq_refl eq_refl
              (fun _ => eq_refl) eq_refl) as [U S].
  split; [exact U | exact (S eq_refl)].
Defined.


End RequestRuns.

Module RunnerRuns.
Import JS JSFacts BlameParser Metrics Crypto Cache Extension.
Import PipelineFacts RequestFacts RunnerFacts PipelineRuns.

(** No [git] on the path: every call fails to start. *)
Definition noGit (file : string) (args : list string)
  (options : GitRunner.ExecOptions) : GitRunner.ExecError + string :=
  inl (GitRunner.mkExecError (GitRunner.SystemError "ENOENT") None
                             "spawn git ENOENT").

(** A repository whose blame does not end within the time limit. *)
Definition slowGit (file : string) (args : list string)
  (options : GitRunner.ExecOptions) : GitRunner.ExecError + string :=
  match args with
  | command :: _ =>
      if String.eqb command "rev-parse" then inr "/repo"
      else if String.eqb command "ls-files" then inr "a.txt"
      else if String.eqb command "status" then inr ""
      else inl (GitRunner.mkExecError GitRunner.NoCode (Some "SIGTERM")
                                      "Command failed: git blame")
  | [] => inr ""
  end.

Definition dirnameOf (filePath : string) : string := "/repo".
Definition basenameOf (filePath : string) : string := "a.txt".
Definition tempFileOf (content : string) : string := "/tmp/vscode-blame-1.tmp".

Lemma without_git_witness :
  let env := sampleEnv 2048 hello helloBlame 1000 1005 in
  (forall filePath tempFilePath,
     GitRunner.isInGitRepository noGit dirnameOf filePath = false
     /\ GitRunner.isFileTracked noGit dirnameOf basenameOf filePath = false
     /\ GitRunner.isFileModified noGit dirnameOf basenameOf filePath = false
     /\ GitRunner.getBlame noGit dirnameOf basenameOf filePath tempFilePath
        = inl "Git not found in PATH")
  /\ updateContributors (withGitRunner noGit dirnameOf basenameOf tempFileOf env)
       hello initialWorld =
     (inr tt,
      mkWorld JSMap.empty
              (mkStatusBarItem "Top: No Git" "File is not in a Git repository")
              [GitRevParse "/repo/a.txt"]).
Proof.
  exact (without_git noGit dirnameOf basenameOf tempFileOf
           (sampleEnv 2048 hello helloBlame 1000 1005) hello initialWorld
           (fun _ _ => ex_intro _ _ (conj eq_refl eq_refl))
           ltac:(vm_compute; discriminate)).
Defined.

Lemma blame_timeout_shown_witness :
  let env := withGitRunner slowGit dirnameOf basenameOf tempFileOf
               (sampleEnv 2048 hello helloBlame 1000 1005) in
  updateContributors env hello initialWorld =
    (inr tt,
     mkWorld JSMap.empty
             (mkStatusBarItem "Top: Error" "Error: Git blame timeout")
             [ GitRevParse "/repo/a.txt"; GitLsFiles "/repo/a.txt";
               GitStatus "/repo/a.txt"; GitBlame "/repo/a.txt" None;
               ConsoleError "Error updating contributors:" ]).
Proof.
  exact (blame_timeout_shown slowGit dirnameOf basenameOf tempFileOf
           (sampleEnv 2048 hello helloBlame 1000 1005) hello
           (GitRunner.mkExecError GitRunner.NoCode (Some "SIGTERM")
                                  "Command failed: git blame")
           JSMap.empty initialWorld
           ltac:(vm_compute; discriminate) eq_refl eq_refl
           ltac:(intros N; now elim N) eq_refl eq_refl
           ltac:(discriminate)).
Defined.

End RunnerRuns.

Module SessionRuns.
Import JS Cache Extension Session SessionFacts PipelineRuns.

Definition notes : Editor := mkEditor "/repo/notes.txt" "to do".

Lemma last_change_wins_witness :
  let s := activate 0 (Some hello) in
  let s' := changed [(100, Some notes); (250, None); (400, Some hello)] s in
  world s' = world s
  /\ (exists h, timers s' = [mkTimer h (400 + 300) (Some hello)])
  /\ forall env later,
       (later < 400 + 300 -> runTimer env later s' = s')
       /\ (400 + 300 <= later ->
           world (runTimer env later s')
             = snd (debounced env (Some hello) (world s))
           /\ timers (runTimer env later s') = []).
Proof.
  exact (last_change_wins (activate 0 (Some hello))
           [(100, Some notes); (250, None)] 400 (Some hello)
           (reach_activate 0 (Some hello))).
Defined.

Lemma deactivate_cancels_witness :
  let s := activate 0 (Some hello) in
  timers (deactivate s) = []
  /\ world (deactivate s) = world s
  /\ forall env now, runTimer env now (deactivate s) = deactivate s.
Proof.
  exact (deactivate_cancels (activate 0 (Some hello))
           (reach_activate 0 (Some hello))).
Defined.

End SessionRuns.
